(** * QSDsan: stoichiometric processes, their collections and the PM2 model

    A shallow embedding of [qsdsan/_process.py] ([Process], [Processes],
    [CompiledProcesses]) and of [PM2.set_parameters] from
    [qsdsan/processes/_pm2.py], followed by the properties checked on it.

    Conventions of the embedding:
    - Python floats are exact rationals ([Qc]); sympy expressions are terms
      of [expr], compared through their value under an assignment of the
      symbols ([eval]).
    - A method that may raise and mutates its receiver is a function
      [S -> result A * S]: the state it returns is the receiver as the
      exception (if any) leaves it.
    - An instance [__dict__] is an insertion-ordered association list. *)

From Stdlib Require Import QArith Qcanon Qcabs.
From stdpp Require Import base option list strings gmap.

Local Open Scope string_scope.
Local Open Scope list_scope.

(** ** Python runtime: exceptions, results, receivers, ordered dictionaries *)

Module Py.

Inductive exn :=
| AttributeError (msg : string)
| UndefinedProcess (ID : string)  (* class UndefinedProcess(AttributeError) *)
| TypeError (msg : string)
| ValueError (msg : string)
| KeyError (msg : string)
| IndexError (msg : string)
| RuntimeError (msg : string)
(* the RuntimeError of check_conservation, with the (material, residual)
   pairs its message lists *)
| Unconserved (residuals : list (string * Qc)).

Inductive result (A : Type) :=
| Ok (a : A)
| Raise (e : exn).
Arguments Ok {A} a.
Arguments Raise {A} e.

Definition rbind {A B} (r : result A) (k : A -> result B) : result B :=
  match r with
  | Ok a => k a
  | Raise e => Raise e
  end.

(** [for x in l: ...] collecting results; the first exception wins. *)
Fixpoint mapM {A B} (f : A -> result B) (l : list A) : result (list B) :=
  match l with
  | [] => Ok []
  | x :: l' => rbind (f x) (fun y => rbind (mapM f l') (fun ys => Ok (y :: ys)))
  end.

(** Computations on a mutable receiver of type [S]. *)
Definition M (S A : Type) : Type := S -> result A * S.

Definition ret {S A} (a : A) : M S A := fun s => (Ok a, s).
Definition raise {S A} (e : exn) : M S A := fun s => (Raise e, s).
Definition bind {S A B} (m : M S A) (k : A -> M S B) : M S B :=
  fun s => match m s with
           | (Ok a, s') => k a s'
           | (Raise e, s') => (Raise e, s')
           end.
Definition get {S} : M S S := fun s => (Ok s, s).
Definition put {S} (s : S) : M S unit := fun _ => (Ok tt, s).
Definition modify {S} (f : S -> S) : M S unit := fun s => (Ok tt, f s).
Definition lift {S A} (r : result A) : M S A := fun s => (r, s).

(** [for x in l: body(x)] on the receiver. *)
Fixpoint forM_ {S A} (body : A -> M S unit) (l : list A) : M S unit :=
  match l with
  | [] => ret tt
  | x :: l' => bind (body x) (fun _ => forM_ body l')
  end.

(** Ordered dictionaries with string keys. *)
Definition odict (V : Type) : Type := list (string * V).

Fixpoint dict_get {V} (d : odict V) (k : string) : option V :=
  match d with
  | [] => None
  | (k', v) :: d' => if String.eqb k' k then Some v else dict_get d' k
  end.

(** [d[k] = v]: a key already present keeps its position. *)
Fixpoint dict_set {V} (d : odict V) (k : string) (v : V) : odict V :=
  match d with
  | [] => [(k, v)]
  | (k', v') :: d' =>
      if String.eqb k' k then (k', v) :: d' else (k', v') :: dict_set d' k v
  end.

Definition dict_contains {V} (d : odict V) (k : string) : bool :=
  match dict_get d k with Some _ => true | None => false end.

(** [d.update(d2)], also [dict(pairs)] when [d] is empty. *)
Definition dict_update {V} (d d2 : list (string * V)) : odict V :=
  fold_left (fun acc kv => dict_set acc (fst kv) (snd kv)) d2 d.

Definition dict_of_pairs {V} (l : list (string * V)) : odict V :=
  dict_update [] l.

Definition dict_keys {V} (d : odict V) : list string := map fst d.
Definition dict_values {V} (d : odict V) : list V := map snd d.

End Py.
Import Py.

Declare Scope py_scope.
Delimit Scope py_scope with py.
Notation "x <- m ;; k" := (bind m (fun x => k))
  (at level 100, m at next level, right associativity) : py_scope.
Notation "m ;;; k" := (bind m (fun _ => k))
  (at level 100, right associativity) : py_scope.

(** ** Symbolic expressions (sympy) *)

Inductive expr :=
| ENum (q : Qc)
| ESym (s : string)
| EAdd (a b : expr)
| EMul (a b : expr)
| EDiv (a b : expr)
| ENeg (a : expr)
| EAbs (a : expr).

Fixpoint eval (env : string -> Qc) (e : expr) : Qc :=
  match e with
  | ENum q => q
  | ESym s => env s
  | EAdd a b => (eval env a + eval env b)%Qc
  | EMul a b => (eval env a * eval env b)%Qc
  | EDiv a b => (eval env a / eval env b)%Qc
  | ENeg a => (- eval env a)%Qc
  | EAbs a => Qcabs (eval env a)
  end.

(** [e != 0] on a coefficient: a number is compared by value, any other
    expression is structurally different from zero. *)
Definition is_zero (e : expr) : bool :=
  match e with
  | ENum q => if Qc_eq_dec q (Q2Qc 0) then true else false
  | _ => false
  end.

(** ** The component registry *)

Module Components.

Record Component := {
  cmp_ID : string;
  cmp_factors : odict Qc   (* i_COD, i_N, i_P, i_charge, ... *)
}.

(** A compiled registry: the components in order. *)
Definition t : Type := list Component.

Definition IDs (cmps : t) : list string := map cmp_ID cmps.
Definition size (cmps : t) : nat := length cmps.

Fixpoint find_index (ids : list string) (ID : string) : option nat :=
  match ids with
  | [] => None
  | i :: ids' => if String.eqb i ID then Some 0 else S <$> find_index ids' ID
  end.

(** Modelled from the spec: [cmps._index[ID]], the position of an ID in the
    registry (the spec's index lookup); an unknown ID is a KeyError. *)
Definition index (cmps : t) (ID : string) : result nat :=
  match find_index (IDs cmps) ID with
  | Some j => Ok j
  | None => Raise (KeyError ID)
  end.

Fixpoint mem (ID : string) (ids : list string) : bool :=
  match ids with
  | [] => false
  | i :: ids' => if String.eqb i ID then true else mem ID ids'
  end.

Fixpoint dedup (seen : list string) (l : list Component) : list Component :=
  match l with
  | [] => []
  | c :: l' =>
      if mem (cmp_ID c) seen then dedup seen l'
      else c :: dedup (cmp_ID c :: seen) l'
  end.

(** Modelled from the spec: the constructor [Components(list)] followed by
    [compile()] lives in [qsdsan/_components.py], outside the
    modules embedded here.  The spec gives it as the union by ID of the listed
    components, in first-seen order (de-duplicated by ID). *)
Definition new (l : list Component) : t := dedup [] l.

(** Modelled from the spec: [getattr(cmps, 'i_' + q)], the registry's
    per-component row of one conversion factor.  A component without the
    factor makes the lookup fail. *)
Definition factor_array (cmps : t) (q : string) : result (list Qc) :=
  mapM (fun c => match dict_get (cmp_factors c) ("i_" +:+ q) with
                 | Some x => Ok x
                 | None => Raise (AttributeError ("i_" +:+ q))
                 end) cmps.

End Components.

(** ** Process *)

Module Process.

(** [_stoichiometry] is a numpy array when every coefficient is a number
    and a Python list of expressions otherwise. *)
Inductive stoich :=
| NdArray (v : list Qc)
| PyList (v : list expr).

Record t := {
  addr : nat;                       (* the identity of the object *)
  _ID : string;
  _stoichiometry : stoich;
  _components : Components.t;
  _ref_component : string;
  _conserved_for : list string;
  _parameters : odict expr;
  _rate_equation : expr
}.

Definition with_stoichiometry (s : stoich) (p : t) : t :=
  {| addr := addr p; _ID := _ID p; _stoichiometry := s;
     _components := _components p; _ref_component := _ref_component p;
     _conserved_for := _conserved_for p; _parameters := _parameters p;
     _rate_equation := _rate_equation p |}.

Definition with_rate_equation (r : expr) (p : t) : t :=
  {| addr := addr p; _ID := _ID p; _stoichiometry := _stoichiometry p;
     _components := _components p; _ref_component := _ref_component p;
     _conserved_for := _conserved_for p; _parameters := _parameters p;
     _rate_equation := r |}.

Definition with_ref_component (c : string) (p : t) : t :=
  {| addr := addr p; _ID := _ID p; _stoichiometry := _stoichiometry p;
     _components := _components p; _ref_component := c;
     _conserved_for := _conserved_for p; _parameters := _parameters p;
     _rate_equation := _rate_equation p |}.

(** Instance attributes, as [__init__] assigns them ([_load_chemicals],
    from thermosteam, may keep the registry under a name of its own, which
    no method below reads). *)
Inductive attr :=
| AStr (s : string)
| AStrs (l : list string)
| AStoich (s : stoich)
| AComponents (c : Components.t)
| AParams (d : odict expr)
| AExpr (e : expr).

Definition no_attribute (name : string) : exn :=
  AttributeError ("'Process' object has no attribute '" +:+ name +:+ "'").

(** [self.<name>] for a name that is not a method or property. *)
Definition getattr (self : t) (name : string) : result attr :=
  if String.eqb name "_ID" then Ok (AStr (_ID self))
  else if String.eqb name "_stoichiometry" then Ok (AStoich (_stoichiometry self))
  else if String.eqb name "_components" then Ok (AComponents (_components self))
  else if String.eqb name "_ref_component" then Ok (AStr (_ref_component self))
  else if String.eqb name "_conserved_for" then Ok (AStrs (_conserved_for self))
  else if String.eqb name "_parameters" then Ok (AParams (_parameters self))
  else if String.eqb name "_rate_equation" then Ok (AExpr (_rate_equation self))
  else Raise (no_attribute name).

(** numpy arrays of conversion factors: one row, or rows stacked. *)
Inductive ndarray :=
| Arr1 (v : list Qc)
| Arr2 (rows : list (list Qc)).

Definition vstack (a : ndarray) (row : list Qc) : ndarray :=
  match a with
  | Arr1 v => Arr2 [v; row]
  | Arr2 rows => Arr2 (rows ++ [row])
  end.

Inductive factors :=
| FNone
| FArray (a : ndarray)
| FMatrix (rows : list (list Qc)).

Fixpoint stack_factors (cmps : Components.t) (arr : ndarray) (cs : list string)
  : result ndarray :=
  match cs with
  | [] => Ok arr
  | c :: cs' =>
      rbind (Components.factor_array cmps c)
            (fun row => stack_factors cmps (vstack arr row) cs')
  end.

Definition tolist (a : ndarray) : list (list Qc) :=
  match a with
  | Arr1 v => map (fun x => [x]) v
  | Arr2 rows => rows
  end.

Definition get_conversion_factors (self : t) (as_matrix : bool) : result factors :=
  rbind (getattr self "_conservation_for") (fun a =>
    match a with
    | AStrs (c0 :: cs) =>
        let cmps := _components self in
        rbind (Components.factor_array cmps c0) (fun arr0 =>
        rbind (stack_factors cmps (Arr1 arr0) cs) (fun arr =>
        if as_matrix then Ok (FMatrix (tolist arr)) else Ok (FArray arr)))
    | AStrs [] => Ok FNone
    | _ => Raise (TypeError "conserved quantities must be a tuple of names")
    end).

Definition sumQc (l : list Qc) : Qc := fold_right Qcplus (Q2Qc 0) l.

(** [r @ v] for two vectors; numpy refuses operands of different length. *)
Definition dot (r v : list Qc) : result Qc :=
  if Nat.eqb (length r) (length v)
  then Ok (sumQc (zip_with Qcmult r v))
  else Raise (ValueError "matmul: shape mismatch").

(** [np.isclose(x, 0, atol=tol)]: |x - 0| <= atol + rtol * |0|. *)
Definition isclose0 (tol x : Qc) : bool :=
  if Qclt_le_dec tol (Qcabs x) then false else true.

Definition enumerate {A} (l : list A) : list (nat * A) := zip (seq 0 (length l)) l.

Definition check_conservation (self : t) (tol : Qc) : result unit :=
  match _stoichiometry self with
  | NdArray v =>
      rbind (get_conversion_factors self false) (fun ic =>
      match ic with
      | FArray (Arr2 rows) =>
          rbind (mapM (fun r => dot r v) rows) (fun ic_dot_v =>
          let conserved_arr := map (isclose0 tol) ic_dot_v in
          if forallb id conserved_arr then Ok tt
          else
            let materials := _conserved_for self in
            rbind (mapM (fun ic : nat * bool =>
                           match materials !! fst ic, ic_dot_v !! fst ic with
                           | Some m, Some x => Ok (m, x)
                           | _, _ => Raise (IndexError "tuple index out of range")
                           end)
                        (List.filter (fun ic : nat * bool => negb (snd ic))
                                     (enumerate conserved_arr)))
                  (fun unconserved => Raise (Unconserved unconserved)))
      | FArray (Arr1 r) =>
          rbind (dot r v) (fun ic_dot_v =>
          if isclose0 tol ic_dot_v then Ok tt
          else Raise (TypeError "'numpy.bool_' object is not iterable"))
      | _ => Raise (TypeError "unsupported operand type(s) for @")
      end)
  | PyList _ =>
      Raise (RuntimeError
        "Can only check conservations with numerical stoichiometric coefficients.")
  end.

Definition neg_stoich (s : stoich) : stoich :=
  match s with
  | NdArray v => NdArray (map Qcopp v)
  | PyList v => PyList (map ENeg v)
  end.

Definition reverse : M t unit :=
  modify (fun self =>
    with_rate_equation (ENeg (_rate_equation self))
      (with_stoichiometry (neg_stoich (_stoichiometry self)) self)).

(** The dense coefficient vector, numbers read as expressions. *)
Definition coeffs (s : stoich) : list expr :=
  match s with
  | NdArray v => map ENum v
  | PyList v => v
  end.

(** The [stoichiometry] property: component ID to nonzero coefficient. *)
Definition stoichiometry (self : t) : odict expr :=
  let allcmps :=
    dict_of_pairs (zip (Components.IDs (_components self))
                       (coeffs (_stoichiometry self))) in
  List.filter (fun kv : string * expr => negb (is_zero (snd kv))) allcmps.

Definition index_error : exn := IndexError "index out of range".

Definition _normalize_stoichiometry (new_ref : string) : M t unit :=
  (self <- get ;;
   j <- lift (Components.index (_components self) new_ref) ;;
   match _stoichiometry self with
   | NdArray v =>
       match v !! j with
       | Some c =>
           let factor := Qcabs c in
           put (with_stoichiometry (NdArray (map (fun x => (x / factor)%Qc) v)) self)
       | None => raise index_error
       end
   | PyList v =>
       match v !! j with
       | Some c =>
           let factor := EAbs c in
           put (with_stoichiometry (PyList (map (fun x => EDiv x factor) v)) self)
       | None => raise index_error
       end
   end)%py.

Definition _normalize_rate_eq (new_ref : string) : M t unit :=
  (self <- get ;;
   j <- lift (Components.index (_components self) new_ref) ;;
   match coeffs (_stoichiometry self) !! j with
   | Some factor => put (with_rate_equation (EMul (_rate_equation self) factor) self)
   | None => raise index_error
   end)%py.

(** The [ref_component] setter; the empty string is falsy. *)
Definition set_ref_component (ref_cmp : string) : M t unit :=
  (if String.eqb ref_cmp "" then ret tt
   else
     modify (with_ref_component ref_cmp) ;;;
     _normalize_stoichiometry ref_cmp ;;;
     _normalize_rate_eq ref_cmp)%py.

End Process.

(** ** Processes and CompiledProcesses *)

Module Processes.

Inductive pyclass := cls_Processes | cls_CompiledProcesses.

(** What an instance [__dict__] and the arguments of the methods hold. *)
#[warnings="-register-all"] Inductive value :=
| VNone
| VInt (n : nat)
| VStr (s : string)
| VProcess (p : Process.t)
| VTuple (ps : list Process.t)
| VStrs (l : list string)
| VIndex (d : odict nat)
| VComponents (c : Components.t)
| VParams (d : odict expr)
| VStoich (numeric : bool) (rows : list (list expr))
| VExprs (l : list expr)
| VMatrix (entries : list expr)
| VMethod (name : string)
| VList (l : list value).

Definition type_name (v : value) : string :=
  match v with
  | VNone => "NoneType"
  | VInt _ => "int"
  | VStr _ => "str"
  | VProcess _ => "Process"
  | VTuple _ | VStrs _ | VExprs _ => "tuple"
  | VIndex _ | VParams _ => "dict"
  | VComponents _ => "CompiledComponents"
  | VStoich true _ => "numpy.ndarray"
  | VStoich false _ => "list"
  | VMatrix _ => "MutableDenseMatrix"
  | VMethod _ => "method"
  | VList _ => "list"
  end.

(** [__class__] and [__dict__] of an instance. *)
Record obj := { cls : pyclass; dict : odict value }.

Definition with_dict (d : odict value) (o : obj) : obj :=
  {| cls := cls o; dict := d |}.
Definition with_cls (c : pyclass) (o : obj) : obj :=
  {| cls := c; dict := dict o |}.

(** [dct[k] = v] on the instance dictionary [dct = self.__dict__]. *)
Definition dct_set (k : string) (v : value) : M obj unit :=
  modify (fun o => with_dict (dict_set (dict o) k v) o).

Definition class_name (c : pyclass) : string :=
  match c with
  | cls_Processes => "Processes"
  | cls_CompiledProcesses => "CompiledProcesses"
  end.

(** The names that attribute assignment resolves to a data descriptor of
    the class before it looks at [__dict__]: [__class__] (from [object]),
    [__dict__] and [__weakref__] (of a class without slots) and, on
    [CompiledProcesses], its four properties, which have no setter. *)
Definition data_descriptors (c : pyclass) : list string :=
  [ "__class__"; "__dict__"; "__weakref__" ] ++
  match c with
  | cls_Processes => []
  | cls_CompiledProcesses =>
      [ "parameters"; "stoichiometry"; "rate_equations"; "production_rates" ]
  end.

(** What such a descriptor answers when it is given a [Process]. *)
Definition descriptor_error (k : string) : exn :=
  if String.eqb k "__class__" then
    TypeError "__class__ must be set to a class, not 'Process' object"
  else if String.eqb k "__dict__" then
    TypeError "__dict__ must be set to a dictionary, not a 'Process'"
  else if String.eqb k "__weakref__" then
    AttributeError "attribute '__weakref__' of 'Processes' objects is not writable"
  else AttributeError "can't set attribute".

(** [setattr = object.__setattr__], called with a [Process] as the value:
    the entry [k] of [__dict__] is written unless the class has a data
    descriptor of that name, which then raises and writes nothing. *)
Definition setattr (k : string) (p : Process.t) : M obj unit :=
  fun self =>
    if Components.mem k (data_descriptors (cls self))
    then (Raise (descriptor_error k), self)
    else (Ok tt, with_dict (dict_set (dict self) k (VProcess p)) self).

(** [setfield = setattr] *)
Definition setfield : string -> Process.t -> M obj unit := setattr.

Definition no_ID (v : value) : exn :=
  AttributeError ("'" +:+ type_name v +:+ "' object has no attribute 'ID'").

(** A value used as a [Process]: only a [Process] has [ID],
    [_components], [_rate_equation], ... *)
Definition as_Process (v : value) : result Process.t :=
  match v with
  | VProcess p => Ok p
  | _ => Raise (no_ID v)
  end.

(** [for i in processes: setfield(self, i.ID, i)]; only a [Process] gets
    past [i.ID]. *)
Definition set_members (processes : list value) : M obj unit :=
  forM_ (fun i => (p <- lift (as_Process i) ;; setfield (Process._ID p) p)%py)
        processes.

(** [Processes.__new__] *)
Definition __new__ (processes : list value) : result obj :=
  match set_members processes {| cls := cls_Processes; dict := [] |} with
  | (Ok _, self) => Ok self
  | (Raise e, _) => Raise e
  end.

Definition __iter__ (self : obj) : list value := dict_values (dict self).
Definition __len__ (self : obj) : nat := length (dict self).

Definition __setitem__ (ID : string) (process : value) : M obj unit :=
  raise (TypeError "can't set attribute; use <Processes>.append instead").

Inductive key := KStr (ID : string) | KList (IDs : list string).

(** The key as the f-string prints it. *)
Definition key_repr (k : key) : string :=
  match k with
  | KStr ID => ID
  | KList [] => "[]"
  | KList IDs => "['" +:+ String.concat "', '" IDs +:+ "']"
  end.

Definition __getitem__ (self : obj) (k : key) : result value :=
  let dct := dict self in
  let undefined := Raise (KeyError ("undefined process " +:+ key_repr k)) in
  match k with
  | KStr ID =>
      match dict_get dct ID with Some v => Ok v | None => undefined end
  | KList IDs =>
      match mapM (fun i => match dict_get dct i with
                           | Some v => Ok v
                           | None => Raise (KeyError i)
                           end) IDs with
      | Ok vs => Ok (VList vs)
      | Raise _ => undefined
      end
  end.

Definition copy (self : obj) : result obj :=
  match set_members (__iter__ self) {| cls := cls_Processes; dict := [] |} with
  | (Ok _, copy) => Ok copy
  | (Raise e, _) => Raise e
  end.

Definition append (process : value) : M obj unit :=
  match process with
  | VProcess p =>
      (self <- get ;;
       let ID := Process._ID p in
       if dict_contains (dict self) ID
       then raise (ValueError (ID +:+ " already defined in processes"))
       else setattr ID p)%py
  | _ =>
      raise (TypeError ("only 'Process' objects can be appended, not '"
                        +:+ type_name process +:+ "'"))
  end.

(** The argument of [extend]: a [Processes] instance or another iterable. *)
Inductive iterable :=
| Instance (o : obj)
| Iterable (l : list value).

Definition not_callable (v : value) : exn :=
  TypeError ("'" +:+ type_name v +:+ "' object is not callable").

(** Modelled from the spec: the decorator
    [@read_only(methods=('append', 'extend', '__setitem__'))] is imported
    from [thermosteam.utils].  By the spec, once compiled, [append],
    [extend] and item assignment fail with an explicit read-only error;
    each of the three names is bound to this function. *)
Definition deny {A} : M obj A :=
  fun self =>
    (Raise (TypeError ("'" +:+ class_name (cls self) +:+ "' object is read-only.")),
     self).

(** [self.append(process)]: the name is looked up on the instance.
    [append] is a plain function of the class, so an entry of [__dict__]
    under that name - a member with the ID append - is found first, and
    calling it fails.  Otherwise the class of the receiver gives the
    function, which on [CompiledProcesses] is the read-only one. *)
Definition self_append (process : value) : M obj unit :=
  fun self =>
    match dict_get (dict self) "append" with
    | Some v => (Raise (not_callable v), self)
    | None =>
        match cls self with
        | cls_Processes => append process self
        | cls_CompiledProcesses => deny self
        end
    end.

Definition extend (processes : iterable) : M obj unit :=
  match processes with
  | Instance o => modify (fun self => with_dict (dict_update (dict self) (dict o)) self)
  | Iterable l => forM_ self_append l
  end.

(** The names the body of [class Processes] binds. *)
Definition class_attrs : list string :=
  [ "__new__"; "__setattr__"; "__setitem__"; "__getitem__"; "copy"; "append";
    "extend"; "subgroup"; "mycompile"; "show"; "_ipython_display_";
    "__len__"; "__contains__"; "__iter__"; "__repr__" ].

Definition no_attribute (name : string) : exn :=
  AttributeError ("'Processes' object has no attribute '" +:+ name +:+ "'").

(** [getattr(self, name)] on a [Processes] instance: the instance
    dictionary, then the class. *)
Definition getattr (self : obj) (name : string) : result value :=
  match dict_get (dict self) name with
  | Some v => Ok v
  | None =>
      if Components.mem name class_attrs then Ok (VMethod name)
      else Raise (no_attribute name)
  end.

Section Constructor.

(** The body of [Process.__init__] parses the reaction with
    [qsdsan._parse] and sympy; it is a parameter here.  What matters
    below is how a call binds its positional arguments to
    [(ID, reaction, ref_component, rate_equation=None, components=None,
      conserved_for=..., parameters=None)]. *)
Variable init_body : value -> value -> value -> list value -> result Process.t.

Definition Process_call (args : list value) : result Process.t :=
  match args with
  | [] =>
      Raise (TypeError "__init__() missing 3 required positional arguments: 'ID', 'reaction', and 'ref_component'")
  | [_] =>
      Raise (TypeError "__init__() missing 2 required positional arguments: 'reaction' and 'ref_component'")
  | [_; _] =>
      Raise (TypeError "__init__() missing 1 required positional argument: 'ref_component'")
  | ID :: reaction :: ref_component :: rest =>
      if Nat.leb (length rest) 4 then init_body ID reaction ref_component rest
      else Raise (TypeError "__init__() takes from 4 to 8 positional arguments")
  end.

(** [return Process([getattr(self, i) for i in IDs])] *)
Definition subgroup (self : obj) (IDs : list string) : result Process.t :=
  rbind (mapM (getattr self) IDs) (fun members => Process_call [VList members]).

End Constructor.

End Processes.

Module CompiledProcesses.
Import Processes.

Definition compile : M obj unit := ret tt.

(** The loop [for cmp, coeff in i.stoichiometry.items():
    stch[cmps._index[cmp]] = coeff].  The position comes from the
    registry, so it is within the row. *)
Fixpoint fill_row (cmps : Components.t) (items : list (string * expr))
         (stch : list expr) : result (list expr) :=
  match items with
  | [] => Ok stch
  | (cmp, coeff) :: items' =>
      rbind (Components.index cmps cmp)
            (fun j => fill_row cmps items' (<[j := coeff]> stch))
  end.

Definition is_list (s : Process.stoich) : bool :=
  match s with Process.PyList _ => true | Process.NdArray _ => false end.

(** The loop [for i in processes] of [_compile], on its three
    accumulators [M_stch], [params] and [all_numeric]. *)
Fixpoint compile_rows (cmps : Components.t) (processes : list Process.t)
         (M_stch : list (list expr)) (params : odict expr) (all_numeric : bool)
  : result (list (list expr) * odict expr * bool) :=
  match processes with
  | [] => Ok (M_stch, params, all_numeric)
  | i :: rest =>
      let stch := replicate (Components.size cmps) (ENum (Q2Qc 0)) in
      let params := dict_update params (Process._parameters i) in
      let all_numeric :=
        if all_numeric && is_list (Process._stoichiometry i) then false
        else all_numeric in
      rbind (fill_row cmps (Process.stoichiometry i) stch)
            (fun stch => compile_rows cmps rest (M_stch ++ [stch]) params all_numeric)
  end.

(** sympy: [Matrix(rows).T] and the product with a column vector. *)
Definition Matrix_T (m : list (list expr)) : list (list expr) :=
  let cols := match m with [] => 0 | r :: _ => length r end in
  map (fun j => map (fun r => nth j r (ENum (Q2Qc 0))) m) (seq 0 cols).

Definition row_times (r v : list expr) : expr :=
  fold_right EAdd (ENum (Q2Qc 0)) (zip_with EMul r v).

Definition Matrix_mul (m : list (list expr)) (v : list expr) : list expr :=
  map (fun r => row_times r v) m.

Definition _compile : M obj unit :=
  (self <- get ;;
   processes <- lift (mapM as_Process (dict_values (dict self))) ;;
   let IDs := map Process._ID processes in
   let size := length IDs in
   let index := seq 0 size in
   dct_set "tuple" (VTuple processes) ;;;
   dct_set "size" (VInt size) ;;;
   dct_set "IDs" (VStrs IDs) ;;;
   dct_set "_index" (VIndex (dict_of_pairs (zip IDs index))) ;;;
   let cmps := Components.new (flat_map Process._components processes) in
   dct_set "_components" (VComponents cmps) ;;;
   let rate_eqs := map Process._rate_equation processes in
   r <- lift (compile_rows cmps processes [] [] true) ;;
   let '(M_stch, params, all_numeric) := r in
   dct_set "_parameters" (VParams params) ;;;
   dct_set "_stoichiometry" (VStoich all_numeric M_stch) ;;;
   dct_set "_rate_equations" (VExprs rate_eqs) ;;;
   dct_set "_production_rates" (VMatrix (Matrix_mul (Matrix_T M_stch) rate_eqs)))%py.

(** [Processes.mycompile]: the instance changes class in place. *)
Definition mycompile : M obj unit :=
  (modify (with_cls cls_CompiledProcesses) ;;; _compile)%py.

(** The process-wide state: allocated instances and [_cache], keyed by the
    tuple of member objects (a [Process] hashes and compares by identity). *)
Record world := {
  next : nat;
  heap : gmap nat obj;
  cache : gmap (list nat) nat
}.

Definition empty_world : world := {| next := 0; heap := ∅; cache := ∅ |}.

(** [self._compile()]: the name is looked up on the instance, and
    [_compile] is a plain function of the class, so a member with the ID
    _compile is found first, and calling it fails. *)
Definition self__compile : M obj unit :=
  fun self =>
    match dict_get (dict self) "_compile" with
    | Some v => (Raise (not_callable v), self)
    | None => _compile self
    end.

Definition __new__ (processes : list Process.t) : M world nat :=
  (w <- get ;;
   let key := map Process.addr processes in
   match cache w !! key with
   | Some self => ret self
   | None =>
       let self := next w in
       let init := (set_members (map VProcess processes) ;;; self__compile)%py in
       match init {| cls := cls_CompiledProcesses; dict := [] |} with
       | (Ok _, o) =>
           put {| next := S self; heap := <[self := o]> (heap w);
                  cache := <[key := self]> (cache w) |} ;;;
           ret self
       | (Raise e, o) =>
           put {| next := S self; heap := <[self := o]> (heap w);
                  cache := cache w |} ;;;
           raise e
       end
   end)%py.

(** Attribute reads [self.<name>] of the compiled state. *)
Definition no_attribute (name : string) : exn :=
  AttributeError ("'CompiledProcesses' object has no attribute '" +:+ name +:+ "'").

Definition attr (self : obj) (name : string) : result value :=
  match dict_get (dict self) name with
  | Some v => Ok v
  | None => Raise (no_attribute name)
  end.

Definition stoichiometry (self : obj) : result value := attr self "_stoichiometry".
Definition rate_equations (self : obj) : result value := attr self "_rate_equations".

(** The [production_rates] property:
    [dict(zip(self._components.IDs, self._production_rates))]. *)
Definition production_rates (self : obj) : result (odict expr) :=
  rbind (attr self "_components") (fun c =>
  rbind (attr self "_production_rates") (fun r =>
    match c, r with
    | VComponents cmps, VMatrix entries =>
        Ok (dict_of_pairs (zip (Components.IDs cmps) entries))
    | VComponents _, _ => Raise (TypeError "zip argument #2 must support iteration")
    | _, _ => Raise (AttributeError
                       ("'" +:+ type_name c +:+ "' object has no attribute 'IDs'"))
    end)).

Definition not_subscriptable (v : value) : exn :=
  TypeError ("'" +:+ type_name v +:+ "' object is not subscriptable").

Definition _index (self : obj) : result (odict nat) :=
  rbind (attr self "_index") (fun v =>
    match v with
    | VIndex d => Ok d
    | _ => Raise (not_subscriptable v)
    end).

Definition index (self : obj) (ID : string) : result nat :=
  rbind (_index self) (fun d =>
    match dict_get d ID with
    | Some n => Ok n
    | None => Raise (UndefinedProcess ID)
    end).

Definition indices (self : obj) (IDs : list string) : result (list nat) :=
  rbind (_index self) (fun dct =>
    mapM (fun i => match dict_get dct i with
                   | Some n => Ok n
                   | None => Raise (UndefinedProcess i)
                   end) IDs).

(** [new.<name>()] on a plain [Processes] instance. *)
Definition call0 (name : string) : M obj unit :=
  fun new =>
    match Processes.getattr new name with
    | Raise e => (Raise e, new)
    | Ok (VMethod m) =>
        if String.eqb m "mycompile" then mycompile new
        else if String.eqb m "copy" then (Ok tt, new)
        else if String.eqb m "show" then (Ok tt, new)
        else if String.eqb m "_ipython_display_" then (Ok tt, new)
        else if String.eqb m "__len__" then (Ok tt, new)
        else if String.eqb m "__iter__" then (Ok tt, new)
        else if String.eqb m "__repr__" then (Ok tt, new)
        else (Raise (TypeError (m +:+ "() missing required positional argument")), new)
    | Ok v => (Raise (not_callable v), new)
    end.

Definition iterate (v : value) : result (list value) :=
  match v with
  | VList l => Ok l
  | VTuple ps => Ok (map VProcess ps)
  | _ => Raise (TypeError ("'" +:+ type_name v +:+ "' object is not iterable"))
  end.

Definition subgroup (self : obj) (IDs : key) : result obj :=
  rbind (Processes.__getitem__ self IDs) (fun processes =>
  rbind (iterate processes) (fun items =>
  rbind (Processes.__new__ items) (fun new =>
  match call0 "compile" new with
  | (Ok _, new) => Ok new
  | (Raise e, _) => Raise e
  end))).

Definition copy (self : obj) : result obj :=
  rbind (Processes.__new__ (Processes.__iter__ self)) (fun copy =>
  match call0 "mycompile" copy with
  | (Ok _, copy) => Ok copy
  | (Raise e, _) => Raise e
  end).

(** The three names that [read_only] rebinds on the class. *)
Definition append (process : value) : M obj unit := deny.
Definition extend (processes : iterable) : M obj unit := deny.
Definition __setitem__ (ID : string) (process : value) : M obj unit := deny.

End CompiledProcesses.

(** Method resolution: the class of the receiver selects the function. *)
Module Dispatch.
Import Processes.

Definition append (process : value) : M obj unit :=
  fun self =>
    match cls self with
    | cls_Processes => Processes.append process self
    | cls_CompiledProcesses => CompiledProcesses.append process self
    end.

Definition extend (processes : iterable) : M obj unit :=
  fun self =>
    match cls self with
    | cls_Processes => Processes.extend processes self
    | cls_CompiledProcesses => CompiledProcesses.extend processes self
    end.

(** [self[ID] = process] *)
Definition setitem (ID : string) (process : value) : M obj unit :=
  fun self =>
    match cls self with
    | cls_Processes => Processes.__setitem__ ID process self
    | cls_CompiledProcesses => CompiledProcesses.__setitem__ ID process self
    end.

End Dispatch.

(** ** PM2: setting parameter values *)

Module PM2.

Definition _shared_params : list string :=
  [ "Y_CH_PHO"; "Y_LI_PHO"; "Y_X_ALG_PHO";
    "Y_CH_NR_HET_ACE"; "Y_LI_NR_HET_ACE"; "Y_X_ALG_HET_ACE";
    "Y_CH_NR_HET_GLU"; "Y_LI_NR_HET_GLU"; "Y_X_ALG_HET_GLU" ].

Definition _stoichio_params : list string :=
  [ "Y_CH_ND_HET_ACE"; "Y_LI_ND_HET_ACE"; "Y_CH_ND_HET_GLU"; "Y_LI_ND_HET_GLU" ]
    ++ _shared_params.

Definition _kinetic_params : list string :=
  [ "a_c"; "I_n"; "arr_a"; "arr_e"; "beta_1"; "beta_2"; "b_reactor"; "I_opt";
    "k_gamma"; "K_N"; "K_P"; "K_A"; "K_F"; "rho"; "K_STO"; "f_CH_max";
    "f_LI_max"; "m_ATP"; "mu_max"; "q_CH"; "q_LI"; "Q_N_max"; "Q_N_min";
    "Q_P_max"; "Q_P_min"; "V_NH"; "V_NO"; "V_P"; "exponent";
    "Y_ATP_PHO"; "Y_ATP_HET_ACE"; "Y_ATP_HET_GLU" ] ++ _shared_params ++ [ "cmps" ].

Section Model.

(** [PM2] is written against members of [CompiledProcesses] that
    [_process.py] above does not define; they are parameters:
    - [lambdified]: what [_stoichio_lambdified] caches;
    - [rate_fn]: the state of the bound [rate_function], whose
      [set_param] method with the keyword arguments of the call is
      [set_param];
    - [stoichiometry_loc self i j]: [self.stoichiometry.loc[i, j]], the
      coefficient of component [j] in process [i] as the instance
      currently evaluates it. *)
Variables lambdified rate_fn : Type.

Record t := {
  _parameters : odict Qc;
  _stoichio_lambdified : option lambdified;
  rate_function : rate_fn
}.

Variable set_param : odict Qc -> M rate_fn unit.
Variable stoichiometry_loc : t -> string -> string -> Qc.

Definition Th_Q_N_min (self : t) : Qc :=
  (Qcabs (stoichiometry_loc self "growth_pho" "X_N_ALG") * Q2Qc (1001 # 1000))%Qc.

Definition Th_Q_P_min (self : t) : Qc :=
  (Qcabs (stoichiometry_loc self "growth_pho" "X_P_ALG") * Q2Qc (1001 # 1000))%Qc.

Definition below_minimum (name : string) : exn :=
  ValueError ("Value for " +:+ name +:+
              " must not be less than the theoretical minimum").

(** [if name in parameters.keys(): if parameters[name] < bound: raise] *)
Definition check_minimum (parameters : odict Qc) (name : string)
           (bound : t -> Qc) : M t unit :=
  fun self =>
    match dict_get parameters name with
    | Some x =>
        if Qclt_le_dec x (bound self) then (Raise (below_minimum name), self)
        else (Ok tt, self)
    | None => (Ok tt, self)
    end.

Definition stoichio_only (parameters : odict Qc) : odict Qc :=
  List.filter (fun kv : string * Qc => Components.mem (fst kv) _stoichio_params)
              parameters.

Definition set_parameters (parameters : odict Qc) : M t unit :=
  (modify (fun self =>
     {| _parameters := dict_update (_parameters self) (stoichio_only parameters);
        _stoichio_lambdified := _stoichio_lambdified self;
        rate_function := rate_function self |}) ;;;
   modify (fun self =>
     match _stoichio_lambdified self with
     | Some _ =>
         {| _parameters := _parameters self;
            _stoichio_lambdified := None;
            rate_function := rate_function self |}
     | None => self
     end) ;;;
   check_minimum parameters "Q_N_min" Th_Q_N_min ;;;
   check_minimum parameters "Q_P_min" Th_Q_P_min ;;;
   (fun self =>
      let '(r, rf) := set_param parameters (rate_function self) in
      (r, {| _parameters := _parameters self;
             _stoichio_lambdified := _stoichio_lambdified self;
             rate_function := rf |})))%py.

End Model.

Arguments _parameters {lambdified rate_fn} _.
Arguments _stoichio_lambdified {lambdified rate_fn} _.
Arguments rate_function {lambdified rate_fn} _.

End PM2.

(** * Notions used by the statements *)

Section Notions.
Import Processes CompiledProcesses.

(** The dictionary after [_compile], from the values it computed. *)
Definition compiled_dict (d : odict value) (processes : list Process.t)
           (M_stch : list (list expr)) (params : odict expr) (all_numeric : bool)
  : odict value :=
  let IDs := map Process._ID processes in
  let cmps := Components.new (flat_map Process._components processes) in
  let rate_eqs := map Process._rate_equation processes in
  let d := dict_set d "tuple" (VTuple processes) in
  let d := dict_set d "size" (VInt (length IDs)) in
  let d := dict_set d "IDs" (VStrs IDs) in
  let d := dict_set d "_index" (VIndex (dict_of_pairs (zip IDs (seq 0 (length IDs))))) in
  let d := dict_set d "_components" (VComponents cmps) in
  let d := dict_set d "_parameters" (VParams params) in
  let d := dict_set d "_stoichiometry" (VStoich all_numeric M_stch) in
  let d := dict_set d "_rate_equations" (VExprs rate_eqs) in
  dict_set d "_production_rates" (VMatrix (Matrix_mul (Matrix_T M_stch) rate_eqs)).

(** Whether a value is a [Process] object. *)
Definition is_Process (v : value) : bool :=
  match v with VProcess _ => true | _ => false end.

(** The entries [setfield(self, i.ID, i)] leaves for each process [i], on a
    dictionary. *)
Definition add_members (d : odict value) (ps : list Process.t) : odict value :=
  fold_left (fun d i => dict_set d (Process._ID i) (VProcess i)) ps d.

(** The net rate of the [k]-th component in a process: its coefficient
    times the rate, under an assignment of the symbols. *)
Definition net_rate (env : string -> Qc) (p : Process.t) (k : nat) : option Qc :=
  (fun c => (eval env c * eval env (Process._rate_equation p))%Qc)
    <$> (Process.coeffs (Process._stoichiometry p) !! k).

(** A matrix row aligned to the registry [cmps] for the process [p]: one
    entry per component, zero where the component is not one of [p]'s. *)
Definition aligned_row (cmps : Components.t) (p : Process.t) (row : list expr) : Prop :=
  length row = Components.size cmps /\
  forall j c, Components.IDs cmps !! j = Some c ->
              c ∉ Components.IDs (Process._components p) ->
              row !! j = Some (ENum (Q2Qc 0)).

(** The dictionary entries of a list of processes, in order. *)
Definition entries (ps : list Process.t) : odict value :=
  map (fun q => (Process._ID q, VProcess q)) ps.

(** The process-wide states that calls of the constructor can produce. *)
Inductive reachable : world -> Prop :=
| reachable_start : reachable empty_world
| reachable_call (w : world) (processes : list Process.t) :
    reachable w -> reachable (snd (CompiledProcesses.__new__ processes w)).

(** Cached instances were allocated, and no instance is cached under two
    tuples. *)
Definition cache_ok (w : world) : Prop :=
  (forall k a, cache w !! k = Some a -> a < next w) /\
  (forall k1 k2 a, cache w !! k1 = Some a -> cache w !! k2 = Some a -> k1 = k2).

End Notions.


(** * Concrete instances *)

Module Example.
Import Components Process Processes.

Definition cmp (ID : string) : Component :=
  {| cmp_ID := ID; cmp_factors := [("i_COD", Q2Qc 1)] |}.

Definition A : Component := cmp "A".
Definition B : Component := cmp "B".
Definition C : Component := cmp "C".

(** [p1] over the components A, B and [p2] over B, C. *)
Definition p1 : Process.t :=
  {| addr := 1; _ID := "p1";
     _stoichiometry := NdArray [Q2Qc (-1); Q2Qc 1];
     _components := [A; B]; _ref_component := "B";
     _conserved_for := ["COD"]; _parameters := [];
     _rate_equation := EMul (ESym "k1") (ESym "A") |}.

Definition p2 : Process.t :=
  {| addr := 2; _ID := "p2";
     _stoichiometry := PyList [ENeg (ESym "Y"); ENum (Q2Qc 1)];
     _components := [B; C]; _ref_component := "C";
     _conserved_for := ["COD"]; _parameters := [("Y", ESym "Y")];
     _rate_equation := EMul (ESym "k2") (ESym "B") |}.

(** A process [2 A -> 4 B] at rate [r], normalized on neither component. *)
Definition q : Process.t :=
  {| addr := 3; _ID := "q";
     _stoichiometry := NdArray [Q2Qc 2; Q2Qc (-4)];
     _components := [A; B]; _ref_component := "";
     _conserved_for := []; _parameters := [];
     _rate_equation := ESym "r" |}.

(** [Processes([p1, p2])] and the instance [mycompile] turns it into. *)
Definition members : obj :=
  {| cls := cls_Processes; dict := [("p1", VProcess p1); ("p2", VProcess p2)] |}.

Definition compiled : obj := snd (CompiledProcesses.mycompile members).

(** Another collection, holding a second process with the ID p2 and [q]. *)
Definition p2_bis : Process.t :=
  {| addr := 4; _ID := "p2";
     _stoichiometry := NdArray [Q2Qc 1; Q2Qc (-1)];
     _components := [B; C]; _ref_component := "B";
     _conserved_for := ["COD"]; _parameters := [];
     _rate_equation := ESym "k3" |}.

Definition other : obj :=
  {| cls := cls_Processes; dict := [("p2", VProcess p2_bis); ("q", VProcess q)] |}.

(** Processes over A, B whose IDs are names that the classes use: the
    method [_compile] and the property [stoichiometry] of
    [CompiledProcesses], the method [append], and [__class__]. *)
Definition named (a : nat) (ID : string) : Process.t :=
  {| addr := a; _ID := ID;
     _stoichiometry := NdArray [Q2Qc (-1); Q2Qc 1];
     _components := [A; B]; _ref_component := "B";
     _conserved_for := ["COD"]; _parameters := [];
     _rate_equation := ESym "k" |}.

Definition p_method : Process.t := named 5 "_compile".
Definition p_property : Process.t := named 6 "stoichiometry".
Definition p_append : Process.t := named 7 "append".
Definition p_class : Process.t := named 8 "__class__".

(** A PM2 instance with one stoichiometric and one kinetic value, a rate
    function that keeps its parameters in a dictionary, and a growth_pho
    row whose coefficients have absolute value 0.08. *)
Definition set_param (parameters : odict Qc) : M (odict Qc) unit :=
  modify (fun _params => dict_update _params parameters).

Definition stoichiometry_loc (self : PM2.t unit (odict Qc)) (i j : string) : Qc :=
  Q2Qc (-8 # 100).

Definition pm2 : PM2.t unit (odict Qc) :=
  {| PM2._parameters := [("Y_CH_PHO", Q2Qc (754 # 1000))];
     PM2._stoichio_lambdified := None;
     PM2.rate_function := [("Q_N_min", Q2Qc (82 # 1000))] |}.

End Example.

(** * Further members of the modules *)

(** ** Membership test of a compiled collection *)

Module Membership.
Import Processes CompiledProcesses.

(** What is tested with [in]: a string, a [Process], or anything else. *)
Inductive candidate :=
| CStr (s : string)
| CProcess (p : Process.t)
| COther.

(** [Process] defines no [__eq__]: two processes are equal when they are
    the same object. *)
Definition same_object (p q : Process.t) : bool :=
  Nat.eqb (Process.addr p) (Process.addr q).

Definition value_is (p : Process.t) (v : value) : bool :=
  match v with
  | VProcess q => same_object p q
  | _ => false
  end.

(** [process in t] for the value [t] of the attribute [tuple]: a search in a
    container, a TypeError on a value that is not one. *)
Definition in_value (p : Process.t) (t : value) : result bool :=
  match t with
  | VTuple ps => Ok (existsb (same_object p) ps)
  | VList l => Ok (existsb (value_is p) l)
  | VStrs _ | VExprs _ | VIndex _ | VParams _
  | VComponents _ | VStoich _ _ | VMatrix _ => Ok false
  | VStr _ =>
      Raise (TypeError "'in <string>' requires string as left operand, not Process")
  | VNone | VInt _ | VProcess _ | VMethod _ =>
      Raise (TypeError ("argument of type '" +:+ type_name t +:+ "' is not iterable"))
  end.

(** [CompiledProcesses.__contains__] *)
Definition __contains__ (self : obj) (process : candidate) : result bool :=
  match process with
  | CStr s => Ok (dict_contains (dict self) s)
  | CProcess p => rbind (attr self "tuple") (in_value p)
  | COther => Ok false
  end.

End Membership.

(** ** Printing a collection *)

Module Display.
Import Processes CompiledProcesses.

(** [Processes.__repr__], inherited by [CompiledProcesses]: the class name
    and the keys of [__dict__]. *)
Definition __repr__ (self : obj) : string :=
  class_name (cls self) +:+ "([" +:+ String.concat ", " (dict_keys (dict self)) +:+ "])".

End Display.

(** ** PM2: ratios and the irradiance response *)

Module Kinetics.

(** The builtins [max(a, b)] and [min(a, b)]: the first argument stays
    unless the second is strictly greater (smaller). *)
Definition pymax (a b : Qc) : Qc := if Qclt_le_dec a b then b else a.
Definition pymin (a b : Qc) : Qc := if Qclt_le_dec b a then b else a.

Definition ratio (numerator denominator minimum maximum : Qc) : Qc :=
  pymin (pymax minimum (numerator / denominator)%Qc) maximum.

Definition irrad_response (i_avg X_CHL X_carbon I_n I_opt : Qc) : Qc :=
  if Qclt_le_dec (Q2Qc 0) X_carbon then
    let f_I :=
      (i_avg / (i_avg + I_n * (Q2Qc (1 # 4) - (Q2Qc 5 * X_CHL / X_carbon))
                        * ((i_avg ^ 2 / I_opt ^ 2) - (Q2Qc 2 * i_avg / I_opt) + Q2Qc 1)))%Qc in
    pymin (Q2Qc 1) (pymax (Q2Qc 0) f_I)
  else Q2Qc 0.

End Kinetics.

(** * Further notions used by the statements *)

Section MoreNotions.
Import Processes CompiledProcesses.

(** The names under which [_compile] stores what it computes. *)
Definition compiled_fields : list string :=
  [ "tuple"; "size"; "IDs"; "_index"; "_components"; "_parameters";
    "_stoichiometry"; "_rate_equations"; "_production_rates" ].

(** The last process of a list that has the given ID. *)
Definition last_with_ID (ID : string) (ps : list Process.t) : option Process.t :=
  List.find (fun p => String.eqb (Process._ID p) ID) (rev ps).

(** A series of constructor calls, one per tuple. *)
Definition run_calls (calls : list (list Process.t)) (w : world) : world :=
  fold_left (fun w processes => snd (CompiledProcesses.__new__ processes w)) calls w.

(** What the constructor does to a new instance on a cache miss: the members
    are set, then [self._compile()] runs. *)
Definition fresh_instance (processes : list Process.t) : result unit * obj :=
  bind (set_members (map VProcess processes)) (fun _ => self__compile)
       {| cls := cls_CompiledProcesses; dict := [] |}.

(** The tuples the [CompiledProcesses] constructor can take: no member has
    an ID that names a data descriptor of the class, or that is _compile,
    the method the constructor calls on the new instance. *)
Definition constructible (processes : list Process.t) : Prop :=
  Forall (fun p => Process._ID p ∉ "_compile" :: data_descriptors cls_CompiledProcesses)
         processes.

(** Every cached instance is in the heap, and is what filling and
    compiling gave for a tuple of the objects it is cached under. *)
Definition heap_ok (w : world) : Prop :=
  forall k a, cache w !! k = Some a ->
    exists ps0 o, map Process.addr ps0 = k /\ heap w !! a = Some o /\
                  fresh_instance ps0 = (Ok tt, o).

(** Whether a stoichiometry is a numeric array. *)
Definition is_numeric (p : Process.t) : bool :=
  negb (is_list (Process._stoichiometry p)).

(** The entry of a matrix row for the component [ID] of a process: its
    coefficient in the sparse view, zero when the view has none. *)
Definition entry_for (p : Process.t) (ID : string) : expr :=
  match dict_get (Process.stoichiometry p) ID with
  | Some c => c
  | None => ENum (Q2Qc 0)
  end.

End MoreNotions.
(** * Properties *)

(** ** Ordered dictionaries *)

Section DictFacts.
Context {V : Type}.
Implicit Types (d : odict V) (k : string) (v : V).

Lemma dict_get_set_eq d k v : dict_get (dict_set d k v) k = Some v.
Proof.
  induction d as [|[k' v'] d IH]; simpl.
  - by rewrite String.eqb_refl.
  - destruct (String.eqb k' k) eqn:E; simpl; rewrite E; auto.
Qed.

Lemma dict_get_set_ne d k k' v :
  k <> k' -> dict_get (dict_set d k v) k' = dict_get d k'.
Proof.
  intros Hne. induction d as [|[k0 v0] d IH]; simpl.
  - destruct (String.eqb_spec k k'); congruence.
  - destruct (String.eqb_spec k0 k) as [->|]; simpl.
    + destruct (String.eqb_spec k k'); congruence.
    + destruct (String.eqb_spec k0 k'); auto.
Qed.

Lemma dict_get_None_keys d k : dict_get d k = None <-> k ∉ dict_keys d.
Proof.
  induction d as [|[k' v'] d IH]; simpl.
  - split; [intros _; apply not_elem_of_nil | done].
  - rewrite not_elem_of_cons. destruct (String.eqb_spec k' k) as [->|Hne].
    + split; [done | intros [? _]; done].
    + rewrite IH. split; [intros; split; congruence | tauto].
Qed.

Lemma dict_get_Some_elem d k v : dict_get d k = Some v -> (k, v) ∈ d.
Proof.
  induction d as [|[k' v'] d IH]; simpl; [done|].
  destruct (String.eqb_spec k' k) as [->|Hne].
  - intros [= ->]. apply list_elem_of_here.
  - intros H. apply list_elem_of_further; auto.
Qed.

(** Setting a fresh key appends. *)
Lemma dict_set_fresh d k v :
  dict_get d k = None -> dict_set d k v = d ++ [(k, v)].
Proof.
  induction d as [|[k' v'] d IH]; simpl; [done|].
  destruct (String.eqb k' k); [done|]. intros H. by rewrite IH.
Qed.

Lemma dict_values_set_elem d k v x :
  x ∈ dict_values (dict_set d k v) -> x = v \/ x ∈ dict_values d.
Proof.
  induction d as [|[k' v'] d IH]; simpl.
  - rewrite list_elem_of_singleton. auto.
  - destruct (String.eqb k' k); simpl; rewrite !elem_of_cons; intuition.
Qed.

Lemma dict_get_values d k v : dict_get d k = Some v -> v ∈ dict_values d.
Proof.
  intros H. apply dict_get_Some_elem in H.
  unfold dict_values. apply list_elem_of_fmap. by exists (k, v).
Qed.

(** [d.update(d2)] when the keys of [d2] are distinct: the entries of [d2]
    win, the others are kept. *)
Lemma dict_get_update d d2 k :
  NoDup (dict_keys d2) ->
  dict_get (dict_update d d2) k =
    match dict_get d2 k with Some v => Some v | None => dict_get d k end.
Proof.
  unfold dict_update. revert d.
  induction d2 as [|[k2 v2] d2 IH]; intros d Hnd; simpl; [done|].
  inversion Hnd as [|? ? Hnotin Hnd']; subst.
  rewrite IH by done.
  destruct (String.eqb_spec k2 k) as [->|Hne].
  - apply dict_get_None_keys in Hnotin. rewrite Hnotin.
    apply dict_get_set_eq.
  - destruct (dict_get d2 k); [done|]. by apply dict_get_set_ne.
Qed.

End DictFacts.

Section DictAppend.

Lemma dict_get_app {V} (d1 d2 : odict V) k :
  dict_get (d1 ++ d2) k =
    match dict_get d1 k with Some v => Some v | None => dict_get d2 k end.
Proof.
  induction d1 as [|[k' v'] d1 IH]; simpl; [done|].
  by destruct (String.eqb k' k).
Qed.

Lemma dict_update_fresh {V} (d l : odict V) :
  NoDup (map fst l) ->
  (forall k, k ∈ map fst l -> dict_get d k = None) ->
  dict_update d l = d ++ l.
Proof.
  unfold dict_update. revert d. induction l as [|[k v] l IH]; intros d Hnd Hfresh.
  - simpl. by rewrite app_nil_r.
  - simpl in *. inversion Hnd as [|? ? Hk Hnd']; subst.
    rewrite dict_set_fresh by (apply Hfresh; apply list_elem_of_here).
    rewrite IH; [by rewrite <- app_assoc | done |].
    intros k' Hk'. rewrite dict_get_app.
    rewrite Hfresh by (by apply list_elem_of_further). simpl.
    destruct (String.eqb_spec k k') as [->|]; [done|done].
Qed.

End DictAppend.

(** ** Membership in a list of names *)

Section Names.
Import Components.

Lemma mem_spec ID ids : mem ID ids = true <-> ID ∈ ids.
Proof.
  induction ids as [|i ids IH]; simpl.
  - split; [done | intros H; by apply elem_of_nil in H].
  - rewrite elem_of_cons. destruct (String.eqb_spec i ID) as [->|Hne].
    + tauto.
    + rewrite IH. split; [auto | intros [E|H]; [congruence | done]].
Qed.

Lemma mem_false ID ids : mem ID ids = false <-> ID ∉ ids.
Proof.
  rewrite <- mem_spec. destruct (mem ID ids); split; try done.
  all: intros H; try done; by destruct H.
Qed.

End Names.

(** ** The state a successful [_compile] leaves *)

Section CompileFacts.
Import Processes CompiledProcesses.

Lemma _compile_Ok_inv (o o' : obj) :
  _compile o = (Ok tt, o') ->
  exists processes M_stch params all_numeric,
    mapM as_Process (dict_values (dict o)) = Ok processes /\
    compile_rows (Components.new (flat_map Process._components processes))
                 processes [] [] true = Ok (M_stch, params, all_numeric) /\
    o' = with_dict (compiled_dict (dict o) processes M_stch params all_numeric) o.
Proof.
  unfold _compile, bind, get, lift, dct_set, modify. simpl.
  destruct (mapM as_Process (dict_values (dict o))) as [ps|e]; [|done].
  simpl.
  destruct (compile_rows _ ps [] [] true) as [[[M_stch params] num]|e] eqn:Hrows;
    simpl; [|done].
  intros [= <-]. exists ps, M_stch, params, num. done.
Qed.

Lemma _compile_Ok_intro (o : obj) processes M_stch params all_numeric :
  mapM as_Process (dict_values (dict o)) = Ok processes ->
  compile_rows (Components.new (flat_map Process._components processes))
               processes [] [] true = Ok (M_stch, params, all_numeric) ->
  _compile o = (Ok tt, with_dict (compiled_dict (dict o) processes M_stch params all_numeric) o).
Proof.
  intros H1 H2. unfold _compile, bind, get, lift, dct_set, modify. simpl.
  rewrite H1. simpl. rewrite H2. done.
Qed.

Lemma compiled_dict_tuple d ps M_stch params num :
  dict_get (compiled_dict d ps M_stch params num) "tuple" = Some (VTuple ps).
Proof.
  unfold compiled_dict.
  rewrite !dict_get_set_ne by done. apply dict_get_set_eq.
Qed.

Lemma compiled_dict_index d ps M_stch params num :
  dict_get (compiled_dict d ps M_stch params num) "_index"
  = Some (VIndex (dict_of_pairs (zip (map Process._ID ps)
                                     (seq 0 (length (map Process._ID ps)))))).
Proof.
  unfold compiled_dict.
  rewrite !dict_get_set_ne by done. apply dict_get_set_eq.
Qed.

End CompileFacts.

(** ** Building a collection from an iterable *)

Section Members.
Import Processes CompiledProcesses.

Lemma setattr_Ok (k : string) (p : Process.t) (o : obj) :
  k ∉ data_descriptors (cls o) ->
  setattr k p o = (Ok tt, with_dict (dict_set (dict o) k (VProcess p)) o).
Proof. intros H. apply mem_false in H. unfold setattr. by rewrite H. Qed.

Lemma setattr_Raise (k : string) (p : Process.t) (o : obj) :
  k ∈ data_descriptors (cls o) -> setattr k p o = (Raise (descriptor_error k), o).
Proof. intros H. apply mem_spec in H. unfold setattr. by rewrite H. Qed.

Lemma set_members_cons_Process (p : Process.t) (l : list value) (o : obj) :
  Process._ID p ∉ data_descriptors (cls o) ->
  set_members (VProcess p :: l) o
  = set_members l (with_dict (dict_set (dict o) (Process._ID p) (VProcess p)) o).
Proof.
  intros H. unfold set_members. cbn [forM_]. unfold bind at 1. unfold bind at 1.
  unfold lift, setfield. simpl as_Process. cbv beta iota. by rewrite setattr_Ok.
Qed.

Lemma set_members_cons_refused (p : Process.t) (l : list value) (o : obj) :
  Process._ID p ∈ data_descriptors (cls o) ->
  set_members (VProcess p :: l) o = (Raise (descriptor_error (Process._ID p)), o).
Proof.
  intros H. unfold set_members. cbn [forM_]. unfold bind at 1. unfold bind at 1.
  unfold lift, setfield. simpl as_Process. cbv beta iota. by rewrite setattr_Raise.
Qed.

Lemma set_members_cons_other v l o :
  is_Process v = false -> set_members (v :: l) o = (Raise (no_ID v), o).
Proof. destruct v; simpl; done. Qed.

(** A value that is not a [Process] stops the loop, at [i.ID] or before. *)
Lemma set_members_stops (l : list value) (o : obj) :
  (exists v, v ∈ l /\ is_Process v = false) ->
  exists e o', set_members l o = (Raise e, o').
Proof.
  revert o. induction l as [|x l IH]; intros o [v [Hin Hv]].
  - by apply elem_of_nil in Hin.
  - destruct (is_Process x) eqn:Hx.
    + destruct x; try discriminate.
      destruct (decide (Process._ID p ∈ data_descriptors (cls o))) as [Hp|Hp].
      * rewrite set_members_cons_refused by done. eauto.
      * rewrite set_members_cons_Process by done.
        apply IH. exists v. split; [|done].
        apply elem_of_cons in Hin as [->|]; [discriminate|done].
    + rewrite set_members_cons_other by done. eauto.
Qed.

(** When the processes have IDs that can be stored, the first value that
    is not a [Process] stops the loop at [i.ID]. *)
Lemma set_members_raises (l : list value) (o : obj) :
  (forall p, VProcess p ∈ l -> Process._ID p ∉ data_descriptors (cls o)) ->
  (exists v, v ∈ l /\ is_Process v = false) ->
  exists v o', is_Process v = false /\ set_members l o = (Raise (no_ID v), o').
Proof.
  revert o. induction l as [|x l IH]; intros o Hgood [v [Hin Hv]].
  - by apply elem_of_nil in Hin.
  - destruct (is_Process x) eqn:Hx.
    + destruct x; try discriminate.
      rewrite set_members_cons_Process by (apply Hgood; apply list_elem_of_here).
      apply IH.
      * intros q Hq. apply Hgood. by apply list_elem_of_further.
      * exists v. split; [|done].
        apply elem_of_cons in Hin as [->|]; [discriminate|done].
    + exists x, o. split; [done|]. by apply set_members_cons_other.
Qed.

Lemma set_members_processes (ps : list Process.t) (o : obj) :
  Forall (fun p => Process._ID p ∉ data_descriptors (cls o)) ps ->
  set_members (map VProcess ps) o = (Ok tt, with_dict (add_members (dict o) ps) o).
Proof.
  revert o. induction ps as [|p ps IH]; intros o Hgood; simpl map.
  - by destruct o.
  - inversion Hgood as [|? ? Hp Hps]; subst.
    rewrite set_members_cons_Process by done. rewrite IH; done.
Qed.

(** A process whose ID names a data descriptor stops the loop. *)
Lemma set_members_refused (ps : list Process.t) (o : obj) :
  (exists p, p ∈ ps /\ Process._ID p ∈ data_descriptors (cls o)) ->
  exists p o', p ∈ ps /\ Process._ID p ∈ data_descriptors (cls o) /\
               set_members (map VProcess ps) o
               = (Raise (descriptor_error (Process._ID p)), o').
Proof.
  revert o. induction ps as [|q ps IH]; intros o (p & Hin & Hp).
  - by apply elem_of_nil in Hin.
  - simpl map.
    destruct (decide (Process._ID q ∈ data_descriptors (cls o))) as [Hq|Hq].
    + exists q, o. split; [apply list_elem_of_here|]. split; [done|].
      by apply set_members_cons_refused.
    + rewrite set_members_cons_Process by done.
      destruct (IH (with_dict (dict_set (dict o) (Process._ID q) (VProcess q)) o))
        as (p' & o' & Hin' & Hp' & Hrun).
      * exists p. split; [|done].
        apply elem_of_cons in Hin as [->|]; [done|done].
      * exists p', o'. split; [by apply list_elem_of_further|]. done.
Qed.

(** The loop leaves the class of the instance as it is. *)
Lemma set_members_cls (l : list value) (o : obj) r (o' : obj) : set_members l o = (r, o') -> cls o' = cls o.
Proof.
  revert o. induction l as [|x l IH]; intros o.
  - simpl. by intros [= _ <-].
  - destruct (is_Process x) eqn:Hx.
    + destruct x; try discriminate.
      destruct (decide (Process._ID p ∈ data_descriptors (cls o))) as [Hp|Hp].
      * rewrite set_members_cons_refused by done. by intros [= _ <-].
      * rewrite set_members_cons_Process by done. intros H. by apply IH in H.
    + rewrite set_members_cons_other by done. by intros [= _ <-].
Qed.

Lemma dict_set_values_Forall (P : value -> Prop) (d : odict value) k v :
  Forall P (dict_values d) -> P v -> Forall P (dict_values (dict_set d k v)).
Proof.
  intros Hd Hv. apply Forall_forall. intros x Hx.
  apply dict_values_set_elem in Hx as [->|Hx]; [done|].
  rewrite Forall_forall in Hd. auto.
Qed.

(** A collection built by the loop holds [Process] objects only. *)
Lemma set_members_values l o o' :
  set_members l o = (Ok tt, o') ->
  Forall (fun v => is_Process v = true) (dict_values (dict o)) ->
  Forall (fun v => is_Process v = true) (dict_values (dict o')).
Proof.
  revert o. induction l as [|x l IH]; intros o.
  - simpl. by intros [= <-].
  - destruct (is_Process x) eqn:Hx.
    + destruct x; try discriminate.
      destruct (decide (Process._ID p ∈ data_descriptors (cls o))) as [Hp|Hp].
      * by rewrite set_members_cons_refused.
      * rewrite set_members_cons_Process by done.
        intros Hrun Hall. apply (IH _ Hrun). simpl.
        by apply dict_set_values_Forall.
    + by rewrite set_members_cons_other.
Qed.

Lemma __new___values l new :
  Processes.__new__ l = Ok new ->
  Forall (fun v => is_Process v = true) (dict_values (dict new)).
Proof.
  unfold Processes.__new__.
  destruct (set_members l _) as [[[]|e] o'] eqn:Hrun; [|done].
  intros [= <-]. apply (set_members_values _ _ _ Hrun). constructor.
Qed.

End Members.

(** ** Conservation check *)

(** C3.  Defect in the numeric branch.  On a process whose stoichiometry
    is a numeric array, [check_conservation] stops in
    [get_conversion_factors] at the read of [self._conservation_for], an
    attribute no [Process] has ([__init__] assigns [_conserved_for]): the
    call raises this AttributeError whatever the coefficients, the
    conversion factors and the tolerance are, so it neither returns on a
    conserved vector nor reports the unconserved quantities.  On a symbolic
    stoichiometry it raises the error about numerical coefficients. *)
Theorem check_conservation_outcomes (p : Process.t) (tol : Qc) :
  (forall v : list Qc,
      Process.check_conservation
        (Process.with_stoichiometry (Process.NdArray v) p) tol
      = Raise (AttributeError
                 "'Process' object has no attribute '_conservation_for'")) /\
  (forall v : list expr,
      Process.check_conservation
        (Process.with_stoichiometry (Process.PyList v) p) tol
      = Raise (RuntimeError
                 "Can only check conservations with numerical stoichiometric coefficients.")).
Proof. split; intros v; reflexivity. Qed.

(** ** Frozen collections *)

Section Frozen.
Import Processes CompiledProcesses.

(** C4.  On an instance of class [CompiledProcesses], [append], [extend]
    and item assignment raise the read-only TypeError and leave the
    instance, hence its members, matrix, index and parameters, as it
    was. *)
Theorem compiled_is_read_only (self : obj) (process : value)
        (processes : iterable) (ID : string) :
  cls self = cls_CompiledProcesses ->
  let read_only := Raise (TypeError "'CompiledProcesses' object is read-only.") in
  Dispatch.append process self = (read_only, self) /\
  Dispatch.extend processes self = (read_only, self) /\
  Dispatch.setitem ID process self = (read_only, self).
Proof.
  intros Hcls. unfold Dispatch.append, Dispatch.extend, Dispatch.setitem.
  rewrite Hcls. unfold CompiledProcesses.append, CompiledProcesses.extend,
    CompiledProcesses.__setitem__, deny. rewrite Hcls. simpl. done.
Qed.

End Frozen.

(** ** Subgroups and copies *)

Section Subgroup.
Import Processes CompiledProcesses.

Lemma call0_compile_raises new :
  Forall (fun v => is_Process v = true) (dict_values (dict new)) ->
  exists e, call0 "compile" new = (Raise e, new).
Proof.
  intros Hall. unfold call0, Processes.getattr.
  destruct (dict_get (dict new) "compile") as [v|] eqn:Hget.
  - apply dict_get_values in Hget. rewrite Forall_forall in Hall.
    specialize (Hall _ Hget). destruct v; try discriminate. eauto.
  - simpl. eauto.
Qed.

(** C7.  Defect: neither [subgroup] returns a collection.
    [Processes.subgroup] passes the list of members to [Process] - not
    [Processes] - as its only argument, and the call fails for want of
    [reaction] and [ref_component] (or earlier, on an unknown ID).
    [CompiledProcesses.subgroup] builds the restricted [Processes] and then
    calls its [compile], a method that class does not have (it is
    [mycompile]).  Both raise for every receiver and every selection of
    IDs; on the members of the collection p1, p2 they raise the TypeError
    of the constructor and the AttributeError of the missing method. *)
Theorem subgroup_always_raises
        (init_body : value -> value -> value -> list value -> result Process.t)
        (self : obj) (IDs : list string) (k : key) :
  (exists e, Processes.subgroup init_body self IDs = Raise e) /\
  (exists e, CompiledProcesses.subgroup self k = Raise e) /\
  Processes.subgroup init_body Example.members ["p1"]
  = Raise (TypeError "__init__() missing 2 required positional arguments: 'reaction' and 'ref_component'") /\
  CompiledProcesses.subgroup Example.compiled (KList ["p1"])
  = Raise (AttributeError "'Processes' object has no attribute 'compile'").
Proof.
  split; [|split; [|split]].
  - unfold Processes.subgroup.
    destruct (mapM (Processes.getattr self) IDs) as [members|e]; simpl; eauto.
  - unfold CompiledProcesses.subgroup.
    destruct (__getitem__ self k) as [v|e] eqn:Hget; simpl; [|eauto].
    destruct (iterate v) as [items|e]; simpl; [|eauto].
    destruct (Processes.__new__ items) as [new|e] eqn:Hnew; simpl; [|eauto].
    apply __new___values in Hnew.
    destruct (call0_compile_raises new Hnew) as [e ->]. eauto.
  - reflexivity.
  - vm_compute. reflexivity.
Qed.

(** C8.  Defect: [copy] does not return.  It hands the compiled
    instance to [Processes(...)], which iterates over every value of its
    [__dict__]; after [_compile] these include the entry [tuple] (and
    [size], [IDs], ...), which has no [ID].  So on every instance that
    [_compile] has completed, [copy] raises instead of compiling a second
    instance, and what it raises is the AttributeError of such an entry
    whenever the members have IDs that [Processes(...)] can store (a
    member named like a data descriptor of the class, which the
    constructors and [append] never let in, would stop the loop before). *)
Theorem copy_of_compiled_raises (o self : obj) :
  _compile o = (Ok tt, self) ->
  (exists e, CompiledProcesses.copy self = Raise e) /\
  ((forall p, VProcess p ∈ dict_values (dict o) ->
              Process._ID p ∉ data_descriptors cls_Processes) ->
   exists v, is_Process v = false /\
             CompiledProcesses.copy self = Raise (no_ID v)).
Proof.
  intros Hc. apply _compile_Ok_inv in Hc as (ps & M_stch & params & num & _ & _ & ->).
  unfold CompiledProcesses.copy, Processes.__new__, Processes.__iter__.
  assert (Htuple : exists v, v ∈ dict_values (compiled_dict (dict o) ps M_stch params num)
                             /\ is_Process v = false).
  { exists (VTuple ps). split; [|done].
    apply (dict_get_values _ "tuple"). apply compiled_dict_tuple. }
  split.
  - destruct (set_members_stops _ {| cls := cls_Processes; dict := [] |} Htuple)
      as (e & o' & Hrun).
    exists e. simpl. rewrite Hrun. done.
  - intros Hgood.
    destruct (set_members_raises
                (dict_values (compiled_dict (dict o) ps M_stch params num))
                {| cls := cls_Processes; dict := [] |}) as (v & o' & Hv & Hrun).
    + intros p Hp. apply Hgood. unfold compiled_dict in Hp.
      repeat (apply dict_values_set_elem in Hp as [Hp|Hp]; [discriminate|]).
      exact Hp.
    + exact Htuple.
    + exists v. split; [done|]. simpl. rewrite Hrun. done.
Qed.

End Subgroup.

(** ** Extending a collection *)

Section Extend.
Import Processes.

Lemma forM__app {S A} (body : A -> M S unit) (l1 l2 : list A) (s : S) :
  forM_ body (l1 ++ l2) s =
    match forM_ body l1 s with
    | (Ok _, s') => forM_ body l2 s'
    | (Raise e, s') => (Raise e, s')
    end.
Proof.
  revert s. induction l1 as [|x l1 IH]; intros s; simpl; [done|].
  unfold bind. destruct (body x s) as [[[]|e] s']; [apply IH | done].
Qed.

Lemma append_fresh (p : Process.t) (self : obj) :
  Process._ID p ∉ data_descriptors (cls self) ->
  dict_get (dict self) (Process._ID p) = None ->
  append (VProcess p) self
  = (Ok tt, with_dict (dict self ++ [(Process._ID p, VProcess p)]) self).
Proof.
  intros Hp H. unfold append, bind, get, dict_contains.
  rewrite H, setattr_Ok by done. by rewrite dict_set_fresh.
Qed.

Lemma append_bound (p : Process.t) (self : obj) :
  dict_get (dict self) (Process._ID p) <> None ->
  append (VProcess p) self
  = (Raise (ValueError (Process._ID p +:+ " already defined in processes")), self).
Proof.
  intros H. unfold append, bind, get, dict_contains.
  destruct (dict_get (dict self) (Process._ID p)); done.
Qed.

(** On a plain collection without a member named append, [self.append]
    is the method of the class. *)
Lemma self_append_method (v : value) (self : obj) :
  cls self = cls_Processes ->
  dict_get (dict self) "append" = None ->
  self_append v self = append v self.
Proof. intros Hcls Hget. unfold self_append. by rewrite Hget, Hcls. Qed.

Lemma dict_get_entries_None (ps : list Process.t) ID :
  ID ∉ map Process._ID ps -> dict_get (entries ps) ID = None.
Proof.
  intros Hin. apply dict_get_None_keys.
  unfold dict_keys, entries. rewrite map_map. simpl. done.
Qed.

(** Appending processes whose IDs are new and pairwise distinct. *)
Lemma append_all_fresh (ps : list Process.t) (self : obj) :
  cls self = cls_Processes ->
  dict_get (dict self) "append" = None ->
  "append" ∉ map Process._ID ps ->
  Forall (fun q => Process._ID q ∉ data_descriptors cls_Processes) ps ->
  NoDup (map Process._ID ps) ->
  (forall q, q ∈ ps -> dict_get (dict self) (Process._ID q) = None) ->
  forM_ self_append (map VProcess ps) self
  = (Ok tt, with_dict (dict self ++ entries ps) self).
Proof.
  revert self. induction ps as [|p ps IH]; intros self Hcls Happ Hno Hgood Hnd Hfresh.
  - simpl. rewrite app_nil_r. by destruct self.
  - simpl map. inversion Hnd as [|? ? Hp Hnd']; subst.
    inversion Hgood as [|? ? Hgp Hgood']; subst.
    simpl in Hno. apply not_elem_of_cons in Hno as [Hne Hno].
    cbn [forM_]. unfold bind.
    rewrite self_append_method by done.
    rewrite append_fresh; [| by rewrite Hcls | apply Hfresh; apply list_elem_of_here].
    rewrite IH; [| done | | done | done | done |].
    + simpl. unfold with_dict. simpl. by rewrite <- app_assoc.
    + simpl. rewrite dict_get_app, Happ. simpl.
      destruct (String.eqb_spec (Process._ID p) "append") as [E|]; [|done].
      by rewrite E in Hne.
    + intros q Hq. simpl. rewrite dict_get_app.
      rewrite (Hfresh q) by (by apply list_elem_of_further).
      simpl. destruct (String.eqb_spec (Process._ID p) (Process._ID q)) as [E|]; [|done].
      exfalso. apply Hp. rewrite E. apply list_elem_of_fmap. by exists q.
Qed.

Lemma dict_get_entries_Some (ps : list Process.t) ID :
  ID ∈ map Process._ID ps -> dict_get (entries ps) ID <> None.
Proof.
  intros Hin Hnone. apply dict_get_None_keys in Hnone. apply Hnone.
  unfold dict_keys, entries. rewrite map_map. simpl. done.
Qed.

(** C10.  [extend] with a [Processes] instance is a dictionary update: it
    succeeds whatever the IDs are, an ID of the argument takes the
    argument's entry (replacing the receiver's, if any) and the other
    entries stay.  [extend] with an iterable of [Process] objects calls
    [self.append] on them one by one.  On a plain [Processes] in which
    that name is the method - no member, old or new, has the ID append -
    and for IDs that attribute assignment can store, processes with new,
    pairwise distinct IDs are all added, and the first process whose ID is
    already bound - in the receiver or by an earlier element - is rejected
    with the ValueError of [append], after the elements before it have been
    added. *)
Theorem extend_duplicate_IDs (self other : obj) (ps rest : list Process.t)
        (p : Process.t) :
  NoDup (dict_keys (dict other)) ->
  NoDup (map Process._ID ps) ->
  (forall q, q ∈ ps -> dict_get (dict self) (Process._ID q) = None) ->
  (dict_get (dict self) (Process._ID p) <> None \/
   Process._ID p ∈ map Process._ID ps) ->
  (exists self',
      extend (Instance other) self = (Ok tt, self') /\
      (forall ID v, dict_get (dict other) ID = Some v ->
                    dict_get (dict self') ID = Some v) /\
      (forall ID, dict_get (dict other) ID = None ->
                  dict_get (dict self') ID = dict_get (dict self) ID)) /\
  (cls self = cls_Processes ->
   ("append" ∉ dict_keys (dict self) ++ map Process._ID ps) ->
   Forall (fun q => Process._ID q ∉ data_descriptors cls_Processes) ps ->
   extend (Iterable (map VProcess ps)) self
   = (Ok tt, with_dict (dict self ++ entries ps) self) /\
   extend (Iterable (map VProcess (ps ++ p :: rest))) self
   = (Raise (ValueError (Process._ID p +:+ " already defined in processes")),
      with_dict (dict self ++ entries ps) self)).
Proof.
  intros Hother Hnd Hfresh Hdup. split.
  - eexists. split; [reflexivity|]. simpl. split.
    + intros ID v Hv. by rewrite dict_get_update, Hv.
    + intros ID Hv. by rewrite dict_get_update, Hv.
  - intros Hcls Hno Hgood.
    apply not_elem_of_app in Hno as [Hself Hps].
    apply dict_get_None_keys in Hself.
    assert (Hall : forM_ self_append (map VProcess ps) self
                   = (Ok tt, with_dict (dict self ++ entries ps) self))
      by (by apply append_all_fresh).
    split; [exact Hall|].
    simpl. rewrite map_app, forM__app, Hall.
    simpl map. cbn [forM_]. unfold bind.
    rewrite self_append_method.
    + rewrite append_bound; [done|].
      simpl. rewrite dict_get_app.
      destruct (dict_get (dict self) (Process._ID p)) eqn:Hp; [done|].
      destruct Hdup as [Hdup|Hdup]; [done|].
      by apply dict_get_entries_Some.
    + done.
    + simpl. rewrite dict_get_app, Hself. by apply dict_get_entries_None.
Qed.

End Extend.

(** ** PM2.set_parameters *)

Section PM2Facts.
Import PM2.
Context {lambdified rate_fn : Type}.
Variable set_param : odict Qc -> M rate_fn unit.
Variable stoichiometry_loc : PM2.t lambdified rate_fn -> string -> string -> Qc.

(** C9 (amended).  When the call gives a [Q_N_min] (or [Q_P_min]) below
    the theoretical minimum, [set_parameters] raises the ValueError before
    the rate function sees any value of the call: its parameters, the
    quotas among them, stay as they were.  The stoichiometric parameters of
    the same call are already stored in [_parameters], and the lambdified
    stoichiometry dropped, when the error is raised; the minimum is the
    one the instance gives after that update. *)
Theorem set_parameters_rejects_low_quota (self : PM2.t lambdified rate_fn)
        (parameters : odict Qc) :
  let self1 :=
    {| _parameters := dict_update (_parameters self) (stoichio_only parameters);
       _stoichio_lambdified := None;
       rate_function := rate_function self |} in
  (exists x, dict_get parameters "Q_N_min" = Some x /\
             (x < Th_Q_N_min _ _ stoichiometry_loc self1)%Qc) \/
  (exists x, dict_get parameters "Q_P_min" = Some x /\
             (x < Th_Q_P_min _ _ stoichiometry_loc self1)%Qc) ->
  exists name,
    set_parameters _ _ set_param stoichiometry_loc parameters self
    = (Raise (below_minimum name), self1) /\
    (name = "Q_N_min" \/ name = "Q_P_min") /\
    rate_function self1 = rate_function self.
Proof.
  intros self1 Hlow.
  unfold set_parameters, bind, modify. simpl.
  set (s1 := match _stoichio_lambdified self with Some _ => _ | None => _ end).
  assert (Hs1 : s1 = self1) by (subst s1 self1; destruct (_stoichio_lambdified self); done).
  rewrite Hs1. clear s1 Hs1.
  unfold check_minimum.
  destruct (dict_get parameters "Q_N_min") as [x|] eqn:HN.
  - destruct (Qclt_le_dec x (Th_Q_N_min _ _ stoichiometry_loc self1)) as [Hlt|Hge].
    + exists "Q_N_min". auto.
    + destruct Hlow as [(y & [= <-] & Hy)|(y & HP & Hy)].
      * exfalso. by apply (Qclt_not_le _ _ Hy).
      * rewrite HP.
        destruct (Qclt_le_dec y (Th_Q_P_min _ _ stoichiometry_loc self1)) as [|Hge'].
        -- exists "Q_P_min". auto.
        -- exfalso. by apply (Qclt_not_le _ _ Hy).
  - destruct Hlow as [(y & [=] & _)|(y & HP & Hy)].
    rewrite HP.
    destruct (Qclt_le_dec y (Th_Q_P_min _ _ stoichiometry_loc self1)) as [|Hge'].
    + exists "Q_P_min". auto.
    + exfalso. by apply (Qclt_not_le _ _ Hy).
Qed.

End PM2Facts.

(** C9 (as first stated) fails on the other parameters of the call: a call
    that gives a new yield together with a quota below the minimum raises,
    and the new yield is in [_parameters] afterwards. *)
Lemma set_parameters_keeps_stoichio_update :
  exists e self',
    PM2.set_parameters _ _ Example.set_param Example.stoichiometry_loc
      [("Y_CH_PHO", Q2Qc (1 # 2)); ("Q_N_min", Q2Qc 0)] Example.pm2
    = (Raise e, self') /\
    dict_get (PM2._parameters Example.pm2) "Y_CH_PHO" = Some (Q2Qc (754 # 1000)) /\
    dict_get (PM2._parameters self') "Y_CH_PHO" = Some (Q2Qc (1 # 2)) /\
    PM2._parameters self' <> PM2._parameters Example.pm2.
Proof.
  eexists. eexists. split; [vm_compute; reflexivity|].
  split; [reflexivity|]. split; [reflexivity|].
  intros H.
  apply (f_equal (fun d => Qcanon.this <$> dict_get d "Y_CH_PHO")) in H.
  vm_compute in H. discriminate.
Qed.

Lemma set_parameters_rejects_low_quota_witness :
  let parameters := [("Y_CH_PHO", Q2Qc (1 # 2)); ("Q_N_min", Q2Qc 0)] in
  let self1 :=
    {| PM2._parameters := [("Y_CH_PHO", Q2Qc (1 # 2))];
       PM2._stoichio_lambdified := None;
       PM2.rate_function := PM2.rate_function Example.pm2 |} in
  (((exists x, dict_get parameters "Q_N_min" = Some x /\
               (x < PM2.Th_Q_N_min _ _ Example.stoichiometry_loc self1)%Qc) \/
    (exists x, dict_get parameters "Q_P_min" = Some x /\
               (x < PM2.Th_Q_P_min _ _ Example.stoichiometry_loc self1)%Qc)) /\
  exists name,
    PM2.set_parameters _ _ Example.set_param Example.stoichiometry_loc
      parameters Example.pm2
    = (Raise (PM2.below_minimum name), self1) /\
    (name = "Q_N_min" \/ name = "Q_P_min") /\
    PM2.rate_function self1 = PM2.rate_function Example.pm2).
Proof.
  intros parameters self1.
  assert (Hlow : (exists x, dict_get parameters "Q_N_min" = Some x /\
                    (x < PM2.Th_Q_N_min _ _ Example.stoichiometry_loc self1)%Qc) \/
                 (exists x, dict_get parameters "Q_P_min" = Some x /\
                    (x < PM2.Th_Q_P_min _ _ Example.stoichiometry_loc self1)%Qc)).
  { left. exists (Q2Qc 0). split; [reflexivity|]. vm_compute. reflexivity. }
  split; [exact Hlow|].
  exact (set_parameters_rejects_low_quota Example.set_param
           Example.stoichiometry_loc Example.pm2 parameters Hlow).
Defined.

(** ** Changing the reference component *)

Section RefComponent.
Import Process.

Lemma Qcopp_nonzero (c : Qc) : c <> Q2Qc 0 -> (- c)%Qc <> Q2Qc 0.
Proof.
  intros Hc H. apply Hc. rewrite <- (Qcopp_involutive c), H.
  apply Qc_is_canon. reflexivity.
Qed.

Lemma Qcdiv_abs_unit (c : Qc) :
  c <> Q2Qc 0 -> Qcabs (c / Qcabs c) = Q2Qc 1.
Proof.
  intros Hc. apply (Qcabs_case c (fun a => Qcabs (c / a) = Q2Qc 1)); intros _.
  - replace (c / c)%Qc with (Q2Qc 1) by (field; exact Hc).
    apply Qc_is_canon. reflexivity.
  - replace (c / - c)%Qc with (- Q2Qc 1)%Qc by (field; by apply Qcopp_nonzero).
    apply Qc_is_canon. reflexivity.
Qed.

Lemma Qcdiv_abs_net (c x r : Qc) :
  c <> Q2Qc 0 -> (x / Qcabs c * (r * (c / Qcabs c)) = x * r / c)%Qc.
Proof.
  intros Hc. apply (Qcabs_case c (fun a => (x / a * (r * (c / a)) = x * r / c)%Qc));
    intros _; field; repeat split; auto using Qcopp_nonzero.
Qed.

(** What the setter does to a numeric process whose coefficient [c] at the
    new reference is not zero: every coefficient is divided by [|c|], the
    reference coefficient becomes [c / |c|], of absolute value 1, and the
    rate is multiplied by that normalized coefficient.  Each net rate is
    therefore the former one divided by [c]. *)
Lemma set_ref_component_numeric (p : Process.t) (ref_cmp : string)
      (v : list Qc) (j : nat) (c : Qc) :
  ref_cmp <> "" ->
  _stoichiometry p = NdArray v ->
  Components.index (_components p) ref_cmp = Ok j ->
  v !! j = Some c ->
  c <> Q2Qc 0 ->
  exists p',
    set_ref_component ref_cmp p = (Ok tt, p') /\
    _ref_component p' = ref_cmp /\
    _stoichiometry p' = NdArray (map (fun x => (x / Qcabs c)%Qc) v) /\
    _rate_equation p' = EMul (_rate_equation p) (ENum (c / Qcabs c)) /\
    Qcabs (c / Qcabs c) = Q2Qc 1 /\
    (forall env k x, v !! k = Some x ->
       net_rate env p' k = Some (x * eval env (_rate_equation p) / c)%Qc) /\
    (forall env k x, v !! k = Some x ->
       net_rate env p k = Some (x * eval env (_rate_equation p))%Qc).
Proof.
  intros Hne Hv Hj Hc Hc0. eexists. split.
  - unfold set_ref_component. apply String.eqb_neq in Hne. rewrite Hne.
    unfold bind, modify, _normalize_stoichiometry, _normalize_rate_eq, bind, get, lift.
    simpl. rewrite Hj, Hv, Hc. simpl. rewrite Hj. simpl.
    rewrite !list_lookup_fmap, Hc. simpl. reflexivity.
  - simpl. split; [done|]. split; [done|]. split; [done|].
    split; [by apply Qcdiv_abs_unit|]. split.
    + intros env k x Hk. unfold net_rate. simpl.
      rewrite !list_lookup_fmap, Hk. simpl. f_equal. by apply Qcdiv_abs_net.
    + intros env k x Hk. unfold net_rate. rewrite Hv. simpl.
      rewrite list_lookup_fmap, Hk. done.
Qed.

(** C6.  Defect in the rescaling of the rate.  Take [2 A -> 4 B] at rate
    [r] and make A the reference.  The coefficients are divided by 2,
    giving [A: 1, B: -2], so the reference has absolute value 1.  The
    rate, however, is multiplied by the coefficient read after that
    division, which is 1: it stays [r], and the net rate of A falls from
    [2 r] to [r] instead of being preserved. *)
Theorem ref_component_setter_loses_net_rate :
  exists p',
    set_ref_component "A" Example.q = (Ok tt, p') /\
    _stoichiometry p' = NdArray [Q2Qc 1; Q2Qc (-2)] /\
    (forall env, eval env (_rate_equation p') = env "r") /\
    (forall env, net_rate env Example.q 0 = Some (Q2Qc 2 * env "r")%Qc) /\
    (forall env, net_rate env p' 0 = Some (env "r")) /\
    net_rate (fun _ => Q2Qc 1) p' 0 <> net_rate (fun _ => Q2Qc 1) Example.q 0.
Proof.
  destruct (set_ref_component_numeric Example.q "A"
              [Q2Qc 2; Q2Qc (-4)] 0 (Q2Qc 2))
    as (p' & Hrun & _ & Hst & Hrate & _ & Hnet' & Hnet); try done.
  exists p'. split; [done|]. split.
  - rewrite Hst. simpl. repeat f_equal; apply Qc_is_canon; reflexivity.
  - assert (Hone : (Q2Qc 2 / Qcabs (Q2Qc 2))%Qc = Q2Qc 1)
      by (apply Qc_is_canon; reflexivity).
    split.
    { intros env. rewrite Hrate, Hone. simpl. ring. }
    split.
    { intros env. by rewrite (Hnet env 0 (Q2Qc 2)). }
    split.
    { intros env. rewrite (Hnet' env 0 (Q2Qc 2)) by done. simpl. f_equal. field. done. }
    rewrite (Hnet' _ 0 (Q2Qc 2)), (Hnet _ 0 (Q2Qc 2)) by done. simpl.
    intros H. apply (f_equal (fmap Qcanon.this)) in H. vm_compute in H. discriminate.
Qed.

End RefComponent.

(** ** The merged registry *)

Section Registry.
Import Components.

Lemma find_index_lookup ids ID j :
  find_index ids ID = Some j -> ids !! j = Some ID.
Proof.
  revert j. induction ids as [|i ids IH]; intros j; simpl; [done|].
  destruct (String.eqb_spec i ID) as [->|Hne].
  - by intros [= <-].
  - destruct (find_index ids ID) as [j'|]; simpl; [|done].
    intros [= <-]. simpl. by apply IH.
Qed.

Lemma find_index_elem ids ID :
  ID ∈ ids -> exists j, find_index ids ID = Some j.
Proof.
  induction ids as [|i ids IH]; simpl.
  - intros H. by apply elem_of_nil in H.
  - intros H. destruct (String.eqb_spec i ID) as [->|Hne]; [eauto|].
    apply elem_of_cons in H as [E|H]; [congruence|].
    destruct (IH H) as [j ->]. simpl. eauto.
Qed.

Lemma find_index_None ids ID : ID ∉ ids -> find_index ids ID = None.
Proof.
  intros H. destruct (find_index ids ID) as [j|] eqn:E; [|done].
  apply find_index_lookup in E. exfalso. apply H.
  by apply list_elem_of_lookup_2 in E.
Qed.

Lemma dedup_IDs_elem seen l ID :
  ID ∈ IDs (dedup seen l) <-> ID ∈ map cmp_ID l /\ ID ∉ seen.
Proof.
  unfold IDs. revert seen. induction l as [|c l IH]; intros seen; simpl.
  - split; [intros H; by apply elem_of_nil in H | intros [H _]; by apply elem_of_nil in H].
  - destruct (mem (cmp_ID c) seen) eqn:Hm.
    + apply mem_spec in Hm. rewrite IH, elem_of_cons.
      split; [tauto|]. intros [[->|H] Hs]; [done | tauto].
    + apply mem_false in Hm. simpl. rewrite !elem_of_cons, IH, elem_of_cons.
      split.
      * intros [->|[H Hs]]; [tauto|]. split; [tauto|]. tauto.
      * intros [[->|H] Hs]; [tauto|].
        destruct (decide (ID = cmp_ID c)); [tauto|]. right. tauto.
Qed.

Lemma dedup_IDs_NoDup seen l : NoDup (IDs (dedup seen l)).
Proof.
  unfold IDs. revert seen. induction l as [|c l IH]; intros seen; simpl.
  - constructor.
  - destruct (mem (cmp_ID c) seen); [apply IH|].
    simpl. constructor; [|apply IH].
    intros H. apply (dedup_IDs_elem (cmp_ID c :: seen) l) in H as [_ H].
    apply H. apply list_elem_of_here.
Qed.

(** The merged registry holds each listed ID once. *)
Lemma new_IDs_elem l ID : ID ∈ IDs (new l) <-> ID ∈ map cmp_ID l.
Proof.
  unfold new. rewrite dedup_IDs_elem. split; [tauto|].
  intros H. split; [done|]. apply not_elem_of_nil.
Qed.

Lemma new_IDs_NoDup l : NoDup (IDs (new l)).
Proof. apply dedup_IDs_NoDup. Qed.

Lemma index_elem cmps ID : ID ∈ IDs cmps -> exists j, index cmps ID = Ok j.
Proof.
  intros H. unfold index. destruct (find_index_elem _ _ H) as [j ->]. eauto.
Qed.

Lemma index_lookup cmps ID j : index cmps ID = Ok j -> IDs cmps !! j = Some ID.
Proof.
  unfold index. destruct (find_index (IDs cmps) ID) as [j'|] eqn:E; [|done].
  intros [= <-]. by apply find_index_lookup.
Qed.

End Registry.

(** ** The rows of the stoichiometry matrix *)

Section Rows.
Import Processes CompiledProcesses.

Lemma dict_keys_set_elem {V} (d : odict V) k v k' :
  k' ∈ dict_keys (dict_set d k v) -> k' = k \/ k' ∈ dict_keys d.
Proof.
  induction d as [|[k0 v0] d IH]; simpl.
  - rewrite list_elem_of_singleton. auto.
  - destruct (String.eqb k0 k); simpl; rewrite !elem_of_cons; intuition.
Qed.

Lemma dict_keys_update_elem {V} (d l : odict V) k :
  k ∈ dict_keys (dict_update d l) -> k ∈ dict_keys d \/ k ∈ map fst l.
Proof.
  unfold dict_update. revert d. induction l as [|[k0 v0] l IH]; intros d; simpl.
  - auto.
  - intros H. apply IH in H as [H|H].
    + apply dict_keys_set_elem in H as [->|H]; [|auto].
      right. apply list_elem_of_here.
    + right. by apply list_elem_of_further.
Qed.

(** The sparse view only names components of the process. *)
Lemma stoichiometry_keys (p : Process.t) kv :
  kv ∈ Process.stoichiometry p ->
  fst kv ∈ Components.IDs (Process._components p).
Proof.
  unfold Process.stoichiometry. intros H.
  apply list_elem_of_In, filter_In in H as [H _]. apply list_elem_of_In in H.
  assert (Hk : fst kv ∈ dict_keys
            (dict_of_pairs (zip (Components.IDs (Process._components p))
                                (Process.coeffs (Process._stoichiometry p))))).
  { unfold dict_keys. apply list_elem_of_fmap. by exists kv. }
  apply dict_keys_update_elem in Hk as [Hk|Hk].
  - by apply elem_of_nil in Hk.
  - apply list_elem_of_fmap in Hk as [[a b] [-> Hab]]. simpl.
    by apply elem_of_zip_l in Hab.
Qed.

Lemma fill_row_ok cmps items stch :
  (forall kv, kv ∈ items -> fst kv ∈ Components.IDs cmps) ->
  exists row,
    fill_row cmps items stch = Ok row /\
    length row = length stch /\
    forall j c, Components.IDs cmps !! j = Some c ->
                c ∉ map fst items -> row !! j = stch !! j.
Proof.
  revert stch. induction items as [|[k coeff] items IH]; intros stch Hin.
  - exists stch. simpl. auto.
  - destruct (index_elem cmps k) as [j0 Hj0].
    { apply (Hin (k, coeff)). apply list_elem_of_here. }
    destruct (IH (<[j0 := coeff]> stch)) as (row & Hrow & Hlen & Hother).
    { intros kv Hkv. apply Hin. by apply list_elem_of_further. }
    exists row. simpl. rewrite Hj0. simpl. split; [done|].
    split; [by rewrite Hlen, length_insert|].
    intros j c Hj Hc. simpl in Hc. apply not_elem_of_cons in Hc as [Hck Hc].
    rewrite (Hother j c Hj Hc). apply list_lookup_insert_ne.
    intros ->. apply index_lookup in Hj0. congruence.
Qed.

Lemma compile_rows_ok cmps ps M0 P0 n0 :
  (forall p, p ∈ ps ->
     forall ID, ID ∈ Components.IDs (Process._components p) ->
                ID ∈ Components.IDs cmps) ->
  exists rows params num,
    compile_rows cmps ps M0 P0 n0 = Ok (M0 ++ rows, params, num) /\
    Forall2 (aligned_row cmps) ps rows.
Proof.
  revert M0 P0 n0. induction ps as [|p ps IH]; intros M0 P0 n0 Hsub.
  - exists [], P0, n0. simpl. rewrite app_nil_r. split; [done|constructor].
  - destruct (fill_row_ok cmps (Process.stoichiometry p)
                (replicate (Components.size cmps) (ENum (Q2Qc 0))))
      as (row & Hrow & Hlen & Hother).
    { intros kv Hkv. apply (Hsub p); [apply list_elem_of_here|].
      by apply stoichiometry_keys. }
    simpl. rewrite Hrow. simpl.
    edestruct (IH (M0 ++ [row])) as (rows & params & num & Hrows & Hall).
    { intros q Hq. apply Hsub. by apply list_elem_of_further. }
    rewrite Hrows. exists (row :: rows), params, num.
    split; [by rewrite <- app_assoc|].
    constructor; [|done]. split.
    + by rewrite Hlen, length_replicate.
    + intros j c Hj Hc. rewrite (Hother j c Hj).
      * apply lookup_replicate_2. apply lookup_lt_Some in Hj.
        unfold Components.IDs in Hj. by rewrite length_map in Hj.
      * intros Hin. apply Hc. apply list_elem_of_fmap in Hin as [kv [-> Hkv]].
        by apply stoichiometry_keys.
Qed.

Lemma mapM_as_Process_entries ps :
  mapM as_Process (dict_values (entries ps)) = Ok ps.
Proof.
  induction ps as [|p ps IH]; [done|].
  change (dict_values (entries (p :: ps)))
    with (VProcess p :: dict_values (entries ps)).
  cbn [mapM as_Process rbind]. by rewrite IH.
Qed.

Lemma components_in_merged ps p ID :
  p ∈ ps -> ID ∈ Components.IDs (Process._components p) ->
  ID ∈ Components.IDs (Components.new (flat_map Process._components ps)).
Proof.
  intros Hp HID. apply new_IDs_elem.
  unfold Components.IDs in HID. apply list_elem_of_fmap in HID as [c [-> Hc]].
  apply list_elem_of_fmap. exists c. split; [done|].
  apply list_elem_of_In, in_flat_map. exists p. by rewrite <- !list_elem_of_In.
Qed.

(** [_compile] completes on a collection of processes. *)
Lemma _compile_entries (o : obj) (ps : list Process.t) :
  dict o = entries ps ->
  exists M_stch params num,
    _compile o = (Ok tt, with_dict (compiled_dict (dict o) ps M_stch params num) o) /\
    Forall2 (aligned_row (Components.new (flat_map Process._components ps))) ps M_stch.
Proof.
  intros Hd.
  destruct (compile_rows_ok (Components.new (flat_map Process._components ps))
              ps [] [] true) as (rows & params & num & Hrows & Hall).
  { intros p Hp ID HID. by apply (components_in_merged ps p). }
  exists rows, params, num. split; [|done].
  apply _compile_Ok_intro; [|done]. rewrite Hd. apply mapM_as_Process_entries.
Qed.

End Rows.

(** ** Matrix product *)

Section Matrix.
Import Processes CompiledProcesses.

Lemma Matrix_mul_lookup (m : list (list expr)) (v : list expr) (j : nat) :
  Matrix_mul m v !! j = (fun r => row_times r v) <$> (m !! j).
Proof. unfold Matrix_mul. apply list_lookup_fmap. Qed.

Lemma Matrix_T_lookup (m : list (list expr)) (r0 : list expr) (j : nat) :
  j < length r0 ->
  Matrix_T (r0 :: m) !! j = Some (map (fun r => nth j r (ENum (Q2Qc 0))) (r0 :: m)).
Proof.
  intros Hj. unfold Matrix_T. rewrite list_lookup_fmap.
  rewrite lookup_seq_lt by done. reflexivity.
Qed.

Lemma Matrix_T_length (m : list (list expr)) :
  length (Matrix_T m) = match m with [] => 0 | r :: _ => length r end.
Proof. unfold Matrix_T. by rewrite length_map, length_seq. Qed.

Lemma eval_row_times (env : string -> Qc) (r v : list expr) :
  eval env (row_times r v)
  = Process.sumQc (zip_with (fun a b => (eval env a * eval env b)%Qc) r v).
Proof.
  unfold row_times. revert v.
  induction r as [|a r IH]; intros [|b v]; simpl; rewrite ?IH; reflexivity.
Qed.

(** Entry [j] of [Matrix(M).T * Matrix(rates)] is the sum over the rows of
    [M[i][j] * rates[i]]. *)
Lemma production_entry (env : string -> Qc) (M_stch : list (list expr))
      (rates : list expr) (n j : nat) :
  M_stch <> [] ->
  Forall (fun row => length row = n) M_stch ->
  j < n ->
  eval env <$> (Matrix_mul (Matrix_T M_stch) rates !! j)
  = Some (Process.sumQc
            (zip_with (fun row r => (eval env (nth j row (ENum (Q2Qc 0))) * eval env r)%Qc)
                      M_stch rates)).
Proof.
  intros Hne Hall Hj. destruct M_stch as [|r0 m]; [done|].
  assert (Hr0 : length r0 = n) by (by inversion Hall).
  rewrite Matrix_mul_lookup, Matrix_T_lookup by (by rewrite Hr0).
  cbn [fmap option_fmap option_map]. f_equal. rewrite eval_row_times.
  apply (f_equal Process.sumQc).
  generalize (r0 :: m) as rows. clear. intros rows. revert rates.
  induction rows as [|row rows IH]; intros [|r rates]; simpl; rewrite ?IH; reflexivity.
Qed.

End Matrix.

(** ** Compilation *)

Section Compile.
Import Processes CompiledProcesses.

Ltac compiled_get :=
  unfold stoichiometry, attr; simpl; unfold compiled_dict;
  rewrite ?dict_get_set_ne by done; rewrite dict_get_set_eq.

Lemma Forall2_aligned_lengths cmps ps rows :
  Forall2 (aligned_row cmps) ps rows ->
  length rows = length ps /\
  Forall (fun row => length row = Components.size cmps) rows.
Proof.
  intros H. split; [symmetry; by eapply Forall2_length|].
  induction H as [|p row ps rows [Hlen _] _ IH]; constructor; done.
Qed.

Lemma add_members_two (p1 p2 : Process.t) :
  Process._ID p1 <> Process._ID p2 -> add_members [] [p1; p2] = entries [p1; p2].
Proof.
  intros Hne. unfold add_members. simpl.
  apply String.eqb_neq in Hne. by rewrite Hne.
Qed.

(** C1.  Compiling a collection of P processes completes and leaves a
    merged registry of C components, a stoichiometry matrix of P rows of C
    entries each, C production rates - the [j]-th being the sum over the
    processes of the [j]-th entry of their row times their rate - and P
    IDs, those of the processes in order.  For two processes over the
    components {A, B} and {B, C}, the registry is A, B, C and the matrix is
    2 by 3 with zero at (first process, C) and (second process, A). *)
Theorem compile_shapes (o : obj) (ps : list Process.t)
        (o12 : obj) (p1 p2 : Process.t) :
  dict o = entries ps ->
  dict o12 = add_members [] [p1; p2] ->
  Process._ID p1 <> Process._ID p2 ->
  Components.IDs (Process._components p1) = ["A"; "B"] ->
  Components.IDs (Process._components p2) = ["B"; "C"] ->
  (exists self cmps num M_stch prod,
      _compile o = (Ok tt, self) /\
      attr self "_components" = Ok (VComponents cmps) /\
      stoichiometry self = Ok (VStoich num M_stch) /\
      production_rates self = Ok (zip (Components.IDs cmps) prod) /\
      attr self "IDs" = Ok (VStrs (map Process._ID ps)) /\
      attr self "size" = Ok (VInt (length ps)) /\
      NoDup (Components.IDs cmps) /\
      (forall ID, ID ∈ Components.IDs cmps <->
                  exists p, p ∈ ps /\ ID ∈ Components.IDs (Process._components p)) /\
      length M_stch = length ps /\
      Forall (fun row => length row = Components.size cmps) M_stch /\
      Forall2 (aligned_row cmps) ps M_stch /\
      length prod = Components.size cmps /\
      length (zip (Components.IDs cmps) prod) = Components.size cmps /\
      length (map Process._ID ps) = length ps /\
      forall env j,
        j < Components.size cmps ->
        eval env <$> (prod !! j)
        = Some (Process.sumQc
                  (zip_with (fun row r =>
                               (eval env (nth j row (ENum (Q2Qc 0))) * eval env r)%Qc)
                            M_stch (map Process._rate_equation ps)))) /\
  (exists self cmps num a b c d,
      _compile o12 = (Ok tt, self) /\
      attr self "_components" = Ok (VComponents cmps) /\
      Components.IDs cmps = ["A"; "B"; "C"] /\
      stoichiometry self
      = Ok (VStoich num [[a; b; ENum (Q2Qc 0)]; [ENum (Q2Qc 0); c; d]])).
Proof.
  intros Hd Hd12 Hne HAB HBC. split.
  - destruct (_compile_entries o ps Hd) as (M_stch & params & num & Hrun & Hall).
    destruct (Forall2_aligned_lengths _ _ _ Hall) as [Hlen Hrows].
    assert (Hprod : length (Matrix_mul (Matrix_T M_stch) (map Process._rate_equation ps))
                    = Components.size
                        (Components.new (flat_map Process._components ps))).
    { unfold Matrix_mul. rewrite length_map, Matrix_T_length.
      destruct M_stch as [|row rows].
      - destruct ps; [reflexivity | discriminate Hlen].
      - by inversion Hrows. }
    eexists _, _, num, M_stch, _. split; [exact Hrun|].
    split; [by compiled_get|]. split; [by compiled_get|].
    split.
    { unfold production_rates. compiled_get. simpl. compiled_get. simpl.
      unfold dict_of_pairs. rewrite dict_update_fresh; [done| |done].
      rewrite fst_zip; [apply new_IDs_NoDup|].
      unfold Components.IDs. rewrite length_map. unfold Components.size in Hprod. lia. }
    split; [by compiled_get|]. split; [compiled_get; by rewrite length_map|].
    split; [apply new_IDs_NoDup|].
    split.
    { intros ID. rewrite new_IDs_elem. split.
      - intros H. apply list_elem_of_fmap in H as [c [-> Hc]].
        apply list_elem_of_In, in_flat_map in Hc as [p [Hp Hc]].
        exists p. rewrite <- !list_elem_of_In in *. split; [done|].
        apply list_elem_of_fmap. by exists c.
      - intros [p [Hp H]]. apply new_IDs_elem. by apply (components_in_merged ps p). }
    split; [done|]. split; [done|]. split; [done|].
    split; [done|].
    split.
    { rewrite length_zip_with. unfold Components.IDs. rewrite length_map.
      unfold Components.size in *. lia. }
    split; [by rewrite length_map|].
    intros env j Hj.
    apply (production_entry env M_stch _
             (Components.size (Components.new (flat_map Process._components ps))) j);
      [|done|done].
    intros ->. unfold Matrix_mul in Hprod.
    rewrite length_map, Matrix_T_length in Hprod. rewrite <- Hprod in Hj. lia.
  - rewrite (add_members_two p1 p2 Hne) in Hd12.
    destruct (_compile_entries o12 [p1; p2] Hd12) as (M_stch & params & num & Hrun & Hall).
    set (cmps := Components.new (flat_map Process._components [p1; p2])) in *.
    assert (HIDs : Components.IDs cmps = ["A"; "B"; "C"]).
    { subst cmps. unfold Components.IDs in *. simpl.
      destruct (Process._components p1) as [|[ia fa] [|[ib fb] [|? ?]]];
        try discriminate.
      destruct (Process._components p2) as [|[ib' fb'] [|[ic fc] [|? ?]]];
        try discriminate.
      simpl in HAB, HBC. injection HAB as -> ->. injection HBC as -> ->.
      reflexivity. }
    inversion Hall as [|? r1 ? rows1 [Hl1 Hz1] Hall1]; subst.
    inversion Hall1 as [|? r2 ? rows2 [Hl2 Hz2] Hall2]; subst.
    inversion Hall2; subst.
    assert (Hsize : Components.size cmps = 3).
    { unfold Components.size. apply (f_equal length) in HIDs.
      unfold Components.IDs in HIDs. by rewrite length_map in HIDs. }
    rewrite Hsize in Hl1, Hl2.
    destruct r1 as [|a [|b [|z1 [|? ?]]]]; try discriminate.
    destruct r2 as [|z2 [|c [|d [|? ?]]]]; try discriminate.
    specialize (Hz1 2 "C"). rewrite HIDs, HAB in Hz1.
    specialize (Hz2 0 "A"). rewrite HIDs, HBC in Hz2.
    assert (E1 : z1 = ENum (Q2Qc 0)).
    { assert (H : [a; b; z1] !! 2 = Some (ENum (Q2Qc 0))).
      { apply Hz1; [done|]. rewrite !not_elem_of_cons. repeat split; try done.
        apply not_elem_of_nil. }
      by injection H. }
    assert (E2 : z2 = ENum (Q2Qc 0)).
    { assert (H : [z2; c; d] !! 0 = Some (ENum (Q2Qc 0))).
      { apply Hz2; [done|]. rewrite !not_elem_of_cons. repeat split; try done.
        apply not_elem_of_nil. }
      by injection H. }
    subst z1 z2.
    exists (with_dict (compiled_dict (dict o12) [p1; p2] [[a; b; ENum (Q2Qc 0)];
                                     [ENum (Q2Qc 0); c; d]] params num) o12),
      cmps, num, a, b, c, d.
    split; [exact Hrun|]. split; [by compiled_get|]. split; [done|]. by compiled_get.
Qed.

End Compile.

(** ** Positions of processes *)

Section Index.
Import Processes CompiledProcesses.

Lemma dict_get_zip_seq (ids : list string) (s : nat) (ID : string) :
  dict_get (zip ids (seq s (length ids))) ID
  = (fun j => s + j) <$> Components.find_index ids ID.
Proof.
  revert s. induction ids as [|i ids IH]; intros s; simpl; [done|].
  destruct (String.eqb i ID).
  - simpl. f_equal. lia.
  - rewrite IH. destruct (Components.find_index ids ID); simpl; [|done].
    f_equal. lia.
Qed.

(** [dict(zip(IDs, range(size)))] sends each of the distinct IDs to its
    position. *)
Lemma index_dict_get (ids : list string) (ID : string) :
  NoDup ids ->
  dict_get (dict_of_pairs (zip ids (seq 0 (length ids)))) ID
  = Components.find_index ids ID.
Proof.
  intros Hnd. unfold dict_of_pairs. rewrite dict_update_fresh.
  - simpl. rewrite dict_get_zip_seq. by destruct (Components.find_index ids ID).
  - rewrite fst_zip; [done|]. by rewrite length_seq.
  - done.
Qed.

Lemma compiled_index (o self : obj) (ps : list Process.t) :
  dict o = entries ps ->
  NoDup (map Process._ID ps) ->
  _compile o = (Ok tt, self) ->
  exists d, _index self = Ok d /\
            forall ID, dict_get d ID = Components.find_index (map Process._ID ps) ID.
Proof.
  intros Hd Hnd Hrun.
  apply _compile_Ok_inv in Hrun as (ps' & M_stch & params & num & Hps & _ & ->).
  rewrite Hd, mapM_as_Process_entries in Hps. injection Hps as <-.
  eexists. split.
  - unfold _index, attr. simpl. rewrite compiled_dict_index. reflexivity.
  - intros ID. by apply index_dict_get.
Qed.

Lemma find_index_process (ps : list Process.t) ID j :
  Components.find_index (map Process._ID ps) ID = Some j ->
  exists p, ps !! j = Some p /\ Process._ID p = ID.
Proof.
  intros H. apply find_index_lookup in H.
  rewrite list_lookup_fmap in H.
  destruct (ps !! j) as [p|]; [|done]. injection H as H. eauto.
Qed.

(** C5.  On a compiled collection of processes with distinct IDs, [index]
    of an ID that no member has raises [UndefinedProcess] with that ID; of
    a member's ID it returns the position of that member in the compiled
    order.  [indices] returns the positions of a list of members' IDs and
    raises [UndefinedProcess] with the first ID of the list that no member
    has. *)
Theorem index_of_member_or_undefined (o self : obj) (ps : list Process.t)
        (known rest : list string) (missing : string) :
  dict o = entries ps ->
  NoDup (map Process._ID ps) ->
  _compile o = (Ok tt, self) ->
  Forall (fun ID => ID ∈ map Process._ID ps) known ->
  missing ∉ map Process._ID ps ->
  (forall ID, ID ∉ map Process._ID ps ->
              index self ID = Raise (UndefinedProcess ID)) /\
  (forall ID, ID ∈ map Process._ID ps ->
              exists j p, index self ID = Ok j /\
                          ps !! j = Some p /\ Process._ID p = ID) /\
  (exists js, indices self known = Ok js /\
              Forall2 (fun ID j => exists p, ps !! j = Some p /\ Process._ID p = ID)
                      known js) /\
  indices self (known ++ missing :: rest) = Raise (UndefinedProcess missing) /\
  (forall msg, UndefinedProcess missing <> KeyError msg).
Proof.
  intros Hd Hnd Hrun Hknown Hmissing.
  destruct (compiled_index o self ps Hd Hnd Hrun) as (d & Hidx & Hget).
  split; [|split; [|split; [|split]]].
  - intros ID HID. unfold index. rewrite Hidx. simpl.
    by rewrite Hget, find_index_None.
  - intros ID HID. unfold index. rewrite Hidx. simpl. rewrite Hget.
    destruct (find_index_elem _ _ HID) as [j Hj]. rewrite Hj.
    destruct (find_index_process _ _ _ Hj) as (p & Hp & Hp'). eauto.
  - unfold indices. rewrite Hidx. simpl.
    induction Hknown as [|ID known HID _ IH].
    + exists []. split; [done|constructor].
    + destruct IH as (js & Hjs & Hall).
      destruct (find_index_elem _ _ HID) as [j Hj].
      exists (j :: js). simpl. rewrite Hget, Hj, Hjs. simpl. split; [done|].
      constructor; [|done]. by apply find_index_process.
  - unfold indices. rewrite Hidx. simpl.
    induction Hknown as [|ID known HID _ IH]; simpl.
    + by rewrite Hget, find_index_None.
    + destruct (find_index_elem _ _ HID) as [j Hj]. rewrite Hget, Hj. simpl.
      by rewrite IH.
  - done.
Qed.

End Index.

(** ** The compilation cache *)

Section Cache.
Import Processes CompiledProcesses.

Lemma dict_set_entries (qs : list Process.t) (p : Process.t) :
  exists qs', dict_set (entries qs) (Process._ID p) (VProcess p) = entries qs'.
Proof.
  induction qs as [|q qs [qs' IH]]; simpl.
  - by exists [p].
  - destruct (String.eqb_spec (Process._ID q) (Process._ID p)) as [E|_].
    + exists (p :: qs). simpl. by rewrite E.
    + exists (q :: qs'). simpl. by rewrite IH.
Qed.

Lemma add_members_entries (qs ps : list Process.t) :
  exists qs', add_members (entries qs) ps = entries qs'.
Proof.
  unfold add_members. revert qs. induction ps as [|p ps IH]; intros qs; simpl.
  - by exists qs.
  - destruct (dict_set_entries qs p) as [qs' ->]. apply IH.
Qed.

Lemma add_members_keys (d : odict value) (ps : list Process.t) (k : string) :
  k ∈ dict_keys (add_members d ps) -> k ∈ dict_keys d \/ k ∈ map Process._ID ps.
Proof.
  unfold add_members. revert d. induction ps as [|p ps IH]; intros d; simpl; [auto|].
  intros H. apply IH in H as [H|H].
  - apply dict_keys_set_elem in H as [->|H].
    + right. apply list_elem_of_here.
    + by left.
  - right. by apply list_elem_of_further.
Qed.

Lemma constructible_compiled (ps : list Process.t) :
  constructible ps ->
  Forall (fun p => Process._ID p ∉ data_descriptors cls_CompiledProcesses) ps.
Proof.
  intros Hc. eapply Forall_impl; [exact Hc|].
  intros p Hp Hin. apply Hp. by apply list_elem_of_further.
Qed.

Lemma data_descriptors_plain (c : pyclass) (k : string) :
  k ∈ data_descriptors cls_Processes -> k ∈ data_descriptors c.
Proof.
  unfold data_descriptors. rewrite app_nil_r. intros H. apply elem_of_app. by left.
Qed.

Lemma constructible_plain (ps : list Process.t) :
  constructible ps ->
  Forall (fun p => Process._ID p ∉ data_descriptors cls_Processes) ps.
Proof.
  intros Hc. eapply Forall_impl; [exact Hc|].
  intros p Hp Hin. apply Hp. apply list_elem_of_further.
  by apply data_descriptors_plain.
Qed.

Lemma constructible_method (ps : list Process.t) :
  constructible ps -> dict_get (add_members [] ps) "_compile" = None.
Proof.
  intros Hc. apply dict_get_None_keys. intros Hin.
  apply add_members_keys in Hin as [Hin|Hin]; [by apply elem_of_nil in Hin|].
  apply list_elem_of_fmap in Hin as (p & Hp & Hin).
  unfold constructible in Hc. rewrite Forall_forall in Hc.
  apply (Hc p Hin). rewrite <- Hp. apply list_elem_of_here.
Qed.

(** With storable IDs, a new instance is filled and [self._compile()]
    is the method. *)
Lemma fresh_instance_compile (ps : list Process.t) :
  constructible ps ->
  fresh_instance ps
  = _compile (with_dict (add_members [] ps)
                        {| cls := cls_CompiledProcesses; dict := [] |}).
Proof.
  intros Hc. unfold fresh_instance, bind.
  rewrite set_members_processes by (by apply constructible_compiled).
  unfold self__compile. simpl. by rewrite constructible_method.
Qed.

(** Filling a new instance and compiling it completes. *)
Lemma init_Ok (ps : list Process.t) :
  constructible ps -> exists o, fresh_instance ps = (Ok tt, o).
Proof.
  intros Hc. rewrite fresh_instance_compile by done.
  destruct (add_members_entries [] ps) as [qs Hqs].
  destruct (_compile_entries
              (with_dict (add_members [] ps)
                         {| cls := cls_CompiledProcesses; dict := [] |}) qs)
    as (M_stch & params & num & Hrun & _); [done|].
  rewrite Hrun. eauto.
Qed.

(** The constructor, case by case: a cache hit, a new instance, or an
    exception while the new instance is filled and compiled. *)
Lemma __new___cases (ps : list Process.t) (w : world) :
  __new__ ps w =
    match cache w !! map Process.addr ps with
    | Some a => (Ok a, w)
    | None =>
        match fresh_instance ps with
        | (Ok _, o) =>
            (Ok (next w),
             {| next := S (next w); heap := <[next w := o]> (heap w);
                cache := <[map Process.addr ps := next w]> (cache w) |})
        | (Raise e, o) =>
            (Raise e,
             {| next := S (next w); heap := <[next w := o]> (heap w);
                cache := cache w |})
        end
    end.
Proof.
  unfold __new__, fresh_instance. unfold bind at 1. unfold get. simpl.
  destruct (cache w !! map Process.addr ps); [done|].
  destruct (bind _ _ _) as [[[]|e] o]; reflexivity.
Qed.

Lemma __new___hit (ps : list Process.t) (w : world) (a : nat) :
  cache w !! map Process.addr ps = Some a -> __new__ ps w = (Ok a, w).
Proof. intros H. by rewrite __new___cases, H. Qed.

Lemma __new___miss (ps : list Process.t) (w : world) :
  constructible ps ->
  cache w !! map Process.addr ps = None ->
  exists o,
    fresh_instance ps = (Ok tt, o) /\
    __new__ ps w
    = (Ok (next w),
       {| next := S (next w); heap := <[next w := o]> (heap w);
          cache := <[map Process.addr ps := next w]> (cache w) |}).
Proof.
  intros Hc H. destruct (init_Ok ps Hc) as [o Ho]. exists o. split; [done|].
  by rewrite __new___cases, H, Ho.
Qed.

Lemma __new___cache_ok (ps : list Process.t) (w : world) :
  cache_ok w -> cache_ok (snd (__new__ ps w)).
Proof.
  intros [Hlt Hinj]. rewrite __new___cases.
  destruct (cache w !! map Process.addr ps) as [a|] eqn:Hc; [done|].
  destruct (fresh_instance ps) as [[[]|e] o]; unfold cache_ok; simpl; split.
  - intros k a. rewrite lookup_insert. case_decide.
    + intros [= <-]. lia.
    + intros H'. apply Hlt in H'. lia.
  - intros k1 k2 a. rewrite !lookup_insert.
    repeat case_decide; subst; try done.
    + intros [= <-] H'. apply Hlt in H'. lia.
    + intros H' [= <-]. apply Hlt in H'. lia.
    + apply Hinj.
  - intros k a H'. apply Hlt in H'. lia.
  - apply Hinj.
Qed.

Lemma reachable_cache_ok (w : world) : reachable w -> cache_ok w.
Proof.
  induction 1 as [|w ps _ IH].
  - split; intros *; simpl; by rewrite lookup_empty.
  - by apply __new___cache_ok.
Qed.

(** A construction keeps the cached instances: their entries in the cache
    and what the heap holds for them. *)
Lemma __new___keeps (qs : list Process.t) (w : world) (k : list nat) (a : nat) :
  cache_ok w ->
  cache w !! k = Some a ->
  cache (snd (__new__ qs w)) !! k = Some a /\
  heap (snd (__new__ qs w)) !! a = heap w !! a.
Proof.
  intros [Hlt _] Hk. rewrite __new___cases.
  destruct (cache w !! map Process.addr qs) as [b|] eqn:Hc; [done|].
  destruct (fresh_instance qs) as [[[]|e] o]; simpl; split.
  - rewrite lookup_insert_ne; [done|]. intros E. congruence.
  - apply lookup_insert_ne. apply Hlt in Hk. lia.
  - done.
  - apply lookup_insert_ne. apply Hlt in Hk. lia.
Qed.

Lemma __new___heap_ok (qs : list Process.t) (w : world) :
  cache_ok w -> heap_ok w -> heap_ok (snd (__new__ qs w)).
Proof.
  intros [Hlt _] Hheap k a. rewrite __new___cases.
  destruct (cache w !! map Process.addr qs) as [b|] eqn:Hc; [apply Hheap|].
  destruct (fresh_instance qs) as [[[]|e] o] eqn:Hf; simpl.
  - rewrite lookup_insert. case_decide as E.
    + intros [= <-]. exists qs, o. split; [done|]. split; [|done].
      apply lookup_insert_eq.
    + intros Hk. destruct (Hheap k a Hk) as (ps0 & o0 & H1 & H2 & H3).
      exists ps0, o0. split; [done|]. split; [|done].
      rewrite lookup_insert_ne; [done|]. apply Hlt in Hk. lia.
  - intros Hk. destruct (Hheap k a Hk) as (ps0 & o0 & H1 & H2 & H3).
    exists ps0, o0. split; [done|]. split; [|done].
    rewrite lookup_insert_ne; [done|]. apply Hlt in Hk. lia.
Qed.

Lemma reachable_heap_ok (w : world) : reachable w -> heap_ok w.
Proof.
  induction 1 as [|w qs Hw IH].
  - intros k a. simpl. by rewrite lookup_empty.
  - apply __new___heap_ok; [by apply reachable_cache_ok | done].
Qed.

Lemma fresh_instance_cls (ps : list Process.t) (o : obj) :
  fresh_instance ps = (Ok tt, o) -> cls o = cls_CompiledProcesses.
Proof.
  unfold fresh_instance, bind.
  destruct (set_members (map VProcess ps) _) as [[[]|e] o1] eqn:Hset; [|done].
  apply set_members_cls in Hset. simpl in Hset.
  unfold self__compile.
  destruct (dict_get (dict o1) "_compile"); [done|].
  intros H. apply _compile_Ok_inv in H as (? & ? & ? & ? & _ & _ & ->). done.
Qed.

(** The first call of the constructor on a tuple it can take: a cached
    instance, or a new one. *)
Lemma __new___first (ps : list Process.t) (w : world) :
  reachable w ->
  constructible ps ->
  exists a w1 ps0 o,
    __new__ ps w = (Ok a, w1) /\
    cache w1 !! map Process.addr ps = Some a /\
    map Process.addr ps0 = map Process.addr ps /\
    heap w1 !! a = Some o /\
    fresh_instance ps0 = (Ok tt, o) /\
    (cache w !! map Process.addr ps = None -> ps0 = ps /\ a = next w).
Proof.
  intros Hw Hc.
  destruct (cache w !! map Process.addr ps) as [a|] eqn:Hk.
  - destruct (reachable_heap_ok w Hw _ a Hk) as (ps0 & o & Hk0 & Hh & Hf).
    exists a, w, ps0, o. rewrite (__new___hit ps w a Hk). done.
  - destruct (__new___miss ps w Hc Hk) as (o & Ho & ->).
    eexists _, _, ps, o. split; [reflexivity|]. simpl.
    rewrite !lookup_insert_eq. done.
Qed.

(** C2.  From any state the constructor can have produced, constructing
    from a tuple of processes (whose IDs the constructor can store, none
    being the name of the method it calls) returns an instance that is in
    the heap, of class [CompiledProcesses], and filled and compiled from a
    tuple of the same objects - from this very tuple when it was not cached.
    Constructing again from the same tuple returns that very instance and
    changes nothing, and constructing from a tuple that differs (in a
    member or in the order) returns another instance and leaves the first
    as it is. *)
Theorem same_tuple_same_instance (w : world) (ps ps' : list Process.t) :
  reachable w ->
  constructible ps ->
  constructible ps' ->
  map Process.addr ps' <> map Process.addr ps ->
  exists a b w1 w2 ps0 o,
    __new__ ps w = (Ok a, w1) /\
    heap w1 !! a = Some o /\
    cls o = cls_CompiledProcesses /\
    map Process.addr ps0 = map Process.addr ps /\
    fresh_instance ps0 = (Ok tt, o) /\
    (cache w !! map Process.addr ps = None -> ps0 = ps) /\
    __new__ ps w1 = (Ok a, w1) /\
    __new__ ps' w1 = (Ok b, w2) /\
    b <> a /\
    heap w2 !! a = Some o.
Proof.
  intros Hw Hc Hc' Hne.
  destruct (__new___first ps w Hw Hc) as (a & w1 & ps0 & o & Hrun & Hk & Hps0 & Hh & Hf & Hmiss).
  assert (Hw1 : reachable w1).
  { replace w1 with (snd (__new__ ps w)) by (by rewrite Hrun). by constructor. }
  destruct (__new___first ps' w1 Hw1 Hc')
    as (b & w2 & ps0' & o' & Hrun' & Hk' & _ & _ & _ & Hmiss').
  destruct (__new___keeps ps' w1 _ a (reachable_cache_ok w1 Hw1) Hk) as [Hk2 Hh2].
  rewrite Hrun' in Hk2, Hh2. simpl in Hk2, Hh2.
  assert (Hw2 : reachable w2).
  { replace w2 with (snd (__new__ ps' w1)) by (by rewrite Hrun'). by constructor. }
  exists a, b, w1, w2, ps0, o.
  split; [done|]. split; [done|]. split; [by apply (fresh_instance_cls ps0)|].
  split; [done|]. split; [done|]. split; [by intros H; apply Hmiss|].
  split; [by apply __new___hit|]. split; [done|].
  split; [|by rewrite Hh2].
  intros ->. apply Hne.
  destruct (reachable_cache_ok w2 Hw2) as [_ Hinj]. by apply (Hinj _ _ a).
Qed.

End Cache.

(** ** The properties at concrete instances *)

Section Witnesses.
Import Processes CompiledProcesses.

Lemma compile_shapes_witness :
  dict Example.members = entries [Example.p1; Example.p2] /\
  dict Example.members = add_members [] [Example.p1; Example.p2] /\
  Process._ID Example.p1 <> Process._ID Example.p2 /\
  Components.IDs (Process._components Example.p1) = ["A"; "B"] /\
  Components.IDs (Process._components Example.p2) = ["B"; "C"] /\
  exists self cmps num a b c d,
    _compile Example.members = (Ok tt, self) /\
    attr self "_components" = Ok (VComponents cmps) /\
    Components.IDs cmps = ["A"; "B"; "C"] /\
    stoichiometry self
    = Ok (VStoich num [[a; b; ENum (Q2Qc 0)]; [ENum (Q2Qc 0); c; d]]).
Proof.
  assert (H1 : dict Example.members = entries [Example.p1; Example.p2])
    by reflexivity.
  assert (H2 : dict Example.members = add_members [] [Example.p1; Example.p2])
    by reflexivity.
  assert (H3 : Process._ID Example.p1 <> Process._ID Example.p2)
    by (simpl; discriminate).
  assert (H4 : Components.IDs (Process._components Example.p1) = ["A"; "B"])
    by reflexivity.
  assert (H5 : Components.IDs (Process._components Example.p2) = ["B"; "C"])
    by reflexivity.
  repeat (split; [assumption|]).
  exact (proj2 (compile_shapes Example.members [Example.p1; Example.p2]
                  Example.members Example.p1 Example.p2 H1 H2 H3 H4 H5)).
Defined.

Lemma same_tuple_same_instance_witness :
  reachable empty_world /\
  constructible [Example.p1; Example.p2] /\
  constructible [Example.p2; Example.p1] /\
  map Process.addr [Example.p2; Example.p1]
    <> map Process.addr [Example.p1; Example.p2] /\
  exists a b w1 w2 ps0 o,
    __new__ [Example.p1; Example.p2] empty_world = (Ok a, w1) /\
    heap w1 !! a = Some o /\
    cls o = cls_CompiledProcesses /\
    map Process.addr ps0 = map Process.addr [Example.p1; Example.p2] /\
    fresh_instance ps0 = (Ok tt, o) /\
    (cache empty_world !! map Process.addr [Example.p1; Example.p2] = None ->
     ps0 = [Example.p1; Example.p2]) /\
    __new__ [Example.p1; Example.p2] w1 = (Ok a, w1) /\
    __new__ [Example.p2; Example.p1] w1 = (Ok b, w2) /\
    b <> a /\
    heap w2 !! a = Some o.
Proof.
  assert (H1 : reachable empty_world) by constructor.
  assert (H2 : constructible [Example.p1; Example.p2])
    by (unfold constructible; compute_done).
  assert (H3 : constructible [Example.p2; Example.p1])
    by (unfold constructible; compute_done).
  assert (H4 : map Process.addr [Example.p2; Example.p1]
               <> map Process.addr [Example.p1; Example.p2])
    by (simpl; discriminate).
  split; [exact H1|]. split; [exact H2|]. split; [exact H3|]. split; [exact H4|].
  exact (same_tuple_same_instance empty_world [Example.p1; Example.p2]
           [Example.p2; Example.p1] H1 H2 H3 H4).
Defined.

Lemma compiled_is_read_only_witness :
  cls Example.compiled = cls_CompiledProcesses /\
  (let read_only := Raise (TypeError "'CompiledProcesses' object is read-only.") in
   Dispatch.append (VProcess Example.q) Example.compiled
   = (read_only, Example.compiled) /\
   Dispatch.extend (Iterable [VProcess Example.q]) Example.compiled
   = (read_only, Example.compiled) /\
   Dispatch.setitem "q" (VProcess Example.q) Example.compiled
   = (read_only, Example.compiled)).
Proof.
  assert (H1 : cls Example.compiled = cls_CompiledProcesses) by reflexivity.
  split; [exact H1|].
  exact (compiled_is_read_only Example.compiled (VProcess Example.q)
           (Iterable [VProcess Example.q]) "q" H1).
Defined.

Lemma index_of_member_or_undefined_witness :
  let o := with_cls cls_CompiledProcesses Example.members in
  let ps := [Example.p1; Example.p2] in
  (dict o = entries ps /\
  NoDup (map Process._ID ps) /\
  _compile o = (Ok tt, Example.compiled) /\
  Forall (fun ID => ID ∈ map Process._ID ps) ["p2"; "p1"] /\
  ("p3" ∉ map Process._ID ps) /\
  indices Example.compiled (["p2"; "p1"] ++ "p3" :: ["p1"])
  = Raise (UndefinedProcess "p3")).
Proof.
  intros o ps.
  assert (H1 : dict o = entries ps) by reflexivity.
  assert (H2 : NoDup (map Process._ID ps)) by compute_done.
  assert (H3 : _compile o = (Ok tt, Example.compiled)) by (vm_compute; reflexivity).
  assert (H4 : Forall (fun ID => ID ∈ map Process._ID ps) ["p2"; "p1"])
    by compute_done.
  assert (H5 : "p3" ∉ map Process._ID ps) by compute_done.
  repeat (split; [assumption|]).
  exact (proj1 (proj2 (proj2 (proj2
    (index_of_member_or_undefined o Example.compiled ps ["p2"; "p1"] ["p1"] "p3"
       H1 H2 H3 H4 H5))))).
Defined.

Lemma copy_of_compiled_raises_witness :
  let o := with_cls cls_CompiledProcesses Example.members in
  (_compile o = (Ok tt, Example.compiled) /\
   (forall p, VProcess p ∈ dict_values (dict o) ->
              Process._ID p ∉ data_descriptors cls_Processes) /\
   (exists e, CompiledProcesses.copy Example.compiled = Raise e) /\
   exists v, is_Process v = false /\
             CompiledProcesses.copy Example.compiled = Raise (no_ID v)).
Proof.
  intros o.
  assert (H1 : _compile o = (Ok tt, Example.compiled)) by (vm_compute; reflexivity).
  assert (H2 : forall p, VProcess p ∈ dict_values (dict o) ->
                         Process._ID p ∉ data_descriptors cls_Processes).
  { intros p Hp. simpl in Hp.
    apply elem_of_cons in Hp as [[= ->]|Hp]; [compute_done|].
    apply list_elem_of_singleton in Hp as [= ->]. compute_done. }
  split; [exact H1|]. split; [exact H2|].
  split; [exact (proj1 (copy_of_compiled_raises o Example.compiled H1))|].
  exact (proj2 (copy_of_compiled_raises o Example.compiled H1) H2).
Defined.

Lemma extend_duplicate_IDs_witness :
  let self := Example.members in
  let other := Example.other in
  let ps := [Example.q] in
  let p := Example.p2_bis in
  (NoDup (dict_keys (dict other)) /\
  NoDup (map Process._ID ps) /\
  (forall q, q ∈ ps -> dict_get (dict self) (Process._ID q) = None) /\
  (dict_get (dict self) (Process._ID p) <> None \/
   Process._ID p ∈ map Process._ID ps) /\
  cls self = cls_Processes /\
  ("append" ∉ dict_keys (dict self) ++ map Process._ID ps) /\
  Forall (fun q => Process._ID q ∉ data_descriptors cls_Processes) ps /\
  Processes.extend (Iterable (map VProcess ps)) self
  = (Ok tt, with_dict (dict self ++ entries ps) self) /\
  Processes.extend (Iterable (map VProcess (ps ++ p :: []))) self
  = (Raise (ValueError (Process._ID p +:+ " already defined in processes")),
     with_dict (dict self ++ entries ps) self)).
Proof.
  intros self other ps p.
  assert (H1 : NoDup (dict_keys (dict other))) by compute_done.
  assert (H2 : NoDup (map Process._ID ps)) by compute_done.
  assert (H3 : forall q, q ∈ ps -> dict_get (dict self) (Process._ID q) = None).
  { intros q Hq. apply list_elem_of_singleton in Hq. subst q. reflexivity. }
  assert (H4 : dict_get (dict self) (Process._ID p) <> None \/
               Process._ID p ∈ map Process._ID ps)
    by (left; simpl; discriminate).
  assert (H5 : cls self = cls_Processes) by reflexivity.
  assert (H6 : "append" ∉ dict_keys (dict self) ++ map Process._ID ps)
    by compute_done.
  assert (H7 : Forall (fun q => Process._ID q ∉ data_descriptors cls_Processes) ps)
    by compute_done.
  repeat (split; [assumption|]).
  exact (proj2 (extend_duplicate_IDs self other ps [] p H1 H2 H3 H4) H5 H6 H7).
Defined.

End Witnesses.

(** * Further properties *)

(** ** Reversing a process *)

Section ReverseFacts.
Import Process.

(** X1.  Reversing twice gives back the coefficients and the rate: a numeric
    array is restored entry by entry, expressions are restored in value. *)
Theorem reverse_twice_restores (p : Process.t) :
  exists p2,
    bind reverse (fun _ => reverse) p = (Ok tt, p2) /\
    match _stoichiometry p, _stoichiometry p2 with
    | NdArray v, NdArray v2 => v2 = v
    | PyList v, PyList v2 => forall env, map (eval env) v2 = map (eval env) v
    | _, _ => False
    end /\
    (forall env, eval env (_rate_equation p2) = eval env (_rate_equation p)) /\
    _ID p2 = _ID p /\ _components p2 = _components p /\
    _ref_component p2 = _ref_component p /\ _parameters p2 = _parameters p.
Proof.
  eexists. split; [reflexivity|]. simpl. split; [|split; [|done]].
  - destruct (_stoichiometry p) as [v|v]; simpl.
    + rewrite map_map. induction v as [|x v IH]; simpl; [done|].
      by rewrite Qcopp_involutive, IH.
    + intros env. rewrite !map_map. apply map_ext. intros e. simpl.
      apply Qcopp_involutive.
  - intros env. apply Qcopp_involutive.
Qed.

(** X2.  [reverse] negates the coefficients and the rate together, so the net
    rate of every component - coefficient times rate - is the same before
    and after. *)
Theorem reverse_keeps_net_rates (p : Process.t) (env : string -> Qc) (k : nat) :
  net_rate env (snd (reverse p)) k = net_rate env p k.
Proof.
  unfold net_rate, reverse, modify. simpl.
  destruct (_stoichiometry p) as [v|v]; simpl.
  - rewrite !list_lookup_fmap. destruct (v !! k) as [x|]; simpl; [|done].
    f_equal. ring.
  - rewrite list_lookup_fmap. destruct (v !! k) as [x|]; simpl; [|done].
    f_equal. ring.
Qed.

End ReverseFacts.

(** ** Assigning the reference component *)

Section RefComponentFacts.
Import Process.

(** X3.  On a numeric process whose coefficient [c] at the new reference is not
    zero, the assignment succeeds, records the new reference, keeps the
    number of coefficients, divides each by [|c|] and leaves the reference
    with coefficient 1 or -1, of the sign of [c]. *)
Theorem ref_component_normalizes (p : Process.t) (ref_cmp : string)
        (v : list Qc) (j : nat) (c : Qc) :
  ref_cmp <> "" ->
  _stoichiometry p = NdArray v ->
  Components.index (_components p) ref_cmp = Ok j ->
  v !! j = Some c ->
  c <> Q2Qc 0 ->
  exists p' v',
    set_ref_component ref_cmp p = (Ok tt, p') /\
    _ref_component p' = ref_cmp /\
    _stoichiometry p' = NdArray v' /\
    length v' = length v /\
    (forall k x, v !! k = Some x -> v' !! k = Some (x / Qcabs c)%Qc) /\
    (exists c', v' !! j = Some c' /\ Qcabs c' = Q2Qc 1 /\
                (Q2Qc 0 < c -> c' = Q2Qc 1)%Qc /\
                (c < Q2Qc 0 -> c' = (- Q2Qc 1)%Qc)%Qc).
Proof.
  intros Hne Hv Hj Hc Hc0.
  destruct (set_ref_component_numeric p ref_cmp v j c Hne Hv Hj Hc Hc0)
    as (p' & Hrun & Href & Hst & _ & Habs & _ & _).
  exists p', (map (fun x => (x / Qcabs c)%Qc) v).
  split; [done|]. split; [done|]. split; [done|].
  split; [by rewrite length_map|].
  split.
  { intros k x Hk. by rewrite list_lookup_fmap, Hk. }
  exists (c / Qcabs c)%Qc. split; [by rewrite list_lookup_fmap, Hc|].
  split; [done|]. split.
  - intros Hpos. rewrite Qcabs_pos by (by apply Qclt_le_weak). field. done.
  - intros Hneg. rewrite Qcabs_neg by (by apply Qclt_le_weak). field.
    by apply Qcopp_nonzero.
Qed.

(** X4.  Assigning the empty string changes nothing.  Assigning a name that the
    registry of the process does not know raises the KeyError of the index
    lookup, and the process already carries the new name as its reference:
    the coefficients and the rate are untouched, [_ref_component] is not. *)
Theorem ref_component_unknown (p : Process.t) (ref_cmp : string) :
  ref_cmp <> "" ->
  ref_cmp ∉ Components.IDs (_components p) ->
  set_ref_component "" p = (Ok tt, p) /\
  set_ref_component ref_cmp p = (Raise (KeyError ref_cmp), with_ref_component ref_cmp p) /\
  _stoichiometry (with_ref_component ref_cmp p) = _stoichiometry p /\
  _rate_equation (with_ref_component ref_cmp p) = _rate_equation p /\
  _ref_component (with_ref_component ref_cmp p) = ref_cmp.
Proof.
  intros Hne Hnot. split; [reflexivity|]. split; [|done].
  unfold set_ref_component. apply String.eqb_neq in Hne. rewrite Hne.
  unfold bind, modify, _normalize_stoichiometry, bind, get, lift. simpl.
  unfold Components.index. by rewrite find_index_None.
Qed.

End RefComponentFacts.

(** ** Dictionaries with distinct keys *)

Section DictKeys.
Context {V : Type}.
Implicit Types (d l : odict V) (k : string) (v : V).

Lemma dict_keys_set d k v :
  dict_keys (dict_set d k v)
  = if dict_contains d k then dict_keys d else dict_keys d ++ [k].
Proof.
  unfold dict_contains. induction d as [|[k' v'] d IH]; simpl; [done|].
  destruct (String.eqb k' k) eqn:E; simpl; [done|].
  rewrite IH. by destruct (dict_get d k).
Qed.

Lemma dict_set_NoDup d k v :
  NoDup (dict_keys d) -> NoDup (dict_keys (dict_set d k v)).
Proof.
  intros Hnd. rewrite dict_keys_set. unfold dict_contains.
  destruct (dict_get d k) eqn:E; [done|].
  apply NoDup_app. split; [done|]. split; [|apply NoDup_singleton].
  intros x Hx Hk. apply list_elem_of_singleton in Hk as ->.
  by apply dict_get_None_keys in E.
Qed.

Lemma dict_update_NoDup d l :
  NoDup (dict_keys d) -> NoDup (dict_keys (dict_update d l)).
Proof.
  unfold dict_update. revert d. induction l as [|[k v] l IH]; intros d Hnd; simpl.
  - done.
  - apply IH. by apply dict_set_NoDup.
Qed.

Lemma dict_keys_set_incl d k v k' :
  k' = k \/ k' ∈ dict_keys d -> k' ∈ dict_keys (dict_set d k v).
Proof.
  rewrite dict_keys_set. unfold dict_contains.
  destruct (dict_get d k) eqn:E.
  - intros [->|H]; [|done]. apply dict_get_Some_elem in E.
    unfold dict_keys. apply list_elem_of_fmap. by exists (k, v0).
  - rewrite elem_of_app, list_elem_of_singleton. tauto.
Qed.

(** The keys of [d.update(l)] are those of [d] and those of [l]. *)
Lemma dict_keys_update d l k :
  k ∈ dict_keys (dict_update d l) <-> k ∈ dict_keys d \/ k ∈ dict_keys l.
Proof.
  split; [apply dict_keys_update_elem|].
  unfold dict_update, dict_keys. revert d.
  induction l as [|[k0 v0] l IH]; intros d; simpl.
  - intros [H|H]; [done | by apply elem_of_nil in H].
  - intros H. apply IH. rewrite elem_of_cons in H.
    destruct H as [H|[->|H]]; [| |by right].
    + left. apply dict_keys_set_incl. by right.
    + left. apply dict_keys_set_incl. by left.
Qed.

Lemma dict_get_NoDup_elem l k v :
  NoDup (dict_keys l) -> (dict_get l k = Some v <-> (k, v) ∈ l).
Proof.
  intros Hnd. split; [apply dict_get_Some_elem|].
  induction l as [|[k' v'] l IH]; simpl.
  - intros H. by apply elem_of_nil in H.
  - inversion Hnd as [|? ? Hk Hnd']; subst.
    rewrite elem_of_cons. intros [[= -> ->]|H].
    + by rewrite String.eqb_refl.
    + destruct (String.eqb_spec k' k) as [->|_]; [|by apply IH].
      exfalso. apply Hk. unfold dict_keys. apply list_elem_of_fmap. by exists (k, v).
Qed.

Lemma filter_keys_NoDup (f : string * V -> bool) l :
  NoDup (dict_keys l) -> NoDup (dict_keys (List.filter f l)).
Proof.
  unfold dict_keys. induction l as [|kv l IH]; simpl; [done|].
  intros Hnd. inversion Hnd as [|? ? Hk Hnd']; subst.
  destruct (f kv); simpl; [|by apply IH].
  constructor; [|by apply IH].
  intros H. apply Hk. apply list_elem_of_fmap in H as [kv' [-> H]].
  apply list_elem_of_In, filter_In in H as [H _].
  apply list_elem_of_fmap. exists kv'. by rewrite list_elem_of_In.
Qed.

(** A key that [l] does not bind keeps its entry through [d.update(l)]. *)
Lemma dict_get_update_other d l k :
  k ∉ dict_keys l -> dict_get (dict_update d l) k = dict_get d k.
Proof.
  unfold dict_update, dict_keys. revert d.
  induction l as [|[k0 v0] l IH]; intros d; simpl; [done|].
  rewrite not_elem_of_cons. intros [Hne Hk].
  rewrite IH by done. by apply dict_get_set_ne.
Qed.

End DictKeys.

(** ** The sparse view of the coefficients *)

Section SparseView.
Import Process.

Lemma zip_keys_NoDup {V} (ids : list string) (cs : list V) :
  NoDup ids -> NoDup (dict_keys (zip ids cs)).
Proof.
  unfold dict_keys. revert cs. induction ids as [|i ids IH]; intros [|c cs] Hnd; simpl;
    try constructor.
  - inversion Hnd as [|? ? Hi _]; subst. intros H. apply Hi.
    apply list_elem_of_fmap in H as [[a b] [-> H]]. simpl. by apply elem_of_zip_l in H.
  - inversion Hnd; subst. by apply IH.
Qed.

Lemma dict_of_pairs_zip {V} (ids : list string) (cs : list V) :
  NoDup ids -> dict_of_pairs (zip ids cs) = zip ids cs.
Proof.
  intros Hnd. unfold dict_of_pairs. rewrite dict_update_fresh; [done| |done].
  by apply (zip_keys_NoDup ids cs).
Qed.

Lemma stoichiometry_keys_NoDup (p : Process.t) :
  NoDup (dict_keys (stoichiometry p)).
Proof.
  unfold stoichiometry. apply filter_keys_NoDup.
  unfold dict_of_pairs. apply dict_update_NoDup. constructor.
Qed.

(** X5.  The [stoichiometry] property of a process over a registry with distinct
    IDs: an ID is bound to [c] exactly when [c] is the coefficient at the
    position of that ID and is not zero.  Zero coefficients, and IDs beyond
    the coefficient vector, are left out. *)
Theorem stoichiometry_view (p : Process.t) (ID : string) (c : expr) :
  NoDup (Components.IDs (_components p)) ->
  dict_get (stoichiometry p) ID = Some c <->
  exists j, Components.IDs (_components p) !! j = Some ID /\
            coeffs (_stoichiometry p) !! j = Some c /\
            is_zero c = false.
Proof.
  intros Hnd.
  rewrite (dict_get_NoDup_elem _ _ _ (stoichiometry_keys_NoDup p)).
  unfold stoichiometry. rewrite dict_of_pairs_zip by done.
  rewrite list_elem_of_In, filter_In, <- list_elem_of_In. simpl.
  rewrite elem_of_lookup_zip_with. split.
  - intros [(j & a & b & [= -> ->] & Ha & Hb) Hz].
    exists j. split; [done|]. split; [done|]. by destruct (is_zero b).
  - intros (j & Ha & Hb & Hz). split; [|by rewrite Hz].
    by exists j, ID, c.
Qed.

End SparseView.

(** ** What [_compile] stores *)

Section CompileMore.
Import Processes CompiledProcesses.

Lemma fill_row_entries cmps items stch :
  NoDup (Components.IDs cmps) ->
  NoDup (dict_keys items) ->
  length stch = Components.size cmps ->
  (forall kv, kv ∈ items -> fst kv ∈ Components.IDs cmps) ->
  exists row,
    fill_row cmps items stch = Ok row /\
    forall j ID, Components.IDs cmps !! j = Some ID ->
                 row !! j = match dict_get items ID with
                            | Some c => Some c
                            | None => stch !! j
                            end.
Proof.
  intros Hcmps. revert stch.
  induction items as [|[k coeff] items IH]; intros stch Hnd Hlen Hin.
  - exists stch. simpl. auto.
  - inversion Hnd as [|? ? Hk Hnd']; subst.
    destruct (index_elem cmps k) as [j0 Hj0].
    { apply (Hin (k, coeff)). apply list_elem_of_here. }
    destruct (IH (<[j0 := coeff]> stch)) as (row & Hrow & Hget); [done| | |].
    { by rewrite length_insert. }
    { intros kv Hkv. apply Hin. by apply list_elem_of_further. }
    exists row. simpl. rewrite Hj0. simpl. split; [done|].
    intros j ID Hj. rewrite (Hget j ID Hj).
    pose proof (index_lookup _ _ _ Hj0) as Hj0'.
    destruct (String.eqb_spec k ID) as [->|Hne].
    + apply dict_get_None_keys in Hk. rewrite Hk.
      assert (j = j0) as -> by (by apply (NoDup_lookup _ j j0 ID Hcmps)).
      apply list_lookup_insert_eq. rewrite Hlen.
      apply lookup_lt_Some in Hj0'. unfold Components.IDs in Hj0'.
      by rewrite length_map in Hj0'.
    + destruct (dict_get items ID); [done|].
      apply list_lookup_insert_ne. intros ->. congruence.
Qed.

Lemma compile_rows_entries cmps ps M0 P0 n0 :
  NoDup (Components.IDs cmps) ->
  (forall p, p ∈ ps ->
     forall ID, ID ∈ Components.IDs (Process._components p) ->
                ID ∈ Components.IDs cmps) ->
  exists rows,
    compile_rows cmps ps M0 P0 n0
    = Ok (M0 ++ rows,
          fold_left (fun acc p => dict_update acc (Process._parameters p)) ps P0,
          n0 && forallb is_numeric ps) /\
    Forall2 (fun p row =>
               forall j ID, Components.IDs cmps !! j = Some ID ->
                            row !! j = Some (entry_for p ID)) ps rows.
Proof.
  intros Hcmps. revert M0 P0 n0. induction ps as [|p ps IH]; intros M0 P0 n0 Hsub.
  - exists []. simpl. rewrite app_nil_r, andb_true_r. split; [done|constructor].
  - destruct (fill_row_entries cmps (Process.stoichiometry p)
                (replicate (Components.size cmps) (ENum (Q2Qc 0))))
      as (row & Hrow & Hget); [done| | | |].
    { apply stoichiometry_keys_NoDup. }
    { apply length_replicate. }
    { intros kv Hkv. apply (Hsub p); [apply list_elem_of_here|].
      by apply stoichiometry_keys. }
    simpl. rewrite Hrow. simpl.
    edestruct (IH (M0 ++ [row])) as (rows & Hrows & Hall).
    { intros q Hq. apply Hsub. by apply list_elem_of_further. }
    rewrite Hrows. exists (row :: rows). split.
    + rewrite <- app_assoc. simpl. do 2 f_equal.
      unfold is_numeric. destruct n0, (is_list (Process._stoichiometry p)); done.
    + constructor; [|done]. intros j ID Hj. rewrite (Hget j ID Hj).
      unfold entry_for. destruct (dict_get (Process.stoichiometry p) ID); [done|].
      apply lookup_replicate_2. apply lookup_lt_Some in Hj.
      unfold Components.IDs in Hj. by rewrite length_map in Hj.
Qed.

Lemma _compile_stores (o : obj) (ps : list Process.t) :
  dict o = entries ps ->
  exists M_stch,
    _compile o
    = (Ok tt,
       with_dict
         (compiled_dict (dict o) ps M_stch
            (fold_left (fun acc p => dict_update acc (Process._parameters p)) ps [])
            (forallb is_numeric ps)) o) /\
    Forall2 (fun p row =>
               forall j ID,
                 Components.IDs (Components.new (flat_map Process._components ps)) !! j
                 = Some ID ->
                 row !! j = Some (entry_for p ID)) ps M_stch.
Proof.
  intros Hd.
  destruct (compile_rows_entries (Components.new (flat_map Process._components ps))
              ps [] [] true) as (rows & Hrows & Hall).
  { apply new_IDs_NoDup. }
  { intros p Hp ID HID. by apply (components_in_merged ps p). }
  exists rows. split; [|done].
  apply _compile_Ok_intro; [|done]. rewrite Hd. apply mapM_as_Process_entries.
Qed.

Ltac stored :=
  unfold stoichiometry, attr; simpl; unfold compiled_dict;
  rewrite ?dict_get_set_ne by done; rewrite dict_get_set_eq.

(** X6.  Row [i], column [j] of the compiled matrix is the coefficient that
    process [i] gives, in its sparse view, to the [j]-th component of the
    merged registry, and zero when that view does not name the component. *)
Theorem compile_matrix_entries (o : obj) (ps : list Process.t) :
  dict o = entries ps ->
  exists self cmps num M_stch,
    _compile o = (Ok tt, self) /\
    attr self "_components" = Ok (VComponents cmps) /\
    stoichiometry self = Ok (VStoich num M_stch) /\
    Forall2 (fun p row =>
               forall j ID, Components.IDs cmps !! j = Some ID ->
                            row !! j = Some (entry_for p ID)) ps M_stch.
Proof.
  intros Hd. destruct (_compile_stores o ps Hd) as (M_stch & Hrun & Hall).
  eexists _, _, _, M_stch. split; [exact Hrun|].
  split; [by stored|]. split; [by stored|]. done.
Qed.

(** X7.  The compiled matrix is kept as a numeric array exactly when every
    member has a numeric stoichiometry; one symbolic member makes it a list
    of rows.  An empty collection counts as numeric. *)
Theorem compile_numeric_flag (o : obj) (ps : list Process.t) :
  dict o = entries ps ->
  exists self num M_stch,
    _compile o = (Ok tt, self) /\
    stoichiometry self = Ok (VStoich num M_stch) /\
    (num = true <->
     Forall (fun p => exists v, Process._stoichiometry p = Process.NdArray v) ps).
Proof.
  intros Hd. destruct (_compile_stores o ps Hd) as (M_stch & Hrun & _).
  eexists _, _, M_stch. split; [exact Hrun|]. split; [by stored|].
  rewrite forallb_forall, Forall_forall. split.
  - intros H p Hp. apply list_elem_of_In, H in Hp. unfold is_numeric in Hp.
    destruct (Process._stoichiometry p) as [v|v]; [eauto | discriminate].
  - intros H p Hp. apply list_elem_of_In, H in Hp as [v Hv].
    unfold is_numeric. by rewrite Hv.
Qed.

Lemma merged_parameters_keys (ps : list Process.t) (P0 : odict expr) (name : string) :
  name ∈ dict_keys (fold_left (fun acc p => dict_update acc (Process._parameters p)) ps P0)
  <-> name ∈ dict_keys P0 \/
      exists p, p ∈ ps /\ name ∈ dict_keys (Process._parameters p).
Proof.
  revert P0. induction ps as [|p ps IH]; intros P0; simpl.
  - split; [auto|]. intros [H|(p & Hp & _)]; [done | by apply elem_of_nil in Hp].
  - rewrite IH, dict_keys_update. split.
    + intros [[H|H]|(q & Hq & H)]; [by left| |].
      * right. exists p. split; [apply list_elem_of_here | done].
      * right. exists q. split; [by apply list_elem_of_further | done].
    + intros [H|(q & Hq & H)]; [by left; left|].
      apply elem_of_cons in Hq as [->|Hq]; [by left; right|].
      right. by exists q.
Qed.

Lemma merged_parameters_NoDup (ps : list Process.t) (P0 : odict expr) :
  NoDup (dict_keys P0) ->
  NoDup (dict_keys (fold_left (fun acc p => dict_update acc (Process._parameters p)) ps P0)).
Proof.
  revert P0. induction ps as [|p ps IH]; intros P0 Hnd; simpl; [done|].
  apply IH. by apply dict_update_NoDup.
Qed.

(** X8.  The parameter table of the compiled collection binds each name once,
    and binds exactly the names that some member's table binds. *)
Theorem compile_merges_parameters (o : obj) (ps : list Process.t) :
  dict o = entries ps ->
  exists self params,
    _compile o = (Ok tt, self) /\
    attr self "_parameters" = Ok (VParams params) /\
    NoDup (dict_keys params) /\
    forall name,
      name ∈ dict_keys params <->
      exists p, p ∈ ps /\ name ∈ dict_keys (Process._parameters p).
Proof.
  intros Hd. destruct (_compile_stores o ps Hd) as (M_stch & Hrun & _).
  eexists _, _. split; [exact Hrun|]. split; [by stored|].
  split; [apply merged_parameters_NoDup; constructor|].
  intros name. rewrite merged_parameters_keys. split; [|auto].
  intros [H|H]; [by apply elem_of_nil in H | done].
Qed.

End CompileMore.

(** ** Collections: construction, append, lookup, copy *)

Section Collections.
Import Processes.

Lemma add_members_snoc (d : odict value) (ps : list Process.t) (p : Process.t) :
  add_members d (ps ++ [p])
  = dict_set (add_members d ps) (Process._ID p) (VProcess p).
Proof. unfold add_members. by rewrite fold_left_app. Qed.

Lemma last_with_ID_snoc (ID : string) (ps : list Process.t) (p : Process.t) :
  last_with_ID ID (ps ++ [p])
  = if String.eqb (Process._ID p) ID then Some p else last_with_ID ID ps.
Proof. unfold last_with_ID. by rewrite rev_unit. Qed.

Lemma add_members_get (d : odict value) (ps : list Process.t) (ID : string) :
  dict_get (add_members d ps) ID
  = match last_with_ID ID ps with
    | Some p => Some (VProcess p)
    | None => dict_get d ID
    end.
Proof.
  induction ps as [|p ps IH] using rev_ind; [done|].
  rewrite add_members_snoc, last_with_ID_snoc.
  destruct (String.eqb_spec (Process._ID p) ID) as [->|Hne].
  - apply dict_get_set_eq.
  - by rewrite dict_get_set_ne.
Qed.

Lemma add_members_NoDup (d : odict value) (ps : list Process.t) :
  NoDup (dict_keys d) -> NoDup (dict_keys (add_members d ps)).
Proof.
  unfold add_members. revert d. induction ps as [|p ps IH]; intros d Hnd; simpl; [done|].
  apply IH. by apply dict_set_NoDup.
Qed.

Lemma add_members_length (d : odict value) (ps : list Process.t) :
  length (add_members d ps) <= length d + length ps.
Proof.
  unfold add_members. revert d. induction ps as [|p ps IH]; intros d; simpl; [lia|].
  etrans; [apply IH|].
  assert (length (dict_keys (dict_set d (Process._ID p) (VProcess p))) <= S (length d)).
  { rewrite dict_keys_set. destruct (dict_contains d (Process._ID p)).
    - unfold dict_keys. rewrite length_map. lia.
    - unfold dict_keys. rewrite length_app, length_map. simpl. lia. }
  unfold dict_keys in H. rewrite length_map in H. lia.
Qed.

Lemma add_members_fresh (d : odict value) (ps : list Process.t) :
  NoDup (map Process._ID ps) ->
  (forall q, q ∈ ps -> dict_get d (Process._ID q) = None) ->
  add_members d ps = d ++ entries ps.
Proof.
  unfold add_members. revert d. induction ps as [|p ps IH]; intros d Hnd Hfresh; simpl.
  - by rewrite app_nil_r.
  - inversion Hnd as [|? ? Hp Hnd']; subst.
    rewrite dict_set_fresh by (apply Hfresh; apply list_elem_of_here).
    rewrite IH; [by rewrite <- app_assoc | done |].
    intros q Hq. rewrite dict_get_app.
    rewrite (Hfresh q) by (by apply list_elem_of_further). simpl.
    destruct (String.eqb_spec (Process._ID p) (Process._ID q)) as [E|]; [|done].
    exfalso. apply Hp. rewrite E. apply list_elem_of_fmap. by exists q.
Qed.

(** X9.  [Processes(...)] on a list of processes whose IDs attribute assignment
    can store (none names a data descriptor of the class) completes,
    duplicate IDs or not: each ID is bound once, to the last process of the
    list that has it, so the collection can be shorter than the list.  With
    distinct IDs it holds the processes in the order given. *)
Theorem new_keeps_last_duplicate (ps : list Process.t) :
  Forall (fun p => Process._ID p ∉ data_descriptors cls_Processes) ps ->
  exists self,
    Processes.__new__ (map VProcess ps) = Ok self /\
    cls self = cls_Processes /\
    NoDup (dict_keys (dict self)) /\
    (forall ID, dict_get (dict self) ID = VProcess <$> last_with_ID ID ps) /\
    __len__ self <= length ps /\
    (NoDup (map Process._ID ps) -> dict self = entries ps).
Proof.
  intros Hgood.
  unfold Processes.__new__. rewrite set_members_processes by done. simpl.
  eexists. split; [reflexivity|]. simpl. split; [done|].
  split; [apply add_members_NoDup; constructor|].
  split.
  { intros ID. rewrite add_members_get. by destruct (last_with_ID ID ps). }
  split.
  { unfold __len__. simpl. apply (add_members_length [] ps). }
  intros Hnd. rewrite add_members_fresh; done.
Qed.

(** X10.  Appending a process whose ID is new, and is not the name of a data
    descriptor of the receiver's class, binds that ID to it: the lookup by
    the ID returns the process, the length grows by one, the other lookups
    and the class are as before, and no process with the same ID - this
    one included - can be appended afterwards. *)
Theorem append_then_lookup (self : obj) (p : Process.t) :
  Process._ID p ∉ data_descriptors (cls self) ->
  dict_get (dict self) (Process._ID p) = None ->
  exists self',
    append (VProcess p) self = (Ok tt, self') /\
    __getitem__ self' (KStr (Process._ID p)) = Ok (VProcess p) /\
    __len__ self' = S (__len__ self) /\
    cls self' = cls self /\
    (forall ID, ID <> Process._ID p ->
                dict_get (dict self') ID = dict_get (dict self) ID) /\
    (forall q, Process._ID q = Process._ID p ->
               append (VProcess q) self'
               = (Raise (ValueError (Process._ID p +:+ " already defined in processes")),
                  self')).
Proof.
  intros Hp Hfresh. eexists. split; [by apply append_fresh|].
  assert (Hget : dict_get (dict self ++ [(Process._ID p, VProcess p)]) (Process._ID p)
                 = Some (VProcess p)).
  { rewrite dict_get_app, Hfresh. simpl. by rewrite String.eqb_refl. }
  split.
  { unfold __getitem__. simpl. by rewrite Hget. }
  split.
  { unfold __len__. simpl. rewrite length_app. simpl. lia. }
  split; [done|]. split.
  - intros ID Hne. simpl. rewrite dict_get_app. simpl.
    destruct (String.eqb_spec (Process._ID p) ID) as [E|_]; [congruence|].
    by destruct (dict_get (dict self) ID).
  - intros q Hq. rewrite <- Hq. apply append_bound. simpl. rewrite Hq, Hget. done.
Qed.

(** Only [Process] objects can be appended: any other value raises the
    TypeError naming its type and the collection is unchanged. *)
Lemma append_other (self : obj) (v : value) :
  is_Process v = false ->
  append v self
  = (Raise (TypeError ("only 'Process' objects can be appended, not '"
                       +:+ type_name v +:+ "'")), self).
Proof. destruct v; simpl; done. Qed.

(** X11.  [Processes.copy] of a collection of processes with distinct IDs, each
    under its own ID - IDs that attribute assignment can store, as those
    of any collection built by the constructor and [append] are - is a plain
    [Processes] with the same entries in the same order. *)
Theorem copy_of_collection (self : obj) (ps : list Process.t) :
  dict self = entries ps ->
  NoDup (map Process._ID ps) ->
  Forall (fun p => Process._ID p ∉ data_descriptors cls_Processes) ps ->
  Processes.copy self = Ok {| cls := cls_Processes; dict := dict self |}.
Proof.
  intros Hd Hnd Hgood. unfold Processes.copy, __iter__. rewrite Hd.
  assert (Hvals : dict_values (entries ps) = map VProcess ps).
  { unfold dict_values, entries. rewrite map_map. done. }
  rewrite Hvals, set_members_processes by done. simpl.
  by rewrite add_members_fresh.
Qed.

End Collections.

(** ** Compiled collections: lookup, membership, compiling again *)

Section CompiledMore.
Import Processes CompiledProcesses.

Lemma compiled_dict_get_other d ps M_stch params num ID :
  ID ∉ compiled_fields ->
  dict_get (compiled_dict d ps M_stch params num) ID = dict_get d ID.
Proof.
  intros H. unfold compiled_fields in H. rewrite !not_elem_of_cons in H.
  destruct H as (?&?&?&?&?&?&?&?&?&_).
  unfold compiled_dict. by rewrite !dict_get_set_ne.
Qed.

Lemma compiled_dict_get_field d ps M_stch params num ID :
  ID ∈ compiled_fields ->
  exists v, dict_get (compiled_dict d ps M_stch params num) ID = Some v /\
            is_Process v = false.
Proof.
  intros H. unfold compiled_fields in H. rewrite !elem_of_cons in H.
  unfold compiled_dict.
  destruct H as [->|[->|[->|[->|[->|[->|[->|[->|[->|H]]]]]]]]];
    [..|by apply elem_of_nil in H];
    rewrite ?dict_get_set_ne by done; rewrite dict_get_set_eq; eauto.
Qed.

Lemma compiled_dict_keys d ps M_stch params num ID :
  ID ∈ dict_keys (compiled_dict d ps M_stch params num)
  <-> ID ∈ dict_keys d \/ ID ∈ compiled_fields.
Proof.
  destruct (decide (ID ∈ compiled_fields)) as [Hf|Hf].
  - split; [auto|]. intros _.
    destruct (compiled_dict_get_field d ps M_stch params num ID Hf) as (v & Hv & _).
    apply dict_get_Some_elem in Hv. unfold dict_keys.
    apply list_elem_of_fmap. by exists (ID, v).
  - pose proof (compiled_dict_get_other d ps M_stch params num ID Hf) as Hget.
    pose proof (dict_get_None_keys (compiled_dict d ps M_stch params num) ID) as H1.
    pose proof (dict_get_None_keys d ID) as H2.
    rewrite Hget in H1. split.
    + intros H. left. destruct (decide (ID ∈ dict_keys d)); [done|]. tauto.
    + intros [H|H]; [|done].
      destruct (decide (ID ∈ dict_keys (compiled_dict d ps M_stch params num))); [done|].
      tauto.
Qed.

Lemma compiled_dict_NoDup d ps M_stch params num :
  NoDup (dict_keys d) -> NoDup (dict_keys (compiled_dict d ps M_stch params num)).
Proof. intros H. unfold compiled_dict. by repeat apply dict_set_NoDup. Qed.

Lemma entries_keys (ps : list Process.t) : dict_keys (entries ps) = map Process._ID ps.
Proof. unfold dict_keys, entries. by rewrite map_map. Qed.

Lemma entries_get_index (ps : list Process.t) (ID : string) (j : nat) :
  Components.find_index (map Process._ID ps) ID = Some j ->
  exists p, ps !! j = Some p /\ dict_get (entries ps) ID = Some (VProcess p).
Proof.
  revert j. induction ps as [|q ps IH]; intros j; simpl; [done|].
  destruct (String.eqb (Process._ID q) ID).
  - intros [= <-]. eauto.
  - destruct (Components.find_index (map Process._ID ps) ID) as [j'|]; simpl; [|done].
    intros [= <-]. destruct (IH j' eq_refl) as (p & Hp & Hget). eauto.
Qed.

Lemma _compile_entries_inv (o self : obj) (ps : list Process.t) :
  dict o = entries ps ->
  _compile o = (Ok tt, self) ->
  exists M_stch params num,
    self = with_dict (compiled_dict (entries ps) ps M_stch params num) o.
Proof.
  intros Hd Hrun.
  apply _compile_Ok_inv in Hrun as (ps' & M_stch & params & num & Hps & _ & ->).
  rewrite Hd, mapM_as_Process_entries in Hps. injection Hps as <-.
  exists M_stch, params, num. by rewrite Hd.
Qed.

(** X12.  On a compiled collection, subscripting with the ID of a member returns
    the member that [index] locates, provided the ID is not one of the nine
    names under which [_compile] keeps its results; subscripting with one
    of those names returns the stored tuple, size, table or matrix and never
    a process, even when a member carries that name as its ID. *)
Theorem compiled_getitem (o self : obj) (ps : list Process.t) (ID : string) :
  dict o = entries ps ->
  NoDup (map Process._ID ps) ->
  _compile o = (Ok tt, self) ->
  (ID ∈ map Process._ID ps -> ID ∉ compiled_fields ->
   exists j p, index self ID = Ok j /\ ps !! j = Some p /\
               __getitem__ self (KStr ID) = Ok (VProcess p)) /\
  (ID ∈ compiled_fields ->
   exists v, __getitem__ self (KStr ID) = Ok v /\ is_Process v = false).
Proof.
  intros Hd Hnd Hrun.
  destruct (compiled_index o self ps Hd Hnd Hrun) as (d & Hidx & Hget).
  destruct (_compile_entries_inv o self ps Hd Hrun) as (M_stch & params & num & ->).
  split.
  - intros HID Hf. destruct (find_index_elem _ _ HID) as [j Hj].
    destruct (entries_get_index ps ID j Hj) as (p & Hp & Hent).
    exists j, p. split; [|split; [done|]].
    + unfold index. rewrite Hidx. simpl. by rewrite Hget, Hj.
    + unfold __getitem__. simpl. by rewrite compiled_dict_get_other, Hent.
  - intros Hf.
    destruct (compiled_dict_get_field (entries ps) ps M_stch params num ID Hf)
      as (v & Hv & Hproc).
    exists v. split; [|done]. unfold __getitem__. simpl. by rewrite Hv.
Qed.

Lemma existsb_same_object (p : Process.t) (ps : list Process.t) :
  existsb (Membership.same_object p) ps = true
  <-> Process.addr p ∈ map Process.addr ps.
Proof.
  rewrite existsb_exists, list_elem_of_fmap. unfold Membership.same_object. split.
  - intros (q & Hq & E). apply Nat.eqb_eq in E. exists q.
    split; [done | by apply list_elem_of_In].
  - intros (q & E & Hq). exists q. split; [by apply list_elem_of_In|].
    by apply Nat.eqb_eq.
Qed.

(** X13.  Membership in a compiled collection.  A string is a member when it is
    the ID of a process - or one of the nine names of the compiled state,
    such as [size].  A process is a member when it is, as an object, one of
    the compiled tuple; anything else is not. *)
Theorem compiled_contains (o self : obj) (ps : list Process.t) :
  dict o = entries ps ->
  _compile o = (Ok tt, self) ->
  (forall ID, exists b,
      Membership.__contains__ self (Membership.CStr ID) = Ok b /\
      (b = true <-> ID ∈ map Process._ID ps \/ ID ∈ compiled_fields)) /\
  (forall p, exists b,
      Membership.__contains__ self (Membership.CProcess p) = Ok b /\
      (b = true <-> Process.addr p ∈ map Process.addr ps)) /\
  Membership.__contains__ self Membership.COther = Ok false.
Proof.
  intros Hd Hrun.
  destruct (_compile_entries_inv o self ps Hd Hrun) as (M_stch & params & num & ->).
  split; [|split; [|done]].
  - intros ID. eexists. split; [reflexivity|]. simpl.
    rewrite <- entries_keys,
      <- (compiled_dict_keys (entries ps) ps M_stch params num ID).
    unfold dict_contains.
    pose proof (dict_get_None_keys (compiled_dict (entries ps) ps M_stch params num) ID) as H.
    destruct (dict_get (compiled_dict (entries ps) ps M_stch params num) ID).
    + split; [|done]. intros _.
      destruct (decide (ID ∈ dict_keys (compiled_dict (entries ps) ps M_stch params num)));
        [done|]. assert (Some v = None) by tauto. done.
    + split; [done|]. intros Hin. exfalso. by apply (proj1 H).
  - intros p. exists (existsb (Membership.same_object p) ps). split.
    + unfold Membership.__contains__, attr. simpl. by rewrite compiled_dict_tuple.
    + apply existsb_same_object.
Qed.

Lemma mapM_as_Process_raises (l : list value) :
  (exists v, v ∈ l /\ is_Process v = false) ->
  exists v, is_Process v = false /\ mapM as_Process l = Raise (no_ID v).
Proof.
  induction l as [|x l IH]; intros [v [Hin Hv]].
  - by apply elem_of_nil in Hin.
  - destruct (is_Process x) eqn:Hx.
    + destruct x; try discriminate. simpl.
      destruct IH as (v' & Hv' & ->).
      { exists v. split; [|done].
        apply elem_of_cons in Hin as [->|]; [discriminate|done]. }
      by exists v'.
    + exists x. split; [done|]. by destruct x.
Qed.

Lemma mycompile_raises (self : obj) :
  (exists v, v ∈ dict_values (dict self) /\ is_Process v = false) ->
  exists v, is_Process v = false /\
            mycompile self = (Raise (no_ID v), with_cls cls_CompiledProcesses self).
Proof.
  intros H. destruct (mapM_as_Process_raises _ H) as (v & Hv & Hraise).
  exists v. split; [done|].
  unfold mycompile, _compile, bind, modify, get, lift. simpl. by rewrite Hraise.
Qed.

(** X14.  [mycompile] on a collection that holds anything but processes raises
    the AttributeError of the first such value, after the instance has
    become a [CompiledProcesses]: the entries are as they were, nothing is
    compiled, and the class is changed.  In particular, compiling an
    instance that is compiled already raises and leaves its entries. *)
Theorem mycompile_changes_class_then_raises (self : obj) (v0 : value) :
  v0 ∈ dict_values (dict self) ->
  is_Process v0 = false ->
  exists v self',
    is_Process v = false /\
    mycompile self = (Raise (no_ID v), self') /\
    cls self' = cls_CompiledProcesses /\
    dict self' = dict self /\
    mycompile self' = (Raise (no_ID v), self').
Proof.
  intros Hin Hv0.
  destruct (mapM_as_Process_raises (dict_values (dict self))) as (v & Hv & Hraise);
    [by exists v0|].
  exists v, (with_cls cls_CompiledProcesses self).
  split; [done|].
  split; [|split; [done|split; [done|]]];
    unfold mycompile, _compile, bind, modify, get, lift; simpl; by rewrite Hraise.
Qed.

(** X15.  Extending a collection with a compiled one copies the compiled state
    along with the processes: the call succeeds, the receiver then holds
    the tuple of the compiled collection under the name [tuple], and
    [mycompile] on the receiver raises an AttributeError. *)
Theorem extend_with_compiled (self o cp : obj) (ps : list Process.t) :
  dict o = entries ps ->
  NoDup (map Process._ID ps) ->
  _compile o = (Ok tt, cp) ->
  exists self' v,
    Processes.extend (Instance cp) self = (Ok tt, self') /\
    dict_get (dict self') "tuple" = Some (VTuple ps) /\
    is_Process v = false /\
    mycompile self' = (Raise (no_ID v), with_cls cls_CompiledProcesses self').
Proof.
  intros Hd Hnd Hrun.
  destruct (_compile_entries_inv o cp ps Hd Hrun) as (M_stch & params & num & ->).
  eexists. 
  assert (Htuple : dict_get (dict_update (dict self)
                     (compiled_dict (entries ps) ps M_stch params num)) "tuple"
                   = Some (VTuple ps)).
  { rewrite dict_get_update.
    - by rewrite compiled_dict_tuple.
    - apply compiled_dict_NoDup. by rewrite entries_keys. }
  destruct (mycompile_raises
              (with_dict (dict_update (dict self)
                 (compiled_dict (entries ps) ps M_stch params num)) self))
    as (v & Hv & Hraise).
  { exists (VTuple ps). split; [|done]. simpl. by apply (dict_get_values _ "tuple"). }
  exists v. split; [reflexivity|]. simpl. done.
Qed.

End CompiledMore.

(** ** PM2: accepted parameters, negative quotas *)

Section PM2More.
Import PM2.
Context {lambdified rate_fn : Type}.
Variable set_param : odict Qc -> M rate_fn unit.
Variable stoichiometry_loc : PM2.t lambdified rate_fn -> string -> string -> Qc.

Lemma filter_names_get (names : list string) (l : odict Qc) (k : string) :
  dict_get (List.filter (fun kv : string * Qc => Components.mem (fst kv) names) l) k
  = if Components.mem k names then dict_get l k else None.
Proof.
  induction l as [|[k' v'] l IH]; simpl.
  - by destruct (Components.mem k names).
  - destruct (Components.mem k' names) eqn:Hm; simpl.
    + destruct (String.eqb_spec k' k) as [->|_]; [rewrite Hm; reflexivity | exact IH].
    + destruct (String.eqb_spec k' k) as [->|_]; [rewrite Hm in *; exact IH | exact IH].
Qed.

Lemma stoichio_only_get (parameters : odict Qc) (k : string) :
  dict_get (stoichio_only parameters) k
  = if Components.mem k _stoichio_params then dict_get parameters k else None.
Proof. apply filter_names_get. Qed.

Lemma Th_nonneg (a : Qc) : (Q2Qc 0 <= Qcabs a * Q2Qc (1001 # 1000))%Qc.
Proof.
  replace (Q2Qc 0) with (Q2Qc 0 * Q2Qc (1001 # 1000))%Qc by ring.
  apply Qcmult_le_compat_r; [apply Qcabs_nonneg | vm_compute; discriminate].
Qed.

(** X16.  When the call gives no quota below its theoretical minimum, every value
    of the call goes to the rate function, and [_parameters] takes the
    values given under the stoichiometric names and no other: a name
    outside [_stoichio_params], or one the call does not give, keeps its
    entry. *)
Theorem set_parameters_accepts (self : PM2.t lambdified rate_fn)
        (parameters : odict Qc) :
  let stored := dict_update (_parameters self) (stoichio_only parameters) in
  let self1 :=
    {| _parameters := stored; _stoichio_lambdified := None;
       rate_function := rate_function self |} in
  NoDup (dict_keys parameters) ->
  (forall x, dict_get parameters "Q_N_min" = Some x ->
             (Th_Q_N_min _ _ stoichiometry_loc self1 <= x)%Qc) ->
  (forall x, dict_get parameters "Q_P_min" = Some x ->
             (Th_Q_P_min _ _ stoichiometry_loc self1 <= x)%Qc) ->
  set_parameters _ _ set_param stoichiometry_loc parameters self
  = (fst (set_param parameters (rate_function self)),
     {| _parameters := stored; _stoichio_lambdified := None;
        rate_function := snd (set_param parameters (rate_function self)) |}) /\
  (forall k v, Components.mem k _stoichio_params = true ->
               dict_get parameters k = Some v -> dict_get stored k = Some v) /\
  (forall k, Components.mem k _stoichio_params = false ->
             dict_get stored k = dict_get (_parameters self) k) /\
  (forall k, dict_get parameters k = None ->
             dict_get stored k = dict_get (_parameters self) k).
Proof.
  intros stored self1 Hnd HN HP.
  assert (Hget : forall k, dict_get stored k
                 = match (if Components.mem k _stoichio_params
                          then dict_get parameters k else None) with
                   | Some v => Some v
                   | None => dict_get (_parameters self) k
                   end).
  { intros k. subst stored. rewrite dict_get_update.
    - by rewrite stoichio_only_get.
    - by apply filter_keys_NoDup. }
  split; [|split; [|split]].
  - unfold set_parameters, bind, modify. simpl.
    set (s1 := match _stoichio_lambdified self with Some _ => _ | None => _ end).
    assert (Hs1 : s1 = self1)
      by (subst s1 self1 stored; destruct (_stoichio_lambdified self); done).
    rewrite Hs1. clear s1 Hs1.
    unfold check_minimum.
    destruct (dict_get parameters "Q_N_min") as [x|] eqn:EN.
    + destruct (Qclt_le_dec x (Th_Q_N_min _ _ stoichiometry_loc self1)) as [Hlt|_].
      { exfalso. by apply (Qclt_not_le _ _ Hlt), HN. }
      destruct (dict_get parameters "Q_P_min") as [y|] eqn:EP.
      * destruct (Qclt_le_dec y (Th_Q_P_min _ _ stoichiometry_loc self1)) as [Hlt|_].
        { exfalso. by apply (Qclt_not_le _ _ Hlt), HP. }
        simpl. by destruct (set_param parameters (rate_function self)).
      * simpl. by destruct (set_param parameters (rate_function self)).
    + destruct (dict_get parameters "Q_P_min") as [y|] eqn:EP.
      * destruct (Qclt_le_dec y (Th_Q_P_min _ _ stoichiometry_loc self1)) as [Hlt|_].
        { exfalso. by apply (Qclt_not_le _ _ Hlt), HP. }
        simpl. by destruct (set_param parameters (rate_function self)).
      * simpl. by destruct (set_param parameters (rate_function self)).
  - intros k v Hm Hk. by rewrite Hget, Hm, Hk.
  - intros k Hm. by rewrite Hget, Hm.
  - intros k Hk. rewrite Hget, Hk. by destruct (Components.mem k _stoichio_params).
Qed.

(** X17.  A negative [Q_N_min] or [Q_P_min] is rejected whatever the
    stoichiometry is: the theoretical minimum is an absolute value times
    1.001, hence not negative.  The rate function keeps its parameters. *)
Theorem set_parameters_rejects_negative (self : PM2.t lambdified rate_fn)
        (parameters : odict Qc) :
  (exists x, dict_get parameters "Q_N_min" = Some x /\ (x < Q2Qc 0)%Qc) \/
  (exists x, dict_get parameters "Q_P_min" = Some x /\ (x < Q2Qc 0)%Qc) ->
  exists name self1,
    set_parameters _ _ set_param stoichiometry_loc parameters self
    = (Raise (below_minimum name), self1) /\
    (name = "Q_N_min" \/ name = "Q_P_min") /\
    rate_function self1 = rate_function self.
Proof.
  intros Hneg. unfold set_parameters, bind, modify. simpl.
  set (s1 := match _stoichio_lambdified self with Some _ => _ | None => _ end).
  assert (Hrf : rate_function s1 = rate_function self)
    by (subst s1; destruct (_stoichio_lambdified self); done).
  clearbody s1. unfold check_minimum.
  assert (Hlow : forall x bound, (x < Q2Qc 0)%Qc ->
                   (x < Qcabs bound * Q2Qc (1001 # 1000))%Qc).
  { intros x bound Hx. eapply Qclt_le_trans; [exact Hx | apply Th_nonneg]. }
  destruct (dict_get parameters "Q_N_min") as [x|] eqn:EN.
  - destruct (Qclt_le_dec x (Th_Q_N_min _ _ stoichiometry_loc s1)) as [_|Hge].
    + exists "Q_N_min", s1. auto.
    + destruct Hneg as [(y & [= <-] & Hy)|(y & EP & Hy)].
      * exfalso.
        apply (Qclt_not_le _ _ (Hlow x (stoichiometry_loc s1 "growth_pho" "X_N_ALG") Hy)).
        exact Hge.
      * rewrite EP.
        destruct (Qclt_le_dec y (Th_Q_P_min _ _ stoichiometry_loc s1)) as [_|Hge'].
        -- exists "Q_P_min", s1. auto.
        -- exfalso.
           apply (Qclt_not_le _ _ (Hlow y (stoichiometry_loc s1 "growth_pho" "X_P_ALG") Hy)).
           exact Hge'.
  - destruct Hneg as [(y & [=] & _)|(y & EP & Hy)]. rewrite EP.
    destruct (Qclt_le_dec y (Th_Q_P_min _ _ stoichiometry_loc s1)) as [_|Hge'].
    + exists "Q_P_min", s1. auto.
    + exfalso.
      apply (Qclt_not_le _ _ (Hlow y (stoichiometry_loc s1 "growth_pho" "X_P_ALG") Hy)).
      exact Hge'.
Qed.

End PM2More.

(** ** PM2: clamped ratios and the irradiance response *)

Section KineticsFacts.
Import Kinetics.

Lemma pymax_bounds (a b : Qc) : (a <= pymax a b /\ b <= pymax a b)%Qc.
Proof.
  unfold pymax. destruct (Qclt_le_dec a b) as [H|H].
  - split; [by apply Qclt_le_weak | apply Qcle_refl].
  - split; [apply Qcle_refl | done].
Qed.

Lemma pymin_bounds (a b : Qc) : (pymin a b <= a /\ pymin a b <= b)%Qc.
Proof.
  unfold pymin. destruct (Qclt_le_dec b a) as [H|H].
  - split; [by apply Qclt_le_weak | apply Qcle_refl].
  - split; [apply Qcle_refl | done].
Qed.

Lemma pymin_pymax_clamp (lo hi x : Qc) :
  (lo <= hi)%Qc ->
  (lo <= pymin (pymax lo x) hi <= hi)%Qc /\
  ((lo <= x <= hi)%Qc -> pymin (pymax lo x) hi = x) /\
  ((x < lo)%Qc -> pymin (pymax lo x) hi = lo) /\
  ((hi < x)%Qc -> pymin (pymax lo x) hi = hi).
Proof.
  intros Hlohi. unfold pymin, pymax.
  destruct (Qclt_le_dec lo x) as [Hx|Hx].
  - destruct (Qclt_le_dec hi x) as [Hhi|Hhi].
    + repeat split; try done; try apply Qcle_refl.
      * intros [_ H]. exfalso. by apply (Qclt_not_le _ _ Hhi).
      * intros H. exfalso. apply (Qclt_not_le _ _ Hx). by apply Qclt_le_weak.
    + repeat split; try done; try (by apply Qclt_le_weak).
      * intros H. exfalso. apply (Qclt_not_le _ _ Hx). by apply Qclt_le_weak.
      * intros H. exfalso. by apply (Qclt_not_le _ _ H).
  - destruct (Qclt_le_dec hi lo) as [Hhi|Hhi].
    + exfalso. by apply (Qclt_not_le _ _ Hhi).
    + repeat split; try done; try apply Qcle_refl.
      * intros [H _]. by apply Qcle_antisym.
      * intros H. exfalso. apply (Qclt_not_le _ _ H).
        by apply (Qcle_trans _ lo).
Qed.

(** X18.  [ratio] clamps the quotient: with a nonzero denominator and
    [minimum <= maximum], the result lies between the two bounds, is the
    quotient when that lies between them, and is the bound it crosses
    otherwise. *)
Theorem ratio_is_clamped (numerator denominator minimum maximum : Qc) :
  denominator <> Q2Qc 0 ->
  (minimum <= maximum)%Qc ->
  let q := (numerator / denominator)%Qc in
  (minimum <= ratio numerator denominator minimum maximum <= maximum)%Qc /\
  ((minimum <= q <= maximum)%Qc -> ratio numerator denominator minimum maximum = q) /\
  ((q < minimum)%Qc -> ratio numerator denominator minimum maximum = minimum) /\
  ((maximum < q)%Qc -> ratio numerator denominator minimum maximum = maximum).
Proof. intros _ H q. unfold ratio. by apply pymin_pymax_clamp. Qed.

Lemma pymin_comm_clamp (x : Qc) :
  (Q2Qc 0 <= pymin (Q2Qc 1) (pymax (Q2Qc 0) x) <= Q2Qc 1)%Qc.
Proof.
  split.
  - unfold pymin. destruct (Qclt_le_dec (pymax (Q2Qc 0) x) (Q2Qc 1)).
    + apply pymax_bounds.
    + done.
  - apply pymin_bounds.
Qed.

(** X19.  With nonzero denominators, the irradiance response is a
    number between 0 and 1; it is 0 when there is no carbon
    ([X_carbon <= 0]) and 0 when there is no light ([i_avg = 0]). *)
Theorem irrad_response_in_unit_interval (i_avg X_CHL X_carbon I_n I_opt : Qc) :
  I_opt <> Q2Qc 0 ->
  ((Q2Qc 0 < X_carbon)%Qc ->
   (i_avg + I_n * (Q2Qc (1 # 4) - (Q2Qc 5 * X_CHL / X_carbon))
            * ((i_avg ^ 2 / I_opt ^ 2) - (Q2Qc 2 * i_avg / I_opt) + Q2Qc 1))%Qc
   <> Q2Qc 0) ->
  (Q2Qc 0 <= irrad_response i_avg X_CHL X_carbon I_n I_opt <= Q2Qc 1)%Qc /\
  ((X_carbon <= Q2Qc 0)%Qc -> irrad_response i_avg X_CHL X_carbon I_n I_opt = Q2Qc 0) /\
  (i_avg = Q2Qc 0 -> irrad_response i_avg X_CHL X_carbon I_n I_opt = Q2Qc 0).
Proof.
  intros _ _. unfold irrad_response.
  destruct (Qclt_le_dec (Q2Qc 0) X_carbon) as [Hpos|Hle].
  - split; [apply pymin_comm_clamp|]. split.
    + intros H. exfalso. by apply (Qclt_not_le _ _ Hpos).
    + intros ->. unfold Qcdiv. rewrite Qcmult_0_l.
      unfold pymin, pymax. simpl. apply Qc_is_canon. reflexivity.
  - split; [done|]. done.
Qed.

End KineticsFacts.

(** ** The cache over a series of constructions *)

Section CacheMore.
Import Processes CompiledProcesses.

Lemma run_calls_keeps (calls : list (list Process.t)) (w : world) (k : list nat) (a : nat) :
  reachable w ->
  cache w !! k = Some a ->
  reachable (run_calls calls w) /\
  cache (run_calls calls w) !! k = Some a /\
  heap (run_calls calls w) !! a = heap w !! a.
Proof.
  unfold run_calls. revert w. induction calls as [|qs calls IH]; intros w Hw Hk; simpl.
  - done.
  - destruct (__new___keeps qs w k a (reachable_cache_ok w Hw) Hk) as [Hk' Hh'].
    destruct (IH (snd (__new__ qs w))) as (Hr & Hc & Hh); [by constructor | done |].
    split; [done|]. split; [done|]. by rewrite Hh.
Qed.

(** X20.  Once a tuple (of processes the constructor can take) has its instance,
    it keeps it: after any series of further constructions, from whatever
    tuples and whether they succeed or raise, constructing again from a
    tuple of the same objects returns the same instance, changes nothing,
    and the instance itself is as it was.  The objects alone count: a
    member changed in place in the meantime still leads to the instance
    compiled before the change. *)
Theorem cached_instance_is_stable (w : world) (ps ps' : list Process.t)
        (calls : list (list Process.t)) :
  reachable w ->
  constructible ps ->
  map Process.addr ps' = map Process.addr ps ->
  exists a w1 o,
    __new__ ps w = (Ok a, w1) /\
    heap w1 !! a = Some o /\
    __new__ ps' (run_calls calls w1) = (Ok a, run_calls calls w1) /\
    heap (run_calls calls w1) !! a = heap w1 !! a.
Proof.
  intros Hw Hc Hkey.
  destruct (__new___first ps w Hw Hc) as (a & w1 & ps0 & o & Hrun & Hc1 & _ & Hh & _ & _).
  assert (Hw1 : reachable w1).
  { replace w1 with (snd (__new__ ps w)) by (by rewrite Hrun). by constructor. }
  destruct (run_calls_keeps calls w1 _ a Hw1 Hc1) as (_ & Hc2 & Hh2).
  exists a, w1, o. split; [done|]. split; [done|]. split; [|done].
  apply __new___hit. by rewrite Hkey.
Qed.

(** X21.  The instance the constructor returns for a tuple it can take is in the
    heap, is of class [CompiledProcesses], and is what setting the members
    and calling [_compile] gave for a tuple of the same objects - the tuple
    of the first construction, which a later cache hit does not compile
    again. *)
Theorem constructed_instance_is_compiled (w : world) (ps : list Process.t) :
  reachable w ->
  constructible ps ->
  exists a w1 ps0 o,
    __new__ ps w = (Ok a, w1) /\
    map Process.addr ps0 = map Process.addr ps /\
    heap w1 !! a = Some o /\
    cls o = cls_CompiledProcesses /\
    fresh_instance ps0 = (Ok tt, o) /\
    (cache w !! map Process.addr ps = None -> ps0 = ps /\ a = next w).
Proof.
  intros Hw Hc.
  destruct (__new___first ps w Hw Hc) as (a & w1 & ps0 & o & Hrun & _ & Hk & Hh & Hf & Hmiss).
  exists a, w1, ps0, o. split; [done|]. split; [done|]. split; [done|].
  split; [by apply (fresh_instance_cls ps0)|]. done.
Qed.

(** A member named like the method the constructor calls, or like a
    property of the class, makes the construction raise; nothing is
    cached. *)
Lemma __new___refused_compiled (w : world) (ps : list Process.t) :
  cache w !! map Process.addr ps = None ->
  (exists p, p ∈ ps /\ Process._ID p ∈ data_descriptors cls_CompiledProcesses) ->
  exists e w1, __new__ ps w = (Raise e, w1) /\ cache w1 = cache w.
Proof.
  intros Hk H. rewrite __new___cases, Hk.
  destruct (set_members_refused ps {| cls := cls_CompiledProcesses; dict := [] |} H)
    as (p & o' & Hin & Hp & Hrun).
  unfold fresh_instance, bind. rewrite Hrun. eauto.
Qed.

End CacheMore.

(** ** Keys of a compiled collection, list subscripts, two ways to compile *)

Section CompiledKeys.
Import Processes CompiledProcesses.

Lemma compiled_dict_fresh_keys d ps M_stch params num :
  (forall f, f ∈ compiled_fields -> f ∉ dict_keys d) ->
  dict_keys (compiled_dict d ps M_stch params num) = dict_keys d ++ compiled_fields.
Proof.
  intros Hfresh.
  set (IDs := map Process._ID ps).
  set (rates := map Process._rate_equation ps).
  change (compiled_dict d ps M_stch params num)
    with (dict_update d
            [ ("tuple", VTuple ps); ("size", VInt (length IDs)); ("IDs", VStrs IDs);
              ("_index", VIndex (dict_of_pairs (zip IDs (seq 0 (length IDs)))));
              ("_components",
                VComponents (Components.new (flat_map Process._components ps)));
              ("_parameters", VParams params);
              ("_stoichiometry", VStoich num M_stch);
              ("_rate_equations", VExprs rates);
              ("_production_rates", VMatrix (Matrix_mul (Matrix_T M_stch) rates)) ]).
  rewrite dict_update_fresh.
  - unfold dict_keys. rewrite map_app. reflexivity.
  - compute_done.
  - intros k Hk. apply dict_get_None_keys. by apply Hfresh.
Qed.

(** X22.  After [_compile], the instance dictionary holds the IDs of the members
    followed by the nine names of the compiled state (no member being named
    like one of them).  So the length of a compiled collection is its
    number of processes plus nine, although [size] is the number of
    processes, and its printed form lists the nine names after the IDs. *)
Theorem compiled_keys (o self : obj) (ps : list Process.t) :
  dict o = entries ps ->
  (forall f, f ∈ compiled_fields -> f ∉ map Process._ID ps) ->
  _compile o = (Ok tt, self) ->
  dict_keys (dict self) = map Process._ID ps ++ compiled_fields /\
  __len__ self = length ps + 9 /\
  attr self "size" = Ok (VInt (length ps)) /\
  Display.__repr__ self
  = class_name (cls o) +:+ "(["
      +:+ String.concat ", " (map Process._ID ps ++ compiled_fields) +:+ "])".
Proof.
  intros Hd Hfresh Hrun.
  destruct (_compile_entries_inv o self ps Hd Hrun) as (M_stch & params & num & ->).
  assert (Hkeys : dict_keys (compiled_dict (entries ps) ps M_stch params num)
                  = map Process._ID ps ++ compiled_fields).
  { rewrite compiled_dict_fresh_keys; rewrite entries_keys; done. }
  split; [exact Hkeys|]. split; [|split].
  - unfold __len__. simpl. apply (f_equal length) in Hkeys.
    unfold dict_keys in Hkeys. rewrite length_map, length_app, length_map in Hkeys.
    exact Hkeys.
  - unfold attr. simpl. unfold compiled_dict.
    rewrite !dict_get_set_ne by done. rewrite dict_get_set_eq. by rewrite length_map.
  - unfold Display.__repr__. simpl. by rewrite Hkeys.
Qed.

(** X23.  Subscripting with a list of IDs returns one entry per ID, in the order
    asked, when every ID is bound.  When one is not, the whole lookup fails
    with a KeyError whose message shows the list that was asked, not the ID
    that is missing. *)
Theorem getitem_list (self : obj) (bound rest : list string) (missing : string) :
  Forall (fun ID => dict_get (dict self) ID <> None) bound ->
  dict_get (dict self) missing = None ->
  (exists vs, __getitem__ self (KList bound) = Ok (VList vs) /\
              Forall2 (fun ID v => dict_get (dict self) ID = Some v) bound vs) /\
  __getitem__ self (KList (bound ++ missing :: rest))
  = Raise (KeyError ("undefined process " +:+ key_repr (KList (bound ++ missing :: rest)))) /\
  __getitem__ self (KStr missing) = Raise (KeyError ("undefined process " +:+ missing)).
Proof.
  intros Hbound Hmissing. split; [|split].
  - unfold __getitem__.
    induction Hbound as [|ID bound HID _ IH].
    + exists []. split; [done|constructor].
    + destruct IH as (vs & Hvs & Hall).
      destruct (dict_get (dict self) ID) as [v|] eqn:E; [|done].
      exists (v :: vs). simpl. rewrite E. simpl.
      destruct (mapM _ bound) as [vs'|]; [|done].
      injection Hvs as ->. split; [done|]. by constructor.
  - unfold __getitem__.
    assert (Hraise : exists e,
               mapM (fun i => match dict_get (dict self) i with
                              | Some v => Ok v
                              | None => Raise (KeyError i)
                              end) (bound ++ missing :: rest) = Raise e).
    { induction Hbound as [|ID bound HID _ IH]; simpl.
      - rewrite Hmissing. simpl. eauto.
      - destruct (dict_get (dict self) ID); [|done]. simpl.
        destruct IH as [e ->]. simpl. eauto. }
    destruct Hraise as [e ->]. done.
  - unfold __getitem__. simpl. by rewrite Hmissing.
Qed.

(** X24.  Compiling in place and constructing give the same state: for
    processes that the [CompiledProcesses] constructor can take,
    [mycompile] on [Processes(ps)] leaves exactly the instance that the
    constructor builds for [ps] on a cache miss.  Only the constructor
    records it in the cache. *)
Theorem mycompile_agrees_with_constructor (ps : list Process.t) :
  constructible ps ->
  exists new o,
    Processes.__new__ (map VProcess ps) = Ok new /\
    mycompile new = (Ok tt, o) /\
    fresh_instance ps = (Ok tt, o) /\
    cls o = cls_CompiledProcesses.
Proof.
  intros Hc.
  destruct (init_Ok ps Hc) as [o Ho].
  unfold Processes.__new__.
  rewrite set_members_processes by (by apply constructible_plain). simpl.
  eexists _, o. split; [reflexivity|].
  split; [|split; [done | by apply (fresh_instance_cls ps)]].
  rewrite fresh_instance_compile in Ho by done.
  unfold mycompile, bind, modify. simpl. exact Ho.
Qed.

Lemma add_members_bound (ps : list Process.t) (ID : string) :
  ID ∈ map Process._ID ps ->
  exists q, q ∈ ps /\ Process._ID q = ID /\
            dict_get (add_members [] ps) ID = Some (VProcess q).
Proof.
  intros Hin. rewrite add_members_get. unfold last_with_ID.
  destruct (find _ (rev ps)) as [q|] eqn:E.
  - apply find_some in E as [Hq HID]. exists q.
    split; [apply list_elem_of_In; by apply in_rev|].
    split; [by apply String.eqb_eq|done].
  - exfalso. apply list_elem_of_fmap in Hin as (p & Hp & Hin).
    assert (Hf : (Process._ID p =? ID)%string = false).
    { apply (find_none _ _ E p). apply -> in_rev. by apply list_elem_of_In. }
    rewrite Hp, String.eqb_refl in Hf. discriminate.
Qed.

(** X25.  Where the two ways to compile part: a member whose ID is the name of
    a property of [CompiledProcesses], or of the method [_compile], is
    accepted by [Processes(...)] and compiled in place by [mycompile],
    whereas the [CompiledProcesses] constructor raises on the same
    processes - the error of the attribute assignment, or the TypeError of
    [self._compile()] finding the member, which is not callable - and
    caches nothing. *)
Theorem constructor_refuses_what_mycompile_accepts (ps : list Process.t) (w : world) :
  Forall (fun p => Process._ID p ∉ data_descriptors cls_Processes) ps ->
  (exists p, p ∈ ps /\
             Process._ID p ∈ "_compile" :: data_descriptors cls_CompiledProcesses) ->
  cache w !! map Process.addr ps = None ->
  (exists new o,
      Processes.__new__ (map VProcess ps) = Ok new /\
      mycompile new = (Ok tt, o) /\
      cls o = cls_CompiledProcesses) /\
  (exists e w1,
      __new__ ps w = (Raise e, w1) /\
      cache w1 = cache w /\
      ((exists q, q ∈ ps /\
                  Process._ID q ∈ data_descriptors cls_CompiledProcesses /\
                  e = descriptor_error (Process._ID q)) \/
       (exists q, q ∈ ps /\ Process._ID q = "_compile" /\
                  e = not_callable (VProcess q)))).
Proof.
  intros Hplain (p & Hin & Hp) Hk. split.
  - unfold Processes.__new__. rewrite set_members_processes by done. simpl.
    destruct (add_members_entries [] ps) as [qs Hqs].
    destruct (_compile_entries
                (with_dict (add_members [] ps)
                           {| cls := cls_CompiledProcesses; dict := [] |}) qs)
      as (M_stch & params & num & Hrun & _); [done|].
    eexists _, _. split; [reflexivity|].
    unfold mycompile, bind, modify. simpl. split; [exact Hrun|done].
  - rewrite __new___cases, Hk.
    destruct (decide (Forall (fun q => Process._ID q
                                ∉ data_descriptors cls_CompiledProcesses) ps))
      as [Hall|Hnot].
    + assert (Hm : Process._ID p = "_compile").
      { apply elem_of_cons in Hp as [Hp|Hp]; [done|].
        rewrite Forall_forall in Hall. by destruct (Hall p Hin). }
      destruct (add_members_bound ps "_compile") as (q & Hq & HID & Hget).
      { rewrite <- Hm. apply list_elem_of_fmap. by exists p. }
      unfold fresh_instance, bind. rewrite set_members_processes by done.
      unfold self__compile. simpl. rewrite Hget.
      eexists _, _. split; [reflexivity|]. split; [done|]. right. by exists q.
    + apply not_Forall_Exists in Hnot; [|apply _].
      apply Exists_exists in Hnot as (q & Hq & Hbad).
      apply dec_stable in Hbad.
      destruct (set_members_refused ps
                  {| cls := cls_CompiledProcesses; dict := [] |})
        as (q' & o' & Hq' & Hbad' & Hrun); [by exists q|].
      unfold fresh_instance, bind. rewrite Hrun.
      eexists _, _. split; [reflexivity|]. split; [done|]. left. by exists q'.
Qed.

(** X26.  [extend] with an iterable looks [append] up on the instance for each
    element.  When the first element is a process with the ID append (new
    to a plain collection), it is added under that name and from then on
    hides the method: the next element, whatever it is, fails with the
    TypeError of calling a [Process], and the collection keeps the one
    entry that was added. *)
Theorem extend_stops_after_member_named_append
        (self : obj) (p : Process.t) (x : value) (rest : list value) :
  cls self = cls_Processes ->
  Process._ID p = "append" ->
  dict_get (dict self) "append" = None ->
  Processes.extend (Iterable (VProcess p :: x :: rest)) self
  = (Raise (not_callable (VProcess p)),
     with_dict (dict self ++ [("append", VProcess p)]) self).
Proof.
  intros Hcls HID Hfresh. simpl. unfold bind.
  rewrite self_append_method by done.
  rewrite append_fresh; [| rewrite HID, Hcls; compute_done | by rewrite HID].
  unfold self_append. simpl. rewrite dict_get_app, Hfresh, HID. simpl. done.
Qed.

(** X27.  An ID that is the name of a data descriptor of [Processes]
    ([__class__], [__dict__], [__weakref__]) cannot be stored: [append] of
    such a process, on a receiver of either class, raises the error of the
    descriptor and leaves the collection as it was, and [Processes(...)]
    raises that error at the first such process of the list, whatever
    follows it. *)
Theorem descriptor_names_are_refused
        (self : obj) (p : Process.t) (before after : list Process.t) :
  dict_get (dict self) (Process._ID p) = None ->
  Process._ID p ∈ data_descriptors cls_Processes ->
  Forall (fun q => Process._ID q ∉ data_descriptors cls_Processes) before ->
  Processes.append (VProcess p) self
  = (Raise (descriptor_error (Process._ID p)), self) /\
  Processes.__new__ (map VProcess (before ++ p :: after))
  = Raise (descriptor_error (Process._ID p)).
Proof.
  intros Hfresh Hp Hgood. split.
  - unfold Processes.append, bind, get, dict_contains.
    rewrite Hfresh, setattr_Raise; [done|]. by apply data_descriptors_plain.
  - unfold Processes.__new__, set_members.
    rewrite map_app, forM__app.
    fold (set_members (map VProcess before) {| cls := cls_Processes; dict := [] |}).
    rewrite set_members_processes by done.
    simpl map. fold (set_members (VProcess p :: map VProcess after)).
    rewrite set_members_cons_refused by done. done.
Qed.

End CompiledKeys.

(** ** The further properties at concrete instances *)

Section MoreWitnesses.
Import Processes.

Lemma two_nonzero : Q2Qc 2 <> Q2Qc 0.
Proof. intros H. apply (f_equal Qcanon.this) in H. vm_compute in H. discriminate. Qed.

Lemma ref_component_normalizes_witness :
  "A" <> "" /\
  Process._stoichiometry Example.q = Process.NdArray [Q2Qc 2; Q2Qc (-4)] /\
  Components.index (Process._components Example.q) "A" = Ok 0 /\
  [Q2Qc 2; Q2Qc (-4)] !! 0 = Some (Q2Qc 2) /\
  Q2Qc 2 <> Q2Qc 0 /\
  exists p' v',
    Process.set_ref_component "A" Example.q = (Ok tt, p') /\
    Process._ref_component p' = "A" /\
    Process._stoichiometry p' = Process.NdArray v' /\
    length v' = 2.
Proof.
  assert (H1 : "A" <> "") by discriminate.
  assert (H2 : Process._stoichiometry Example.q = Process.NdArray [Q2Qc 2; Q2Qc (-4)])
    by reflexivity.
  assert (H3 : Components.index (Process._components Example.q) "A" = Ok 0)
    by reflexivity.
  assert (H4 : [Q2Qc 2; Q2Qc (-4)] !! 0 = Some (Q2Qc 2)) by reflexivity.
  pose proof two_nonzero as H5.
  repeat (split; [assumption|]).
  destruct (ref_component_normalizes Example.q "A" [Q2Qc 2; Q2Qc (-4)] 0 (Q2Qc 2)
              H1 H2 H3 H4 H5) as (p' & v' & Hrun & Href & Hst & Hlen & _).
  exists p', v'. auto.
Defined.

Lemma ref_component_unknown_witness :
  "Z" <> "" /\
  ("Z" ∉ Components.IDs (Process._components Example.q)) /\
  Process.set_ref_component "Z" Example.q
  = (Raise (KeyError "Z"), Process.with_ref_component "Z" Example.q).
Proof.
  assert (H1 : "Z" <> "") by discriminate.
  assert (H2 : "Z" ∉ Components.IDs (Process._components Example.q)) by compute_done.
  repeat (split; [assumption|]).
  exact (proj1 (proj2 (ref_component_unknown Example.q "Z" H1 H2))).
Defined.

Lemma stoichiometry_view_witness :
  NoDup (Components.IDs (Process._components Example.p1)) /\
  (dict_get (Process.stoichiometry Example.p1) "B" = Some (ENum (Q2Qc 1)) <->
   exists j, Components.IDs (Process._components Example.p1) !! j = Some "B" /\
             Process.coeffs (Process._stoichiometry Example.p1) !! j
             = Some (ENum (Q2Qc 1)) /\
             is_zero (ENum (Q2Qc 1)) = false).
Proof.
  assert (H1 : NoDup (Components.IDs (Process._components Example.p1)))
    by compute_done.
  split; [exact H1|].
  exact (stoichiometry_view Example.p1 "B" (ENum (Q2Qc 1)) H1).
Defined.

Lemma compile_matrix_entries_witness :
  dict Example.members = entries [Example.p1; Example.p2] /\
  exists self cmps num M_stch,
    CompiledProcesses._compile Example.members = (Ok tt, self) /\
    CompiledProcesses.attr self "_components" = Ok (VComponents cmps) /\
    CompiledProcesses.stoichiometry self = Ok (VStoich num M_stch) /\
    Forall2 (fun p row =>
               forall j ID, Components.IDs cmps !! j = Some ID ->
                            row !! j = Some (entry_for p ID))
            [Example.p1; Example.p2] M_stch.
Proof.
  assert (H1 : dict Example.members = entries [Example.p1; Example.p2]) by reflexivity.
  split; [exact H1|].
  exact (compile_matrix_entries Example.members [Example.p1; Example.p2] H1).
Defined.

Lemma compile_numeric_flag_witness :
  dict Example.members = entries [Example.p1; Example.p2] /\
  exists self num M_stch,
    CompiledProcesses._compile Example.members = (Ok tt, self) /\
    CompiledProcesses.stoichiometry self = Ok (VStoich num M_stch) /\
    (num = true <->
     Forall (fun p => exists v, Process._stoichiometry p = Process.NdArray v)
            [Example.p1; Example.p2]).
Proof.
  assert (H1 : dict Example.members = entries [Example.p1; Example.p2]) by reflexivity.
  split; [exact H1|].
  exact (compile_numeric_flag Example.members [Example.p1; Example.p2] H1).
Defined.

Lemma compile_merges_parameters_witness :
  dict Example.members = entries [Example.p1; Example.p2] /\
  exists self params,
    CompiledProcesses._compile Example.members = (Ok tt, self) /\
    CompiledProcesses.attr self "_parameters" = Ok (VParams params) /\
    NoDup (dict_keys params) /\
    forall name,
      name ∈ dict_keys params <->
      exists p, p ∈ [Example.p1; Example.p2] /\
                name ∈ dict_keys (Process._parameters p).
Proof.
  assert (H1 : dict Example.members = entries [Example.p1; Example.p2]) by reflexivity.
  split; [exact H1|].
  exact (compile_merges_parameters Example.members [Example.p1; Example.p2] H1).
Defined.

Lemma new_keeps_last_duplicate_witness :
  let ps := [Example.p1; Example.p2; Example.p2_bis] in
  (Forall (fun p => Process._ID p ∉ data_descriptors cls_Processes) ps /\
   exists self,
     Processes.__new__ (map VProcess ps) = Ok self /\
     dict_get (dict self) "p2" = Some (VProcess Example.p2_bis) /\
     Processes.__len__ self <= 3).
Proof.
  intros ps.
  assert (H1 : Forall (fun p => Process._ID p ∉ data_descriptors cls_Processes) ps)
    by compute_done.
  split; [exact H1|].
  destruct (new_keeps_last_duplicate ps H1) as (self & Hrun & _ & _ & Hget & Hlen & _).
  exists self. split; [exact Hrun|]. split; [|exact Hlen].
  rewrite Hget. reflexivity.
Defined.

Lemma append_then_lookup_witness :
  (Process._ID Example.q ∉ data_descriptors (cls Example.members)) /\
  dict_get (dict Example.members) (Process._ID Example.q) = None /\
  exists self',
    Processes.append (VProcess Example.q) Example.members = (Ok tt, self') /\
    Processes.__getitem__ self' (KStr "q") = Ok (VProcess Example.q) /\
    Processes.__len__ self' = 3.
Proof.
  assert (H0 : Process._ID Example.q ∉ data_descriptors (cls Example.members))
    by compute_done.
  assert (H1 : dict_get (dict Example.members) (Process._ID Example.q) = None)
    by reflexivity.
  split; [exact H0|]. split; [exact H1|].
  destruct (append_then_lookup Example.members Example.q H0 H1)
    as (self' & Hrun & Hget & Hlen & _).
  exists self'. auto.
Defined.

Lemma copy_of_collection_witness :
  dict Example.members = entries [Example.p1; Example.p2] /\
  NoDup (map Process._ID [Example.p1; Example.p2]) /\
  Forall (fun p => Process._ID p ∉ data_descriptors cls_Processes)
         [Example.p1; Example.p2] /\
  Processes.copy Example.members
  = Ok {| cls := cls_Processes; dict := dict Example.members |}.
Proof.
  assert (H1 : dict Example.members = entries [Example.p1; Example.p2]) by reflexivity.
  assert (H2 : NoDup (map Process._ID [Example.p1; Example.p2])) by compute_done.
  assert (H3 : Forall (fun p => Process._ID p ∉ data_descriptors cls_Processes)
                      [Example.p1; Example.p2]) by compute_done.
  repeat (split; [assumption|]).
  exact (copy_of_collection Example.members [Example.p1; Example.p2] H1 H2 H3).
Defined.

Lemma compiled_getitem_witness :
  let o := with_cls cls_CompiledProcesses Example.members in
  let ps := [Example.p1; Example.p2] in
  (dict o = entries ps /\
   NoDup (map Process._ID ps) /\
   CompiledProcesses._compile o = (Ok tt, Example.compiled) /\
   (exists j p, CompiledProcesses.index Example.compiled "p2" = Ok j /\
                ps !! j = Some p /\
                Processes.__getitem__ Example.compiled (KStr "p2") = Ok (VProcess p)) /\
   (exists v, Processes.__getitem__ Example.compiled (KStr "size") = Ok v /\
              is_Process v = false)).
Proof.
  intros o ps.
  assert (H1 : dict o = entries ps) by reflexivity.
  assert (H2 : NoDup (map Process._ID ps)) by compute_done.
  assert (H3 : CompiledProcesses._compile o = (Ok tt, Example.compiled))
    by (vm_compute; reflexivity).
  repeat (split; [assumption|]).
  split.
  - apply (proj1 (compiled_getitem o Example.compiled ps "p2" H1 H2 H3)); compute_done.
  - apply (proj2 (compiled_getitem o Example.compiled ps "size" H1 H2 H3)); compute_done.
Defined.

Lemma compiled_contains_witness :
  let o := with_cls cls_CompiledProcesses Example.members in
  let ps := [Example.p1; Example.p2] in
  (dict o = entries ps /\
   CompiledProcesses._compile o = (Ok tt, Example.compiled) /\
   Membership.__contains__ Example.compiled (Membership.CStr "size") = Ok true /\
   Membership.__contains__ Example.compiled Membership.COther = Ok false).
Proof.
  intros o ps.
  assert (H1 : dict o = entries ps) by reflexivity.
  assert (H3 : CompiledProcesses._compile o = (Ok tt, Example.compiled))
    by (vm_compute; reflexivity).
  repeat (split; [assumption|]).
  destruct (compiled_contains o Example.compiled ps H1 H3) as (Hstr & _ & Hother).
  split; [|exact Hother].
  destruct (Hstr "size") as (b & Hb & Hiff).
  rewrite Hb. f_equal. apply Hiff. right. compute_done.
Defined.

Lemma mycompile_changes_class_then_raises_witness :
  VTuple [Example.p1; Example.p2] ∈ dict_values (dict Example.compiled) /\
  is_Process (VTuple [Example.p1; Example.p2]) = false /\
  exists v self',
    is_Process v = false /\
    CompiledProcesses.mycompile Example.compiled = (Raise (no_ID v), self') /\
    cls self' = cls_CompiledProcesses /\
    dict self' = dict Example.compiled /\
    CompiledProcesses.mycompile self' = (Raise (no_ID v), self').
Proof.
  assert (H1 : VTuple [Example.p1; Example.p2] ∈ dict_values (dict Example.compiled)).
  { apply (dict_get_values _ "tuple"). vm_compute. reflexivity. }
  assert (H2 : is_Process (VTuple [Example.p1; Example.p2]) = false) by reflexivity.
  repeat (split; [assumption|]).
  exact (mycompile_changes_class_then_raises Example.compiled
           (VTuple [Example.p1; Example.p2]) H1 H2).
Defined.

Lemma extend_with_compiled_witness :
  let o := with_cls cls_CompiledProcesses Example.members in
  let ps := [Example.p1; Example.p2] in
  (dict o = entries ps /\
   NoDup (map Process._ID ps) /\
   CompiledProcesses._compile o = (Ok tt, Example.compiled) /\
   exists self' v,
     Processes.extend (Instance Example.compiled) Example.other = (Ok tt, self') /\
     dict_get (dict self') "tuple" = Some (VTuple ps) /\
     is_Process v = false /\
     CompiledProcesses.mycompile self'
     = (Raise (no_ID v), with_cls cls_CompiledProcesses self')).
Proof.
  intros o ps.
  assert (H1 : dict o = entries ps) by reflexivity.
  assert (H2 : NoDup (map Process._ID ps)) by compute_done.
  assert (H3 : CompiledProcesses._compile o = (Ok tt, Example.compiled))
    by (vm_compute; reflexivity).
  repeat (split; [assumption|]).
  exact (extend_with_compiled Example.other o Example.compiled ps H1 H2 H3).
Defined.

Lemma set_parameters_accepts_witness :
  let parameters :=
    [("Y_CH_PHO", Q2Qc (1 # 2)); ("Q_N_min", Q2Qc (1 # 10)); ("K_N", Q2Qc (1 # 5))] in
  let stored := dict_update (PM2._parameters Example.pm2) (PM2.stoichio_only parameters) in
  let self1 :=
    {| PM2._parameters := stored; PM2._stoichio_lambdified := None;
       PM2.rate_function := PM2.rate_function Example.pm2 |} in
  (NoDup (dict_keys parameters) /\
   (forall x, dict_get parameters "Q_N_min" = Some x ->
              (PM2.Th_Q_N_min _ _ Example.stoichiometry_loc self1 <= x)%Qc) /\
   (forall x, dict_get parameters "Q_P_min" = Some x ->
              (PM2.Th_Q_P_min _ _ Example.stoichiometry_loc self1 <= x)%Qc) /\
   PM2.set_parameters _ _ Example.set_param Example.stoichiometry_loc
     parameters Example.pm2
   = (fst (Example.set_param parameters (PM2.rate_function Example.pm2)),
      {| PM2._parameters := stored; PM2._stoichio_lambdified := None;
         PM2.rate_function :=
           snd (Example.set_param parameters (PM2.rate_function Example.pm2)) |})).
Proof.
  intros parameters stored self1.
  assert (H1 : NoDup (dict_keys parameters)) by compute_done.
  assert (H2 : forall x, dict_get parameters "Q_N_min" = Some x ->
                 (PM2.Th_Q_N_min _ _ Example.stoichiometry_loc self1 <= x)%Qc).
  { intros x [= <-]. vm_compute. discriminate. }
  assert (H3 : forall x, dict_get parameters "Q_P_min" = Some x ->
                 (PM2.Th_Q_P_min _ _ Example.stoichiometry_loc self1 <= x)%Qc).
  { intros x H. vm_compute in H. discriminate. }
  repeat (split; [assumption|]).
  exact (proj1 (set_parameters_accepts Example.set_param Example.stoichiometry_loc
                  Example.pm2 parameters H1 H2 H3)).
Defined.

Lemma set_parameters_rejects_negative_witness :
  let parameters := [("Q_P_min", Q2Qc (-1 # 100))] in
  (((exists x, dict_get parameters "Q_N_min" = Some x /\ (x < Q2Qc 0)%Qc) \/
    (exists x, dict_get parameters "Q_P_min" = Some x /\ (x < Q2Qc 0)%Qc)) /\
   exists name self1,
     PM2.set_parameters _ _ Example.set_param Example.stoichiometry_loc
       parameters Example.pm2
     = (Raise (PM2.below_minimum name), self1) /\
     (name = "Q_N_min" \/ name = "Q_P_min") /\
     PM2.rate_function self1 = PM2.rate_function Example.pm2).
Proof.
  intros parameters.
  assert (H1 : (exists x, dict_get parameters "Q_N_min" = Some x /\ (x < Q2Qc 0)%Qc) \/
               (exists x, dict_get parameters "Q_P_min" = Some x /\ (x < Q2Qc 0)%Qc)).
  { right. exists (Q2Qc (-1 # 100)). split; [reflexivity|]. vm_compute. reflexivity. }
  split; [exact H1|].
  exact (set_parameters_rejects_negative Example.set_param Example.stoichiometry_loc
           Example.pm2 parameters H1).
Defined.

Lemma ratio_is_clamped_witness :
  Q2Qc 2 <> Q2Qc 0 /\
  (Q2Qc 0 <= Q2Qc (819 # 1000))%Qc /\
  Kinetics.ratio (Q2Qc 3) (Q2Qc 2) (Q2Qc 0) (Q2Qc (819 # 1000)) = Q2Qc (819 # 1000).
Proof.
  pose proof two_nonzero as H1.
  assert (H2 : (Q2Qc 0 <= Q2Qc (819 # 1000))%Qc) by (vm_compute; discriminate).
  repeat (split; [assumption|]).
  apply (proj2 (proj2 (proj2
    (ratio_is_clamped (Q2Qc 3) (Q2Qc 2) (Q2Qc 0) (Q2Qc (819 # 1000)) H1 H2)))).
  vm_compute. reflexivity.
Defined.

Lemma irrad_response_in_unit_interval_witness :
  let D := (Q2Qc 100 + Q2Qc 250 * (Q2Qc (1 # 4) - (Q2Qc 5 * Q2Qc 1 / Q2Qc 50))
            * ((Q2Qc 100 ^ 2 / Q2Qc 300 ^ 2) - (Q2Qc 2 * Q2Qc 100 / Q2Qc 300) + Q2Qc 1))%Qc in
  (Q2Qc 300 <> Q2Qc 0 /\
   ((Q2Qc 0 < Q2Qc 50)%Qc -> D <> Q2Qc 0) /\
   (Q2Qc 0 <= Kinetics.irrad_response (Q2Qc 100) (Q2Qc 1) (Q2Qc 50) (Q2Qc 250) (Q2Qc 300)
    <= Q2Qc 1)%Qc).
Proof.
  intros D.
  assert (H1 : Q2Qc 300 <> Q2Qc 0).
  { intros H. apply (f_equal Qcanon.this) in H. vm_compute in H. discriminate. }
  assert (H2 : (Q2Qc 0 < Q2Qc 50)%Qc -> D <> Q2Qc 0).
  { intros _ H. apply (f_equal Qcanon.this) in H. vm_compute in H. discriminate. }
  repeat (split; [assumption|]).
  exact (proj1 (irrad_response_in_unit_interval (Q2Qc 100) (Q2Qc 1) (Q2Qc 50)
                  (Q2Qc 250) (Q2Qc 300) H1 H2)).
Defined.

Lemma cached_instance_is_stable_witness :
  let ps := [Example.p1; Example.p2] in
  let calls := [[Example.p2; Example.p1]; [Example.p_method]; [Example.p1]] in
  (reachable CompiledProcesses.empty_world /\
   constructible ps /\
   map Process.addr ps = map Process.addr ps /\
   exists a w1 o,
     CompiledProcesses.__new__ ps CompiledProcesses.empty_world = (Ok a, w1) /\
     CompiledProcesses.heap w1 !! a = Some o /\
     CompiledProcesses.__new__ ps (run_calls calls w1) = (Ok a, run_calls calls w1) /\
     CompiledProcesses.heap (run_calls calls w1) !! a = CompiledProcesses.heap w1 !! a).
Proof.
  intros ps calls.
  assert (H1 : reachable CompiledProcesses.empty_world) by constructor.
  assert (H2 : constructible ps) by (unfold constructible; compute_done).
  assert (H3 : map Process.addr ps = map Process.addr ps) by reflexivity.
  repeat (split; [assumption|]).
  exact (cached_instance_is_stable CompiledProcesses.empty_world ps ps calls H1 H2 H3).
Defined.

Lemma constructed_instance_is_compiled_witness :
  let ps := [Example.p1; Example.p2] in
  (reachable CompiledProcesses.empty_world /\
   constructible ps /\
   exists a w1 ps0 o,
     CompiledProcesses.__new__ ps CompiledProcesses.empty_world = (Ok a, w1) /\
     map Process.addr ps0 = map Process.addr ps /\
     CompiledProcesses.heap w1 !! a = Some o /\
     cls o = cls_CompiledProcesses /\
     fresh_instance ps0 = (Ok tt, o) /\
     (CompiledProcesses.cache CompiledProcesses.empty_world !! map Process.addr ps = None ->
      ps0 = ps /\ a = CompiledProcesses.next CompiledProcesses.empty_world)).
Proof.
  intros ps.
  assert (H1 : reachable CompiledProcesses.empty_world) by constructor.
  assert (H2 : constructible ps) by (unfold constructible; compute_done).
  split; [exact H1|]. split; [exact H2|].
  exact (constructed_instance_is_compiled CompiledProcesses.empty_world ps H1 H2).
Defined.

Lemma mycompile_agrees_with_constructor_witness :
  let ps := [Example.p1; Example.p2] in
  (constructible ps /\
   exists new o,
     Processes.__new__ (map VProcess ps) = Ok new /\
     CompiledProcesses.mycompile new = (Ok tt, o) /\
     fresh_instance ps = (Ok tt, o) /\
     cls o = cls_CompiledProcesses).
Proof.
  intros ps.
  assert (H1 : constructible ps) by (unfold constructible; compute_done).
  split; [exact H1|].
  exact (mycompile_agrees_with_constructor ps H1).
Defined.

Lemma constructor_refuses_what_mycompile_accepts_witness :
  let ps := [Example.p1; Example.p_property] in
  let w := CompiledProcesses.empty_world in
  (Forall (fun p => Process._ID p ∉ data_descriptors cls_Processes) ps /\
   (exists p, p ∈ ps /\
      Process._ID p ∈ "_compile" :: data_descriptors cls_CompiledProcesses) /\
   CompiledProcesses.cache w !! map Process.addr ps = None /\
   (exists new o,
      Processes.__new__ (map VProcess ps) = Ok new /\
      CompiledProcesses.mycompile new = (Ok tt, o) /\
      cls o = cls_CompiledProcesses) /\
   (exists e w1,
      CompiledProcesses.__new__ ps w = (Raise e, w1) /\
      CompiledProcesses.cache w1 = CompiledProcesses.cache w /\
      ((exists q, q ∈ ps /\
                  Process._ID q ∈ data_descriptors cls_CompiledProcesses /\
                  e = descriptor_error (Process._ID q)) \/
       (exists q, q ∈ ps /\ Process._ID q = "_compile" /\
                  e = not_callable (VProcess q))))).
Proof.
  intros ps w.
  assert (H1 : Forall (fun p => Process._ID p ∉ data_descriptors cls_Processes) ps)
    by compute_done.
  assert (H2 : exists p, p ∈ ps /\
             Process._ID p ∈ "_compile" :: data_descriptors cls_CompiledProcesses).
  { exists Example.p_property. split; [|compute_done].
    apply list_elem_of_further, list_elem_of_here. }
  assert (H3 : CompiledProcesses.cache w !! map Process.addr ps = None)
    by reflexivity.
  repeat (split; [assumption|]).
  exact (constructor_refuses_what_mycompile_accepts ps w H1 H2 H3).
Defined.

Lemma extend_stops_after_member_named_append_witness :
  let self := Example.members in
  let p := Example.p_append in
  (cls self = cls_Processes /\
   Process._ID p = "append" /\
   dict_get (dict self) "append" = None /\
   Processes.extend (Iterable [VProcess p; VProcess Example.q]) self
   = (Raise (TypeError "'Process' object is not callable"),
      with_dict (dict self ++ [("append", VProcess p)]) self)).
Proof.
  intros self p.
  assert (H1 : cls self = cls_Processes) by reflexivity.
  assert (H2 : Process._ID p = "append") by reflexivity.
  assert (H3 : dict_get (dict self) "append" = None) by reflexivity.
  repeat (split; [assumption|]).
  exact (extend_stops_after_member_named_append self p (VProcess Example.q) [] H1 H2 H3).
Defined.

Lemma descriptor_names_are_refused_witness :
  let self := Example.members in
  let p := Example.p_class in
  (dict_get (dict self) (Process._ID p) = None /\
   (Process._ID p ∈ data_descriptors cls_Processes) /\
   Forall (fun q => Process._ID q ∉ data_descriptors cls_Processes) [Example.p1] /\
   Processes.append (VProcess p) self
   = (Raise (TypeError "__class__ must be set to a class, not 'Process' object"), self) /\
   Processes.__new__ (map VProcess ([Example.p1] ++ p :: [Example.p2]))
   = Raise (TypeError "__class__ must be set to a class, not 'Process' object")).
Proof.
  intros self p.
  assert (H1 : dict_get (dict self) (Process._ID p) = None) by reflexivity.
  assert (H2 : Process._ID p ∈ data_descriptors cls_Processes) by compute_done.
  assert (H3 : Forall (fun q => Process._ID q ∉ data_descriptors cls_Processes)
                      [Example.p1]) by compute_done.
  repeat (split; [assumption|]).
  exact (descriptor_names_are_refused self p [Example.p1] [Example.p2] H1 H2 H3).
Defined.

Lemma compiled_keys_witness :
  let o := with_cls cls_CompiledProcesses Example.members in
  let ps := [Example.p1; Example.p2] in
  (dict o = entries ps /\
   (forall f, f ∈ compiled_fields -> f ∉ map Process._ID ps) /\
   CompiledProcesses._compile o = (Ok tt, Example.compiled) /\
   dict_keys (dict Example.compiled) = map Process._ID ps ++ compiled_fields /\
   Processes.__len__ Example.compiled = 11).
Proof.
  intros o ps.
  assert (H1 : dict o = entries ps) by reflexivity.
  assert (H2 : forall f, f ∈ compiled_fields -> f ∉ map Process._ID ps).
  { intros f Hf Hin. simpl in Hin. rewrite !elem_of_cons in Hin.
    destruct Hin as [->|[->|Hin]]; [| |by apply elem_of_nil in Hin];
      revert Hf; compute_done. }
  assert (H3 : CompiledProcesses._compile o = (Ok tt, Example.compiled))
    by (vm_compute; reflexivity).
  repeat (split; [assumption|]).
  destruct (compiled_keys o Example.compiled ps H1 H2 H3) as (Hk & Hl & _).
  split; [exact Hk | exact Hl].
Defined.

Lemma getitem_list_witness :
  Forall (fun ID => dict_get (dict Example.members) ID <> None) ["p2"; "p1"] /\
  dict_get (dict Example.members) "p3" = None /\
  Processes.__getitem__ Example.members (KList (["p2"; "p1"] ++ "p3" :: []))
  = Raise (KeyError "undefined process ['p2', 'p1', 'p3']").
Proof.
  assert (H1 : Forall (fun ID => dict_get (dict Example.members) ID <> None) ["p2"; "p1"])
    by (repeat constructor; simpl; discriminate).
  assert (H2 : dict_get (dict Example.members) "p3" = None) by reflexivity.
  repeat (split; [assumption|]).
  exact (proj1 (proj2 (getitem_list Example.members ["p2"; "p1"] [] "p3" H1 H2))).
Defined.

End MoreWitnesses.
